(** * Multi-model consultation console: query dispatch and synthesis engine

    A shallow embedding of [src/consult.py]: the [SynthesisEngine] class
    (theme, conflict and action extraction, consensus score, [synthesize]),
    [query_model], and [consult] with its semaphore gate and result heap;
    the routing of a question to models ([detect_domains], [select_models]);
    the [FeedbackCapture] class with its two files; and of
    [src/api/server.py]: [query_ollama_model] and the request handlers
    [query_models] and [query_single_model].

    Conventions of the embedding.
    - Python [str] is [string]; a character is read as the code point of the
      same number (U+0000 to U+00FF), so [lower], [\s] and [\w] follow
      Python's Unicode tables restricted to that range.
    - Python [float] (weights, confidences, the consensus score) is an exact
      rational [Q]: comparison and negation of finite floats are exact,
      rounding of sums and quotients is not modelled.
    - A [dict] is an association list in insertion order; assigning to a
      present key keeps the key's position.
    - [list(set(xs))] enumerates the distinct members of [xs] in an order
      Python leaves open; that order is the parameter [set_order].
    - A function that can raise returns [res]; [Raise e] is the exception
      leaving the function.
    - The libraries the code calls are taken by their contracts: aiohttp's
      [session.post] (with the timer of [ClientTimeout], [resp.text()],
      [resp.json()]) as the type [post_result] over a [network] of
      endpoints, with times in whole milliseconds, [heapq] as a
      bag whose [heappop] removes the least entry, [asyncio.Semaphore] as a
      counter in the step relation [gate_step], and the completion order of
      [asyncio.as_completed] as a [scheduler]. *)

From Stdlib Require Import List String Ascii Bool Arith NArith ZArith QArith.
From Stdlib Require Import Lia Lqa Permutation Sorted DecimalString OrderedTypeEx.
Import ListNotations.

Local Open Scope string_scope.
Local Open Scope list_scope.
Local Open Scope nat_scope.

(** ** Python string primitives *)

Module Py.

Definition ord (c : ascii) : N := N_of_ascii c.

Definition between (lo hi n : N) : bool := ((lo <=? n) && (n <=? hi))%N.

(** [str.isspace] on one character, which is also the regex class [\s]. *)
Definition is_space (c : ascii) : bool :=
  let n := ord c in
  between 9 13 n || between 28 32 n || (n =? 133)%N || (n =? 160)%N.

(** The regex class [\w]: alphanumeric characters and the underscore. *)
Definition is_word (c : ascii) : bool :=
  let n := ord c in
  between 48 57 n || between 65 90 n || (n =? 95)%N || between 97 122 n
  || (n =? 170)%N || between 178 179 n || (n =? 181)%N || between 185 186 n
  || between 188 190 n || between 192 214 n || between 216 246 n
  || between 248 255 n.

Definition lower_char (c : ascii) : ascii :=
  let n := ord c in
  if between 65 90 n || between 192 214 n || between 216 222 n
  then ascii_of_N (n + 32) else c.

(** [s.lower()] *)
Fixpoint lower (s : string) : string :=
  match s with
  | EmptyString => EmptyString
  | String c rest => String (lower_char c) (lower rest)
  end.

(** [needle in hay] *)
Fixpoint contains (needle hay : string) : bool :=
  if prefix needle hay then true
  else match hay with
       | EmptyString => false
       | String _ rest => contains needle rest
       end.

Definition starts_with_space (s : string) : bool :=
  match s with
  | EmptyString => false
  | String c _ => is_space c
  end.

(** [s.split()]: the maximal runs of non-whitespace characters. *)
Fixpoint split (s : string) : list string :=
  match s with
  | EmptyString => []
  | String c rest =>
      let ws := split rest in
      if is_space c then ws
      else match rest with
           | EmptyString => [String c EmptyString]
           | String d _ =>
               if is_space d then String c EmptyString :: ws
               else match ws with
                    | w :: ws' => String c w :: ws'
                    | [] => [String c EmptyString]
                    end
           end
  end.

Fixpoint lstrip (s : string) : string :=
  match s with
  | EmptyString => EmptyString
  | String c rest => if is_space c then lstrip rest else s
  end.

Fixpoint rstrip (s : string) : string :=
  match s with
  | EmptyString => EmptyString
  | String c rest =>
      match rstrip rest with
      | EmptyString => if is_space c then EmptyString else String c EmptyString
      | r => String c r
      end
  end.

(** [s.strip()] *)
Definition strip (s : string) : string := rstrip (lstrip s).

(** [s[:n]] *)
Fixpoint slice_to (n : nat) (s : string) : string :=
  match n, s with
  | S n', String c rest => String c (slice_to n' rest)
  | _, _ => EmptyString
  end.

(** [' '.join(words)] *)
Fixpoint join_space (words : list string) : string :=
  match words with
  | [] => EmptyString
  | [w] => w
  | w :: ws => w ++ " " ++ join_space ws
  end.

Definition is_terminator (c : ascii) : bool :=
  let n := ord c in (n =? 46)%N || (n =? 33)%N || (n =? 63)%N.

(** [re.split(r'[.!?]\s+', s)].  [skip] is set while the whitespace run of a
    match is being consumed.  The result always has a first piece. *)
Fixpoint re_split_from (skip : bool) (s : string) : list string :=
  match s with
  | EmptyString => [EmptyString]
  | String c rest =>
      if skip && is_space c then re_split_from true rest
      else if is_terminator c && starts_with_space rest
           then EmptyString :: re_split_from true rest
           else match re_split_from false rest with
                | p :: ps => String c p :: ps
                | [] => [String c EmptyString]
                end
  end.

Definition re_split_sentences (s : string) : list string :=
  match re_split_from false s with
  | p :: ps => p :: ps
  | [] => [EmptyString]
  end.

(** [re.sub(r'[^\w\s-]', '', s)] *)
Fixpoint re_sub_clean (s : string) : string :=
  match s with
  | EmptyString => EmptyString
  | String c rest =>
      if is_word c || is_space c || (ord c =? 45)%N
      then String c (re_sub_clean rest) else re_sub_clean rest
  end.

(** [str(n)] for a non-negative and for a signed integer. *)
Definition str_nat (n : nat) : string := NilZero.string_of_uint (Nat.to_uint n).
Definition str_int (z : Z) : string := NilZero.string_of_int (Z.to_int z).

(** [bool(s)]: a string is true when it is not empty. *)
Definition truthy (s : string) : bool :=
  match s with EmptyString => false | _ => true end.

(** Membership in a list of strings, [x in xs]. *)
Definition mem (x : string) (xs : list string) : bool :=
  existsb (String.eqb x) xs.

(** [sorted(xs)] on strings: code-point lexicographic order. *)
Fixpoint insert_sorted (x : string) (xs : list string) : list string :=
  match xs with
  | [] => [x]
  | y :: ys => if String.leb x y then x :: xs else y :: insert_sorted x ys
  end.

Definition sorted (xs : list string) : list string :=
  fold_right insert_sorted [] xs.

End Py.

(** ** Exceptions *)

Inductive exn : Type :=
| ZeroDivisionError
| AttributeError
| TypeError
| ValueError
| JSONDecodeError
| UnicodeDecodeError
| KeyError.

Inductive res (A : Type) : Type :=
| Ok (a : A)
| Raise (e : exn).
Arguments Ok {A} a.
Arguments Raise {A} e.

Definition bind {A B : Type} (m : res A) (k : A -> res B) : res B :=
  match m with
  | Ok a => k a
  | Raise e => Raise e
  end.

Notation "x <- m ;; k" := (bind m (fun x => k))
  (at level 61, m at next level, right associativity).

Fixpoint mapM {A B : Type} (f : A -> res B) (l : list A) : res (list B) :=
  match l with
  | [] => Ok []
  | a :: l' => b <- f a ;; bs <- mapM f l' ;; Ok (b :: bs)
  end.

(** [concat] of the results of [f], stopping at the first exception:
    [for a in l: out.extend(f(a))]. *)
Fixpoint extendM {A B : Type} (f : A -> res (list B)) (l : list A) : res (list B) :=
  match l with
  | [] => Ok []
  | a :: l' => bs <- f a ;; cs <- extendM f l' ;; Ok (bs ++ cs)
  end.

(** [a / b] on two lengths. *)
Definition true_div (a b : nat) : res Q :=
  match b with
  | O => Raise ZeroDivisionError
  | S _ => Ok (inject_Z (Z.of_nat a) / inject_Z (Z.of_nat b))%Q
  end.

Definition Qltb (x y : Q) : bool := negb (Qle_bool y x).

(** ** Dictionaries in insertion order *)

Section Dict.
Context {V : Type}.

Fixpoint dict_update (d : list (string * V)) (k : string) (f : option V -> V)
  : list (string * V) :=
  match d with
  | [] => [(k, f None)]
  | (k', v) :: d' =>
      if String.eqb k k' then (k', f (Some v)) :: d'
      else (k', v) :: dict_update d' k f
  end.

(** [d[k] = v] *)
Definition dict_set (d : list (string * V)) (k : string) (v : V) :=
  dict_update d k (fun _ => v).

Definition keys (d : list (string * V)) : list string := map fst d.
Definition values (d : list (string * V)) : list V := map snd d.
End Dict.

(** [d[k].append(x)] on a [defaultdict(list)] *)
Definition dict_append {X : Type} (d : list (string * list X)) (k : string) (x : X) :=
  dict_update d k (fun o => match o with Some l => l ++ [x] | None => [x] end).

(** [Counter]: [d[k] += 1] *)
Definition dict_count (d : list (string * nat)) (k : string) :=
  dict_update d k (fun o => match o with Some n => S n | None => 1 end).

(** The order in which [list(set(xs))] lists the distinct members of [xs]. *)
Record set_order : Type := {
  set_list : list string -> list string;
  set_list_NoDup : forall xs, NoDup (set_list xs);
  set_list_In : forall xs x, In x (set_list xs) <-> In x xs
}.

(** ** A stable sort by key, as [list.sort(key=...)] *)

Section StableSort.
Context {A K : Type} (key : A -> K) (leb : K -> K -> bool).

Fixpoint insert_by (x : A) (l : list A) : list A :=
  match l with
  | [] => [x]
  | y :: l' => if leb (key x) (key y) then x :: l else y :: insert_by x l'
  end.

Definition sort_by (l : list A) : list A := fold_right insert_by [] l.
End StableSort.

(** ** Data model *)

Module ModelResponse.
Record t : Type := make {
  model : string;
  domain : string;
  response : option string;
  weight : Q;
  duration_ms : Z;
  status : string;
  error : option string
}.
End ModelResponse.

Module ExtractedTheme.
Record t : Type := make {
  theme : string;
  supporting_models : list string;
  confidence : Q;
  evidence : list string
}.
End ExtractedTheme.

Module DetectedConflict.
Record t : Type := make {
  topic : string;
  positions : list (string * string);
  severity : string;
  resolution_hint : option string
}.
End DetectedConflict.

Module ActionItem.
Record t : Type := make {
  action : string;
  priority : string;
  source_models : list string;
  domain : string;
  rationale : string
}.
End ActionItem.

Module SynthesisResult.
Record t : Type := make {
  question : string;
  themes : list ExtractedTheme.t;
  conflicts : list DetectedConflict.t;
  action_items : list ActionItem.t;
  domain_coverage : list (string * nat);
  consensus_score : Q;
  total_models : nat;
  successful_models : nat;
  timestamp : string
}.
End SynthesisResult.

(** ** SynthesisEngine *)

Definition ACTION_INDICATORS : list string :=
  ["should"; "recommend"; "suggest"; "consider"; "implement";
   "start with"; "begin by"; "first step"; "priority"; "critical";
   "must"; "need to"; "important to"; "key is"; "focus on"].

Definition CONFLICT_INDICATORS : list string :=
  ["however"; "alternatively"; "on the other hand"; "instead";
   "but"; "conversely"; "in contrast"; "unlike"; "whereas";
   "disagree"; "different approach"; "better option"].

Definition PRIORITY_HIGH : list string :=
  ["critical"; "must"; "essential"; "urgent"; "immediately"; "first"].
Definition PRIORITY_MEDIUM : list string :=
  ["should"; "recommend"; "important"; "consider"].
Definition PRIORITY_LOW : list string :=
  ["could"; "might"; "optional"; "eventually"; "nice to have"].

(** The engine's only attribute is [self.responses]. *)
Record SynthesisEngine : Type := { responses : list ModelResponse.t }.

(** [__init__] *)
Definition init : SynthesisEngine := {| responses := [] |}.

(** [bool(r.response)] on an [Optional[str]] *)
Definition truthy_opt (o : option string) : bool :=
  match o with
  | Some s => Py.truthy s
  | None => false
  end.

Definition is_success (r : ModelResponse.t) : bool :=
  String.eqb (ModelResponse.status r) "success".

Definition add_responses (self : SynthesisEngine) (rs : list ModelResponse.t)
  : SynthesisEngine :=
  {| responses := filter (fun r => is_success r && truthy_opt (ModelResponse.response r)) rs |}.

(** [r.response] used as a string: [None] has no string method
    ([AttributeError]) and is refused by [re.split] ([TypeError]). *)
Definition response_or (e : exn) (r : ModelResponse.t) : res string :=
  match ModelResponse.response r with
  | Some text => Ok text
  | None => Raise e
  end.

(** [{"high": 0, "medium": 1, "low": 2}.get(p, 3)] *)
Definition priority_order (p : string) : nat :=
  if String.eqb p "high" then 0
  else if String.eqb p "medium" then 1
  else if String.eqb p "low" then 2
  else 3.

Definition _determine_priority (text : string) : string :=
  if existsb (fun word => Py.contains word text) PRIORITY_HIGH then "high"
  else if existsb (fun word => Py.contains word text) PRIORITY_MEDIUM then "medium"
  else "low".

(** [len(set(a) & set(b))] *)
Definition common_words (a b : list string) : nat :=
  List.length (filter (fun w => Py.mem w b) (nodup string_dec a)).

Definition _extract_conflict_topic (text1 text2 indicator : string) : option string :=
  match find (fun sent => Py.contains indicator (Py.lower sent)
                          && (String.length sent <? 200))
             (Py.re_split_sentences text1 ++ Py.re_split_sentences text2) with
  | Some sent => Some (Py.slice_to 100 (Py.strip sent))
  | None => None
  end.

Definition _extract_position (text topic : string) : string :=
  let topic_words := firstn 5 (Py.split (Py.lower topic)) in
  match find (fun sent => 2 <=? common_words topic_words (Py.split (Py.lower sent)))
             (Py.re_split_sentences text) with
  | Some sent => Py.slice_to 150 (Py.strip sent)
  | None => Py.slice_to 150 text ++ "..."
  end.

Definition _find_conflicts_between (r1 r2 : ModelResponse.t)
  : res (list DetectedConflict.t) :=
  t1 <- response_or AttributeError r1 ;;
  t2 <- response_or AttributeError r2 ;;
  let r1_lower := Py.lower t1 in
  let r2_lower := Py.lower t2 in
  match find (fun indicator => Py.contains indicator r1_lower
                               || Py.contains indicator r2_lower)
             CONFLICT_INDICATORS with
  | Some indicator =>
      match _extract_conflict_topic t1 t2 indicator with
      | Some topic =>
          if Py.truthy topic then
            Ok [DetectedConflict.make topic
                  (dict_set (dict_set [] (ModelResponse.model r1)
                                      (_extract_position t1 topic))
                            (ModelResponse.model r2) (_extract_position t2 topic))
                  "medium"
                  (Some "Consider domain context when choosing approach")]
          else Ok []
      | None => Ok []
      end
  | None => Ok []
  end.

(** [seen] is the set of keys met so far; a key is the sorted tuple of the
    models named in [positions]. *)
Fixpoint dedupe_conflicts_from (seen : list (list string))
    (conflicts : list DetectedConflict.t) : list DetectedConflict.t :=
  match conflicts with
  | [] => []
  | c :: cs =>
      let key := Py.sorted (keys (DetectedConflict.positions c)) in
      if existsb (fun k => if list_eq_dec string_dec key k then true else false) seen
      then dedupe_conflicts_from seen cs
      else c :: dedupe_conflicts_from (key :: seen) cs
  end.

Definition _dedupe_conflicts (conflicts : list DetectedConflict.t) :=
  dedupe_conflicts_from [] conflicts.

(** The double loop of [detect_conflicts]: each response against the ones
    after it. *)
Fixpoint conflicts_of_pairs (rs : list ModelResponse.t) : res (list DetectedConflict.t) :=
  match rs with
  | [] => Ok []
  | r1 :: rest =>
      cs <- extendM (fun r2 => _find_conflicts_between r1 r2) rest ;;
      ds <- conflicts_of_pairs rest ;;
      Ok (cs ++ ds)
  end.

Definition detect_conflicts (self : SynthesisEngine) : res (list DetectedConflict.t) :=
  if List.length (responses self) <? 2 then Ok []
  else
    conflicts <- conflicts_of_pairs (responses self) ;;
    Ok (firstn 5 (_dedupe_conflicts conflicts)).

Definition _extract_actions_from_response (r : ModelResponse.t) : res (list ActionItem.t) :=
  text <- response_or TypeError r ;;
  Ok (flat_map (fun sent =>
        let sent_lower := Py.lower sent in
        match find (fun indicator => Py.contains indicator sent_lower
                                     && (20 <? String.length sent))
                   ACTION_INDICATORS with
        | Some _ =>
            [ActionItem.make (Py.slice_to 200 (Py.strip sent))
               (_determine_priority sent_lower)
               [ModelResponse.model r]
               (ModelResponse.domain r)
               ("Recommended by " ++ ModelResponse.model r)]
        | None => []
        end) (Py.re_split_sentences text)).

(** [min(group, key=...)]: the first item of least key. *)
Fixpoint min_from {A : Type} (key : A -> nat) (best : A) (l : list A) : A :=
  match l with
  | [] => best
  | a :: l' => min_from key (if key a <? key best then a else best) l'
  end.

Section WithSetOrder.
Variable so : set_order.

Definition _extract_key_phrases (text : string) : list string :=
  let sentences := Py.re_split_sentences (Py.lower text) in
  set_list so
    (flat_map (fun sentence =>
       match find (fun indicator => Py.contains indicator sentence)
                  ACTION_INDICATORS with
       | Some _ =>
           let words := Py.split (Py.re_sub_clean sentence) in
           if (3 <=? List.length words) && (List.length words <=? 15)
           then [Py.join_space words] else []
       | None => []
       end) sentences).

Definition _dedupe_actions (actions : list ActionItem.t) : res (list ActionItem.t) :=
  match actions with
  | [] => Ok []
  | _ =>
      let groups :=
        fold_left (fun g a =>
                     dict_append g (Py.lower (Py.slice_to 50 (ActionItem.action a))) a)
                  actions [] in
      mapM (fun group =>
              match group with
              | [] => Raise ValueError
              | a :: rest =>
                  let best := min_from (fun a => priority_order (ActionItem.priority a))
                                       a rest in
                  let all_models := set_list so (flat_map ActionItem.source_models group) in
                  Ok (ActionItem.make (ActionItem.action best)
                        (ActionItem.priority best)
                        all_models
                        (ActionItem.domain best)
                        ("Recommended by " ++ Py.str_nat (List.length all_models)
                                           ++ " model(s)"))
              end) (values groups)
  end.

Definition extract_actions (self : SynthesisEngine) : res (list ActionItem.t) :=
  actions <- extendM _extract_actions_from_response (responses self) ;;
  unique_actions <- _dedupe_actions actions ;;
  Ok (firstn 10 (sort_by (fun a => priority_order (ActionItem.priority a))
                         Nat.leb unique_actions)).
End WithSetOrder.

(** The inner loop of [_find_evidence]: the first sentence of [r] that
    overlaps the phrase enough, as a one-element list, or nothing. *)
Fixpoint evidence_in (r : ModelResponse.t) (phrase_words : list string)
    (sentences : list string) : res (list string) :=
  match sentences with
  | [] => Ok []
  | sent :: rest =>
      let sent_words := Py.split (Py.lower sent) in
      overlap <- true_div (common_words phrase_words sent_words)
                          (List.length (nodup string_dec phrase_words)) ;;
      if Qltb (3 # 10) overlap && (String.length sent <? 300)
      then Ok [("[" ++ ModelResponse.model r ++ "] " ++ Py.strip sent)%string]
      else evidence_in r phrase_words rest
  end.

Definition _find_evidence (self : SynthesisEngine) (phrase : string)
    (models : list string) : res (list string) :=
  let phrase_words := Py.split (Py.lower phrase) in
  extendM (fun r =>
             if Py.mem (ModelResponse.model r) models then
               text <- response_or TypeError r ;;
               evidence_in r phrase_words (Py.re_split_sentences text)
             else Ok [])
          (responses self).

(** The loop of [extract_themes] over [phrase_models.items()]. *)
Fixpoint themes_of (self : SynthesisEngine) (items : list (string * list string))
  : res (list ExtractedTheme.t) :=
  match items with
  | [] => Ok []
  | (phrase, models) :: rest =>
      if 2 <=? List.length models then
        confidence <- true_div (List.length models) (List.length (responses self)) ;;
        evidence <- _find_evidence self phrase models ;;
        themes <- themes_of self rest ;;
        Ok (ExtractedTheme.make phrase models confidence (firstn 3 evidence) :: themes)
      else themes_of self rest
  end.

(** [phrase_models]: for each phrase, the models that produced it. *)
Definition phrase_models_of (response_phrases : list (string * list string))
  : list (string * list string) :=
  fold_left (fun pm '(model, phrases) =>
               fold_left (fun pm phrase => dict_append pm phrase model) phrases pm)
            response_phrases [].

Definition Qneg_key (t : ExtractedTheme.t) : Q := (- ExtractedTheme.confidence t)%Q.

(** [sum(xs)]: from 0, left to right. *)
Definition py_sum (xs : list Q) : Q := fold_left Qplus xs 0%Q.

(** [min(a, b)] and [max(a, b)]: the first argument unless the second is
    strictly smaller (larger). *)
Definition py_min (a b : Q) : Q := if Qltb b a then b else a.
Definition py_max (a b : Q) : Q := if Qltb a b then b else a.

Section WithSetOrder2.
Variable so : set_order.

(** [response_phrases]: the key phrases of each response, by model. *)
Fixpoint response_phrases_from (d : list (string * list string))
    (rs : list ModelResponse.t) : res (list (string * list string)) :=
  match rs with
  | [] => Ok d
  | r :: rest =>
      text <- response_or AttributeError r ;;
      response_phrases_from
        (dict_set d (ModelResponse.model r) (_extract_key_phrases so text)) rest
  end.

Definition extract_themes (self : SynthesisEngine) : res (list ExtractedTheme.t) :=
  match responses self with
  | [] => Ok []
  | _ =>
      response_phrases <- response_phrases_from [] (responses self) ;;
      themes <- themes_of self (phrase_models_of response_phrases) ;;
      Ok (firstn 10 (sort_by Qneg_key Qle_bool themes))
  end.

Definition calculate_consensus (self : SynthesisEngine) : res Q :=
  if List.length (responses self) <? 2 then Ok 1%Q
  else
    themes <- extract_themes self ;;
    conflicts <- detect_conflicts self ;;
    let theme_score :=
      (py_sum (map ExtractedTheme.confidence themes)
       / inject_Z (Z.of_nat (Nat.max (List.length themes) 1)))%Q in
    let conflict_penalty :=
      (inject_Z (Z.of_nat (List.length conflicts)) * (1 # 10))%Q in
    Ok (py_max 0 (py_min 1 (theme_score - conflict_penalty)))%Q.

(** [now] is the reading of [datetime.now().isoformat()] that the result's
    [timestamp] default takes. *)
Definition synthesize (self : SynthesisEngine) (question now : string)
  : res SynthesisResult.t :=
  themes <- extract_themes self ;;
  conflicts <- detect_conflicts self ;;
  actions <- extract_actions so self ;;
  let domain_coverage :=
    fold_left (fun d r => dict_count d (ModelResponse.domain r)) (responses self) [] in
  consensus_score <- calculate_consensus self ;;
  Ok (SynthesisResult.make question themes conflicts actions domain_coverage
        consensus_score
        (List.length (responses self)
         + List.length (filter (fun r => negb (is_success r)) (responses self)))
        (List.length (responses self))
        now).
End WithSetOrder2.

(** One enumeration order for [list(set(xs))]: first occurrences, in order. *)
Fixpoint first_occurrences (seen xs : list string) : list string :=
  match xs with
  | [] => []
  | x :: xs' =>
      if Py.mem x seen then first_occurrences seen xs'
      else x :: first_occurrences (x :: seen) xs'
  end.

(** ** Expert registry *)

(** One entry of [MODELS]; [color], which only the console output reads, is
    left out. *)
Module Config.
Record t : Type := make {
  domain : string;
  weight : Q;
  timeout : Z;
  description : string
}.
End Config.

Definition MODELS : list (string * Config.t) :=
  [("unified-systems-architect",
    Config.make "meta" (25 # 100) 180 "Cross-domain synthesis, holistic analysis");
   ("llm-orchestration-ontology",
    Config.make "technical" (15 # 100) 120 "Multi-agent systems, orchestration patterns");
   ("prompt-engineering-expert",
    Config.make "technical" (15 # 100) 120 "Prompt design, debugging, optimization");
   ("kg-traversal-expert",
    Config.make "technical" (10 # 100) 120 "Knowledge graphs, SPARQL, Cypher");
   ("app-architecture-expert",
    Config.make "technical" (15 # 100) 120 "Web architecture, SSR, SPA, microservices");
   ("performance-percentiles-expert",
    Config.make "technical" (15 # 100) 120 "p50/p95/p99, SLOs, error budgets");
   ("wealth-mindset",
    Config.make "wealth" (10 # 100) 90 "Leverage, ownership thinking");
   ("passive-income-expert",
    Config.make "wealth" (15 # 100) 90 "Income streams, investment strategies");
   ("real-estate-investor",
    Config.make "wealth" (15 # 100) 90 "BRRRR, financing, rental properties");
   ("deal-structuring-expert",
    Config.make "wealth" (15 # 100) 90 "M&A, acquisitions, deal financing");
   ("business-tax-2026",
    Config.make "tax" (15 # 100) 90 "Current tax laws, OBBBA provisions");
   ("cpa-wealth-advisor",
    Config.make "tax" (15 # 100) 90 "Business owner optimization, retirement");
   ("homeowner-tax-strategies",
    Config.make "tax" (10 # 100) 90 "Deductions, 1031 exchanges, depreciation");
   ("ngo-corporate-structures",
    Config.make "tax" (10 # 100) 90 "Nonprofit structures, 501c3/c4");
   ("skill-stack-expert",
    Config.make "personal" (15 # 100) 90 "Power skill stacks for career acceleration");
   ("skill-stacker",
    Config.make "personal" (10 # 100) 90 "Skill development strategy");
   ("productivity-systems-expert",
    Config.make "personal" (15 # 100) 90 "Time management, focus, GTD");
   ("world-model-expert",
    Config.make "personal" (15 # 100) 90 "Mental models, systems thinking");
   ("english-to-spanish",
    Config.make "utility" (5 # 100) 60 "Translation")].

(** ** The HTTP collaborator

    What [session.post], [resp.text()] and [resp.json()] of aiohttp can do,
    as far as [query_model] tells the cases apart. *)

(** The ["response"] member of a JSON object, as [data.get("response", "")]
    finds it.  A member of another JSON kind (a number, a list, ...) would
    put a value that is not a string into [ModelResponse.response], against
    its declared type; such bodies are not modelled. *)
Inductive json_member : Type :=
| MemberMissing
| MemberNull
| MemberString (s : string).

Inductive json_result : Type :=
| JsonObject (response_member : json_member)
    (** a JSON object *)
| JsonNotObject
    (** JSON of another kind, or an empty body: [data.get] has no meaning *)
| JsonInvalid
    (** the body is not JSON: [json.JSONDecodeError] *)
| JsonUndecodable
    (** the bytes of the body are no text in its charset:
        [UnicodeDecodeError] *)
| JsonContentType (msg : string)
    (** not served as JSON: [aiohttp.ContentTypeError], a [ClientError] *).

(** [text] is what [await resp.text()] gives: the body as a [str], or
    [None] when its bytes are no text in the charset of the response, where
    the call raises [UnicodeDecodeError]. *)
Module ClientResponse.
Record t : Type := make {
  status : Z;
  text : option string;
  json : json_result
}.
End ClientResponse.

Inductive reply : Type :=
| Refuses (msg : string)            (** [aiohttp.ClientError], [str(e) = msg] *)
| Responds (resp : ClientResponse.t).

(** How the exchange behind a model name goes for a prompt: the request
    leaves when the clock of the event loop reads [sent_ms] milliseconds,
    and [latency_ms] milliseconds later the server has delivered [answer]. *)
Record endpoint : Type := { sent_ms : Z; latency_ms : Z; answer : reply }.

Definition network : Type := string -> string -> endpoint.

Inductive post_result : Type :=
| PostTimeoutError
| PostClientError (msg : string)
| PostResponse (resp : ClientResponse.t).

(** [ceil(when)] for a time of the loop clock in milliseconds: the next
    whole second. *)
Definition ceil_second (ms : Z) : Z := ((ms + 999) / 1000 * 1000)%Z.

(** The timer that aiohttp arms for [ClientTimeout(total=t)], [t] in
    seconds, when the loop clock reads [now] milliseconds: none for
    [t <= 0]; otherwise it is due at [now + t], moved up to the next whole
    second of the clock when [t] reaches the [ceil_threshold] of 5 seconds. *)
Definition deadline (now total : Z) : option Z :=
  if (total <=? 0)%Z then None
  else let when := (now + total * 1000)%Z in
       Some (if (5 <=? total)%Z then ceil_second when else when).

(** [session.post(..., timeout=ClientTimeout(total=t))]:
    [asyncio.TimeoutError] when the timer is due before the answer is
    there.  The second component is the elapsed time in milliseconds. *)
Definition session_post (net : network) (name prompt : string) (total : Z)
  : post_result * Z :=
  let ep := net name prompt in
  let delivered :=
    match answer ep with
    | Refuses msg => (PostClientError msg, latency_ms ep)
    | Responds resp => (PostResponse resp, latency_ms ep)
    end in
  match deadline (sent_ms ep) total with
  | Some when =>
      if (when <? sent_ms ep + latency_ms ep)%Z
      then (PostTimeoutError, (when - sent_ms ep)%Z)
      else delivered
  | None => delivered
  end.

(** What a call leaves behind: the callbacks it ran and the requests it sent. *)
Inductive event : Type :=
| OnStart (name : string)
| Post (name prompt : string) (total : Z)
| OnComplete (result : ModelResponse.t).

(** [ui] tells whether [on_start] and [on_complete] are given. *)
Definition query_model (net : network) (ui : bool) (name prompt : string)
    (config : Config.t) : list event * res ModelResponse.t :=
  let sent := (if ui then [OnStart name] else [])
              ++ [Post name prompt (Config.timeout config)] in
  let finish (result : ModelResponse.t) :=
    (sent ++ (if ui then [OnComplete result] else []), Ok result) in
  let '(outcome, elapsed) := session_post net name prompt (Config.timeout config) in
  let failed (st : string) (msg : string) :=
    finish (ModelResponse.make name (Config.domain config) None (Config.weight config)
              elapsed st (Some msg)) in
  match outcome with
  | PostTimeoutError =>
      failed "timeout" ("Timeout after " ++ Py.str_int (Config.timeout config) ++ "s")%string
  | PostClientError msg => failed "error" msg
  | PostResponse resp =>
      if negb (ClientResponse.status resp =? 200)%Z then
        match ClientResponse.text resp with
        | Some error_text =>
            failed "error" ("HTTP " ++ Py.str_int (ClientResponse.status resp) ++ ": "
                            ++ Py.slice_to 100 error_text)%string
        | None => (sent, Raise UnicodeDecodeError)
        end
      else
        match ClientResponse.json resp with
        | JsonObject member =>
            finish (ModelResponse.make name (Config.domain config)
                      (match member with
                       | MemberString s => Some s
                       | MemberNull => None
                       | MemberMissing => Some EmptyString
                       end)
                      (Config.weight config) elapsed "success" None)
        | JsonNotObject => (sent, Raise AttributeError)
        | JsonInvalid => (sent, Raise JSONDecodeError)
        | JsonUndecodable => (sent, Raise UnicodeDecodeError)
        | JsonContentType msg => failed "error" msg
        end
  end.

(** ** The result heap

    [heapq] is taken by its contract: the heap holds a bag of entries and
    [heappop] removes the least one.  An entry is the tuple
    [(-result.weight, result.model, result)]; tuples are compared on the
    first component in which they differ.  The third component is reached
    only by two entries of equal weight and equal model name, which the keys
    of one [dict] never are. *)

Definition entry : Type := (Q * string * ModelResponse.t)%type.

Definition entry_of (result : ModelResponse.t) : entry :=
  ((- ModelResponse.weight result)%Q, ModelResponse.model result, result).

Definition entry_ltb (a b : entry) : bool :=
  let '(wa, na, _) := a in
  let '(wb, nb, _) := b in
  if Qeq_bool wa wb then String.ltb na nb else Qltb wa wb.

Definition heappush (heap : list entry) (e : entry) : list entry := e :: heap.

(** The least entry among [x] and [l], and the others. *)
Fixpoint select (x : entry) (l : list entry) : entry * list entry :=
  match l with
  | [] => (x, [])
  | y :: l' =>
      if entry_ltb y x
      then let '(m, others) := select y l' in (m, x :: others)
      else let '(m, others) := select x l' in (m, y :: others)
  end.

Definition heappop (heap : list entry) : option (entry * list entry) :=
  match heap with
  | [] => None
  | x :: l => Some (select x l)
  end.

(** [while results_heap: ... heappop ...], at most [fuel] times. *)
Fixpoint drain (fuel : nat) (heap : list entry) : list ModelResponse.t :=
  match fuel with
  | O => []
  | S fuel' =>
      match heappop heap with
      | None => []
      | Some ((_, _, result), heap') => result :: drain fuel' heap'
      end
  end.

(** Lines 1036 to 1048 of [consult]: push the results in the order in which
    they complete, then pop until the heap is empty. *)
Definition collect (completed : list ModelResponse.t) : list ModelResponse.t :=
  let results_heap := fold_left (fun h r => heappush h (entry_of r)) completed [] in
  drain (List.length results_heap) results_heap.

(** ** consult *)

Definition task : Type := (string * Config.t)%type.

(** The order in which the event loop completes the calls it was given. *)
Record scheduler : Type := {
  completion : list task -> list task;
  completion_perm : forall tasks, Permutation (completion tasks) tasks
}.

Inductive run (A : Type) : Type :=
| Returns (a : A)
| Raises (e : exn)
| Hangs.
Arguments Returns {A} a.
Arguments Raises {A} e.
Arguments Hangs {A}.

(** [await coro] for each call in completion order; the first exception
    leaves [consult]. *)
Fixpoint await_all (net : network) (ui : bool) (question : string)
    (order : list task) : res (list ModelResponse.t) :=
  match order with
  | [] => Ok []
  | (name, config) :: rest =>
      result <- snd (query_model net ui name question config) ;;
      results <- await_all net ui question rest ;;
      Ok (result :: results)
  end.

(** [asyncio.Semaphore(n)] refuses a negative [n]; with [n = 0] no call is
    ever admitted. *)
Definition consult (net : network) (sched : scheduler) (question : string)
    (models : list task) (ui : bool) (max_concurrent : Z)
  : run (list ModelResponse.t) :=
  if (max_concurrent <? 0)%Z then Raises ValueError
  else match models with
       | [] => Returns []
       | _ =>
           if (max_concurrent =? 0)%Z then Hangs
           else match await_all net ui question (completion sched models) with
                | Ok completed => Returns (collect completed)
                | Raise e => Raises e
                end
       end.

(** ** The admission gate

    [bounded_query] is [async with semaphore: return await query_model(...)].
    A call is waiting until it is admitted, then in flight until its
    [query_model] ends, by a result or by an exception; leaving the
    [async with] gives the slot back. *)

Record gate : Type := {
  value : nat;
  waiting : list task;
  in_flight : list task;
  finished : list task
}.

Definition gate_init (max_concurrent : nat) (tasks : list task) : gate :=
  {| value := max_concurrent; waiting := tasks; in_flight := []; finished := [] |}.

Inductive gate_step : gate -> gate -> Prop :=
| step_acquire : forall v w1 t w2 fl done,
    gate_step {| value := S v; waiting := w1 ++ t :: w2; in_flight := fl;
                 finished := done |}
              {| value := v; waiting := w1 ++ w2; in_flight := t :: fl;
                 finished := done |}
| step_release : forall v w f1 t f2 done,
    gate_step {| value := v; waiting := w; in_flight := f1 ++ t :: f2;
                 finished := done |}
              {| value := S v; waiting := w; in_flight := f1 ++ f2;
                 finished := done ++ [t] |}.

Inductive gate_reach (g0 : gate) : gate -> Prop :=
| reach_here : gate_reach g0 g0
| reach_step : forall g g', gate_reach g0 g -> gate_step g g' -> gate_reach g0 g'.

Definition gate_final (g : gate) : Prop := waiting g = [] /\ in_flight g = [].

(** ** Domain routing *)

Definition DOMAIN_KEYWORDS : list (string * list string) :=
  [("technical", ["architecture"; "design"; "pattern"; "api"; "code"; "performance";
                  "latency"; "llm"; "prompt"; "model"; "graph"; "microservice"; "async"]);
   ("wealth", ["invest"; "passive"; "income"; "rental"; "property"; "deal"; "acquisition";
               "leverage"; "wealth"; "portfolio"; "cash flow"]);
   ("tax", ["tax"; "deduction"; "1031"; "s-corp"; "llc"; "depreciation"; "501c3";
            "nonprofit"; "compliance"; "cpa"]);
   ("personal", ["skill"; "career"; "productivity"; "time"; "focus"; "learning";
                 "mental model"; "systems thinking"]);
   ("utility", ["translate"; "spanish"; "language"])].

(** [s.add(x)] on a set of strings, kept as a list without repetition; the
    code only asks such a set whether it is empty, how many members it has
    and whether a string is in it. *)
Definition set_add (x : string) (s : list string) : list string :=
  if Py.mem x s then s else s ++ [x].

Definition detect_domains (question : string) : list string :=
  let question_lower := Py.lower question in
  let detected :=
    fold_left (fun detected '(domain, keywords) =>
                 if existsb (fun keyword => Py.contains keyword question_lower) keywords
                 then set_add domain detected else detected)
              DOMAIN_KEYWORDS [] in
  let detected :=
    if (1 <? List.length detected) || (20 <? List.length (Py.split question))
    then set_add "meta" detected else detected in
  match detected with
  | [] => set_add "meta" (set_add "technical" [])
  | _ => detected
  end.

(** [l[:n]] for an integer [n]: a negative [n] counts from the end. *)
Definition slice_list_to {A : Type} (n : Z) (l : list A) : list A :=
  if (0 <=? n)%Z then firstn (Z.to_nat n) l
  else firstn (List.length l - Z.to_nat (- n)) l.

(** [dict(items)]: a later pair of a key replaces the value at the key's
    place. *)
Definition dict_of {V : Type} (items : list (string * V)) : list (string * V) :=
  fold_left (fun d '(k, v) => dict_set d k v) items [].

Definition select_models (domains : list string) (max_models : Z) : list task :=
  let selected :=
    fold_left (fun selected '(name, config) =>
                 if Py.mem (Config.domain config) domains
                 then dict_set selected name config else selected)
              MODELS [] in
  let sorted_models :=
    sort_by (fun x : task => (- Config.weight (snd x))%Q) Qle_bool selected in
  dict_of (slice_list_to max_models sorted_models).

(** ** Feedback capture

    [FeedbackCapture] keeps two files.  [feedback_log.jsonl] holds one JSON
    text per line; a line is read by [json.loads] into an object, into JSON
    of another kind, or not at all, and the last line may lack its newline.
    [model_stats.json], when it exists, holds whatever text was left there:
    the object that [_update_model_stats] writes, other JSON, or no JSON.
    What [json.dumps] writes, [json.loads] reads back. *)

(** [d.get(k)] *)
Fixpoint lookup {V : Type} (k : string) (d : list (string * V)) : option V :=
  match d with
  | [] => None
  | (k', v) :: d' => if String.eqb k k' then Some v else lookup k d'
  end.

Module Feedback.

(** The values of an entry's members: [None], a [bool], a [str], a list of
    [str], or JSON of another kind. *)
Inductive value : Type :=
| VNone
| VBool (b : bool)
| VStr (s : string)
| VList (l : list string)
| VOther.

Definition entry : Type := list (string * value).

(** What [json.loads(line)] gives. *)
Inductive json : Type :=
| JObject (e : entry)
| JOther.

Inductive line : Type :=
| Line (j : json)
| Garbled.

(** How the text of the log ends, which its lines do not show: with the
    newline of its last line, or in a last line that has no newline yet;
    [blank] tells whether such a line, when it is not JSON, is only white
    space. *)
Inductive ending : Type :=
| Newline
| Open (blank : bool).

(** What [json.loads] gives for the statistics file.  A member of a model's
    table is an [int], a [bool], a [float], whose value is not followed, or
    a value that has no [+= 1]; a table is a JSON object or JSON of another
    kind, and so is the whole file. *)
Inductive member : Type :=
| MInt (n : Z)
| MBool (b : bool)
| MFloat
| MOther.

Inductive table : Type :=
| TObject (members : list (string * member))
| TOther.

Inductive stats_json : Type :=
| SObject (tables : list (string * table))
| SOther.

(** The text of the statistics file. *)
Inductive stats_text : Type :=
| StatsJson (j : stats_json)
| StatsNotJson      (** no JSON, as an empty file is: [json.JSONDecodeError] *)
| StatsNotText      (** bytes that [read_text] cannot decode:
                        [UnicodeDecodeError] *).

(** The two files; [None] when the file does not exist. *)
Record files : Type := {
  feedback_file : option (list line);
  stats_file : option stats_text
}.

(** [json.loads(line)] *)
Definition loads (l : line) : res json :=
  match l with
  | Line j => Ok j
  | Garbled => Raise JSONDecodeError
  end.

(** [json.dumps(entry) + "\n"] *)
Definition dumps (e : entry) : line := Line (JObject e).

(** [entry.get(k)] *)
Definition get (e : entry) (k : string) : value :=
  match lookup k e with
  | Some v => v
  | None => VNone
  end.

(** [entry.update(updates)] *)
Definition update (e updates : entry) : entry :=
  fold_left (fun e '(k, v) => dict_set e k v) updates e.

(** [asdict(FeedbackEntry(query_hash, question, models_used))] *)
Definition FeedbackEntry (query_hash question : string) (models_used : list string)
    (timestamp : string) : entry :=
  [("query_hash", VStr query_hash);
   ("question", VStr question);
   ("models_used", VList models_used);
   ("synthesis_helpful", VNone);
   ("best_model", VNone);
   ("worst_model", VNone);
   ("action_taken", VNone);
   ("user_notes", VNone);
   ("timestamp", VStr timestamp)].

(** [open(self.feedback_file, "a")] makes the file when it is not there,
    and the text is written where the file ends.  After a last line without
    a newline the two make one line: a JSON line followed by the entry is
    no JSON, and text that is no JSON followed by the entry is JSON, the
    entry, only when that text is white space.  An empty file has no last
    line. *)
Definition _append_feedback (tail : ending) (self : files) (e : entry) : files :=
  let lines := match feedback_file self with
               | Some lines => lines
               | None => []
               end in
  {| feedback_file :=
       Some (match tail, lines with
             | Newline, _ | Open _, [] => lines ++ [dumps e]
             | Open blank, _ :: _ =>
                 removelast lines
                 ++ [match last lines Garbled with
                     | Line _ => Garbled
                     | Garbled => if blank then dumps e else Garbled
                     end]
             end);
     stats_file := stats_file self |}.

(** [digest] is [hashlib.sha256(...).hexdigest()]; [now] and [timestamp] are
    the two readings of [datetime.now().isoformat()]. *)
Definition log_query (digest : string -> string) (tail : ending) (self : files)
    (question : string) (models : list string) (now timestamp : string)
  : files * string :=
  let query_hash := Py.slice_to 12 (digest (question ++ now)%string) in
  let e := FeedbackEntry query_hash question models timestamp in
  (_append_feedback tail self e, query_hash).

(** [v == s] for a [str] [s] *)
Definition is_str (v : value) (s : string) : bool :=
  match v with
  | VStr s' => String.eqb s' s
  | _ => false
  end.

(** A line that is JSON but no object has no [get]: [AttributeError]. *)
Definition _update_feedback (self : files) (query_hash : string) (updates : entry)
  : res files :=
  match feedback_file self with
  | None => Ok self
  | Some lines =>
      entries <- mapM (fun l =>
                   j <- loads l ;;
                   match j with
                   | JObject e =>
                       Ok (if is_str (get e "query_hash") query_hash
                           then update e updates else e)
                   | JOther => Raise AttributeError
                   end) lines ;;
      Ok {| feedback_file := Some (map dumps entries);
            stats_file := stats_file self |}
  end.

(** [json.loads(self.stats_file.read_text())], or [{}] without a file. *)
Definition get_model_stats (self : files) : res stats_json :=
  match stats_file self with
  | None => Ok (SObject [])
  | Some (StatsJson j) => Ok j
  | Some StatsNotJson => Raise JSONDecodeError
  | Some StatsNotText => Raise UnicodeDecodeError
  end.

(** [{"positive": 0, "negative": 0, "total": 0}] *)
Definition no_ratings : table :=
  TObject [("positive", MInt 0); ("negative", MInt 0); ("total", MInt 0)].

(** [members[field] += 1]: [KeyError] without the member, [TypeError] on a
    member that is no number; [True + 1] is [2]. *)
Definition increment (members : list (string * member)) (field : string)
  : res (list (string * member)) :=
  match lookup field members with
  | None => Raise KeyError
  | Some (MInt n) => Ok (dict_set members field (MInt (n + 1)))
  | Some (MBool b) => Ok (dict_set members field (MInt (Z.b2z b + 1)))
  | Some MFloat => Ok (dict_set members field MFloat)
  | Some MOther => Raise TypeError
  end.

(** On JSON that is no object, [model not in stats] or one of the two
    subscriptions [stats[model]] that follow it raises [TypeError]; so does
    [stats[model]["total"]] on a table that is no object.  The file is
    written last, after everything that can raise. *)
Definition _update_model_stats (self : files) (model : string) (is_positive : bool)
  : res files :=
  stats <- get_model_stats self ;;
  match stats with
  | SOther => Raise TypeError
  | SObject tables =>
      let tables :=
        if Py.mem model (keys tables) then tables
        else dict_set tables model no_ratings in
      match lookup model tables with
      | None => Raise KeyError
      | Some TOther => Raise TypeError
      | Some (TObject members) =>
          members <- increment members "total" ;;
          members <- increment members (if is_positive then "positive" else "negative") ;;
          Ok {| feedback_file := feedback_file self;
                stats_file :=
                  Some (StatsJson (SObject (dict_set tables model (TObject members)))) |}
      end
  end.

Definition rate_synthesis (self : files) (query_hash : string) (helpful : bool)
  : res files :=
  _update_feedback self query_hash [("synthesis_helpful", VBool helpful)].

Definition rate_model (self : files) (query_hash model : string) (is_best : bool)
  : res files :=
  let key := if is_best then "best_model" else "worst_model" in
  self <- _update_feedback self query_hash [(key, VStr model)] ;;
  _update_model_stats self model is_best.

Definition log_action (self : files) (query_hash action : string) : res files :=
  _update_feedback self query_hash [("action_taken", VStr action)].

Definition add_notes (self : files) (query_hash notes : string) : res files :=
  _update_feedback self query_hash [("user_notes", VStr notes)].

(** [l[start:]] for an integer [start]: a negative [start] counts from the
    end, and no further than the beginning. *)
Definition slice_from {A : Type} (start : Z) (l : list A) : list A :=
  if (start <? 0)%Z
  then skipn (List.length l - Z.to_nat (- start)) l
  else skipn (Z.to_nat start) l.

Definition get_recent_feedback (self : files) (limit : Z) : res (list json) :=
  entries <- match feedback_file self with
             | Some lines => mapM loads lines
             | None => Ok []
             end ;;
  Ok (slice_from (- limit) entries).

End Feedback.

(** * The HTTP API

    [src/api/server.py]: the FastAPI service that runs the models as
    [ollama run] processes.  [subprocess.run] is taken by its contract: the
    call ends by a completed process, by [TimeoutExpired], or by another
    exception (such as [FileNotFoundError] when there is no [ollama]); the
    readings of [time.time()] come with it as the elapsed milliseconds. *)

Module Server.

Module Info.
Record t : Type := make {
  domain : string;
  color : string;
  description : string;
  priority : option Z
}.
End Info.

Definition MODELS : list (string * Info.t) :=
  [("unified-systems-architect",
    Info.make "meta" "#f97316"
      "Meta-expert synthesizing all domains" (Some 1%Z));
   ("llm-orchestration-ontology",
    Info.make "technical" "#3b82f6"
      "LLM orchestration patterns, multi-agent systems" None);
   ("prompt-engineering-expert",
    Info.make "technical" "#3b82f6"
      "Prompting techniques, debugging, optimization" None);
   ("kg-traversal-expert",
    Info.make "technical" "#3b82f6"
      "Knowledge graph algorithms, SPARQL, Cypher" None);
   ("app-architecture-expert",
    Info.make "technical" "#3b82f6"
      "Web architecture patterns, SSR, SPA, microservices" None);
   ("performance-percentiles-expert",
    Info.make "technical" "#3b82f6"
      "p50/p95/p99 metrics, SLOs, error budgets" None);
   ("wealth-mindset",
    Info.make "wealth" "#22c55e"
      "Wealth thinking, leverage, ownership mindset" None);
   ("passive-income-expert",
    Info.make "wealth" "#22c55e"
      "Passive income streams, investment strategies" None);
   ("real-estate-investor",
    Info.make "wealth" "#22c55e"
      "Real estate strategies, BRRRR, financing" None);
   ("deal-structuring-expert",
    Info.make "wealth" "#22c55e"
      "M&A, acquisitions, deal financing" None);
   ("business-tax-2026",
    Info.make "tax" "#a855f7"
      "2026 tax laws, OBBBA provisions, compliance" None);
   ("cpa-wealth-advisor",
    Info.make "tax" "#a855f7"
      "Business owner tax optimization, retirement" None);
   ("homeowner-tax-strategies",
    Info.make "tax" "#a855f7"
      "Homeowner deductions, 1031 exchanges, depreciation" None);
   ("ngo-corporate-structures",
    Info.make "tax" "#a855f7"
      "Nonprofit structures, 501c3/c4, beneficial ownership" None);
   ("skill-stack-expert",
    Info.make "personal" "#ec4899"
      "8 power skill stacks for career acceleration" None);
   ("skill-stacker",
    Info.make "personal" "#ec4899"
      "Skill development strategy, rare combinations" None);
   ("productivity-systems-expert",
    Info.make "personal" "#ec4899"
      "Time management, focus systems, GTD" None);
   ("world-model-expert",
    Info.make "personal" "#ec4899"
      "Mental models, systems thinking, Bayesian reasoning" None);
   ("english-to-spanish",
    Info.make "utility" "#64748b"
      "English to Spanish translation" None)].

Module QueryRequest.
Record t : Type := make {
  prompt : string;
  models : option (list string);
  timeout : option Z
}.
End QueryRequest.

Module ModelResponse.
Record t : Type := make {
  model : string;
  domain : string;
  color : string;
  description : string;
  response : option string;
  error : option string;
  duration_ms : Z;
  status : string
}.
End ModelResponse.

Module QueryResponse.
Record t : Type := make {
  prompt : string;
  total_duration_ms : Z;
  models_queried : nat;
  models_succeeded : nat;
  responses : list ModelResponse.t
}.
End QueryResponse.

(** What [subprocess.run(..., capture_output=True, text=True)] gives. *)
Record CompletedProcess : Type := {
  returncode : Z;
  stdout : string;
  stderr : string
}.

(** The exceptions of the [try] block: [subprocess.TimeoutExpired], or any
    other [Exception] [e], kept as [str(e)]. *)
Inductive raised : Type :=
| TimeoutExpired
| OtherException (message : string).

Inductive outcome : Type :=
| Completes (result : CompletedProcess)
| Throws (e : raised).

(** One run of [ollama run model_name] on the prompt under the timeout, and
    the milliseconds from [start_time] to the reading of the clock after it. *)
Record process : Type := {
  outcome_of : outcome;
  elapsed_ms : Z
}.

Definition subprocess : Type := string -> string -> option Z -> process.

(** A call that returns or lets an exception escape. *)
Inductive attempt (A : Type) : Type :=
| Returned (a : A)
| Escaped (message : string).
Arguments Returned {A} a.
Arguments Escaped {A} message.

(** [model_info.get(field, default)] on [MODELS.get(model_name, {})] *)
Definition info_get (model_info : option Info.t) (field : Info.t -> string)
    (default : string) : string :=
  match model_info with
  | Some info => field info
  | None => default
  end.

(** [f"{timeout}"] *)
Definition str_timeout (timeout : option Z) : string :=
  match timeout with
  | Some n => Py.str_int n
  | None => "None"
  end.

Definition query_ollama_model (run : subprocess) (model_name prompt : string)
    (timeout : option Z) : attempt ModelResponse.t :=
  let model_info := lookup model_name MODELS in
  let p := run model_name prompt timeout in
  let duration_ms := elapsed_ms p in
  match outcome_of p with
  | Completes result =>
      if (returncode result =? 0)%Z then
        Returned (ModelResponse.make model_name
                    (info_get model_info Info.domain "unknown")
                    (info_get model_info Info.color "#64748b")
                    (info_get model_info Info.description EmptyString)
                    (Some (Py.strip (stdout result)))
                    None
                    duration_ms
                    "success")
      else
        Returned (ModelResponse.make model_name
                    (info_get model_info Info.domain "unknown")
                    (info_get model_info Info.color "#64748b")
                    (info_get model_info Info.description EmptyString)
                    None
                    (Some (if Py.truthy (Py.strip (stderr result))
                           then Py.strip (stderr result) else "Unknown error"))
                    duration_ms
                    "error")
  | Throws TimeoutExpired =>
      Returned (ModelResponse.make model_name
                  (info_get model_info Info.domain "unknown")
                  (info_get model_info Info.color "#64748b")
                  (info_get model_info Info.description EmptyString)
                  None
                  (Some ("Timeout after " ++ str_timeout timeout ++ " seconds")%string)
                  duration_ms
                  "timeout")
  | Throws (OtherException message) =>
      Returned (ModelResponse.make model_name
                  (info_get model_info Info.domain "unknown")
                  (info_get model_info Info.color "#64748b")
                  (info_get model_info Info.description EmptyString)
                  None
                  (Some message)
                  duration_ms
                  "error")
  end.

(** The [detail] of an [HTTPException], before it is formatted. *)
Inductive detail : Type :=
| InvalidModelNames (invalid_models : list string)
| ModelNotFound (model_name : string) (available : list string).

(** How a request handler ends without a response: by an [HTTPException],
    or by another exception, kept as its message. *)
Inductive failure : Type :=
| HTTPException (status_code : Z) (why : detail)
| Uncaught (message : string).

Inductive reply (A : Type) : Type :=
| Respond (a : A)
| Fail (f : failure).
Arguments Respond {A} a.
Arguments Fail {A} f.

(** [request.models if request.models else list(MODELS.keys())] *)
Definition models_to_query (request : QueryRequest.t) : list string :=
  match QueryRequest.models request with
  | Some (m :: ms) => m :: ms
  | _ => keys MODELS
  end.

Definition domain_order : list (string * nat) :=
  [("meta", 0); ("technical", 1); ("wealth", 2); ("tax", 3); ("personal", 4);
   ("utility", 5)].

(** [(domain_order.get(r["domain"], 99), r["model"])] *)
Definition sort_key (r : ModelResponse.t) : nat * string :=
  (match lookup (ModelResponse.domain r) domain_order with
   | Some n => n
   | None => 99
   end,
   ModelResponse.model r).

(** [a < b] on tuples of an [int] and a [str]. *)
Definition tuple_ltb (a b : nat * string) : bool :=
  (fst a <? fst b) || ((fst a =? fst b) && String.ltb (snd a) (snd b)).

(** The order of [list.sort]: [a] stays before [b] unless [b < a]. *)
Definition tuple_leb (a b : nat * string) : bool := negb (tuple_ltb b a).

(** [for future in futures]: the results in the order of submission.  The
    [i]-th submitted call runs the process [env i]. *)
Definition gather (env : nat -> subprocess) (request : QueryRequest.t)
    (submitted : list (nat * string)) : list ModelResponse.t :=
  map (fun '(i, model) =>
         match query_ollama_model (env i) model (QueryRequest.prompt request)
                                  (QueryRequest.timeout request) with
         | Returned result => result
         | Escaped message =>
             let model_info := lookup model MODELS in
             ModelResponse.make model
               (info_get model_info Info.domain "unknown")
               (info_get model_info Info.color "#64748b")
               (info_get model_info Info.description EmptyString)
               None
               (Some message)
               0
               "error"
         end)
      submitted.

(** [total_ms] is the reading of the clock for [total_duration_ms].
    [ThreadPoolExecutor] refuses [max_workers <= 0] by a [ValueError]. *)
Definition query_models (env : nat -> subprocess) (total_ms : Z)
    (request : QueryRequest.t) : reply QueryResponse.t :=
  let models_to_query := models_to_query request in
  let invalid_models :=
    filter (fun m => negb (Py.mem m (keys MODELS))) models_to_query in
  match invalid_models with
  | _ :: _ => Fail (HTTPException 400 (InvalidModelNames invalid_models))
  | [] =>
      if Nat.min (List.length models_to_query) 8 <=? 0
      then Fail (Uncaught "max_workers must be greater than 0")
      else
        let responses :=
          gather env request
                 (combine (seq 0 (List.length models_to_query)) models_to_query) in
        let responses := sort_by sort_key tuple_leb responses in
        let models_succeeded :=
          List.length (filter (fun r => String.eqb (ModelResponse.status r) "success")
                              responses) in
        Respond (QueryResponse.make (QueryRequest.prompt request) total_ms
                   (List.length models_to_query) models_succeeded responses)
  end.

Definition query_single_model (run : subprocess) (model_name : string)
    (request : QueryRequest.t) : reply ModelResponse.t :=
  if negb (Py.mem model_name (keys MODELS))
  then Fail (HTTPException 404 (ModelNotFound model_name (keys MODELS)))
  else match query_ollama_model run model_name (QueryRequest.prompt request)
                                (QueryRequest.timeout request) with
       | Returned result => Respond result
       | Escaped message => Fail (Uncaught message)
       end.

End Server.

(** * Vocabulary of the statements *)

(** ** Predicates *)

(** The test of [add_responses]: status ["success"] and a response that is
    neither [None] nor empty. *)
Definition kept (r : ModelResponse.t) : bool :=
  is_success r && truthy_opt (ModelResponse.response r).

(** Every character of [s] is whitespace. *)
Fixpoint all_space (s : string) : bool :=
  match s with
  | EmptyString => true
  | String c rest => Py.is_space c && all_space rest
  end.

(** [w] is not empty and does not start with whitespace. *)
Definition starts_nonspace (w : string) : Prop :=
  match w with
  | EmptyString => False
  | String c _ => Py.is_space c = false
  end.

(** A phrase has words: [phrase.lower().split()] is not empty. *)
Definition has_words (phrase : string) : Prop := Py.split (Py.lower phrase) <> [].

(** Every entry of [phrase_models] lists distinct models, all among [seen],
    for a phrase that has words. *)
Definition supported_within (seen : list string) (kv : string * list string) : Prop :=
  NoDup (snd kv) /\ has_words (fst kv) /\ incl (snd kv) seen.

(** An entry of [response_phrases]: distinct phrases, each with words. *)
Definition phrases_ok (kv : string * list string) : Prop :=
  NoDup (snd kv) /\ Forall has_words (snd kv).

(** [r.response] is a string. *)
Definition has_response (r : ModelResponse.t) : Prop :=
  ModelResponse.response r <> None.

(** What [extract_themes] builds from one entry of [phrase_models]. *)
Definition theme_ok (n : nat) (t : ExtractedTheme.t) : Prop :=
  NoDup (ExtractedTheme.supporting_models t)
  /\ 2 <= List.length (ExtractedTheme.supporting_models t)
  /\ ExtractedTheme.confidence t
     = (inject_Z (Z.of_nat (List.length (ExtractedTheme.supporting_models t)))
        / inject_Z (Z.of_nat n))%Q
  /\ List.length (ExtractedTheme.evidence t) <= 3
  /\ List.length (ExtractedTheme.supporting_models t) <= n.

(** [a] may stand before [b] in the output of [extract_themes]. *)
Definition by_descending_confidence (a b : ExtractedTheme.t) : Prop :=
  (ExtractedTheme.confidence b <= ExtractedTheme.confidence a)%Q.

(** The keys of [{m1: _, m2: _}]. *)
Definition pair_keys (m1 m2 : string) : list string :=
  if String.eqb m2 m1 then [m1] else [m1; m2].

(** The key under which [_dedupe_conflicts] files a conflict. *)
Definition pair_key (c : DetectedConflict.t) : list string :=
  Py.sorted (keys (DetectedConflict.positions c)).

(** Two conflicts name the same experts. *)
Definition same_experts (c1 c2 : DetectedConflict.t) : Prop :=
  forall m, In m (keys (DetectedConflict.positions c1))
            <-> In m (keys (DetectedConflict.positions c2)).

(** [l1] is [l2] with some members left out, the order kept. *)
Inductive subseq {A : Type} : list A -> list A -> Prop :=
| subseq_nil : subseq [] []
| subseq_skip : forall x l1 l2, subseq l1 l2 -> subseq l1 (x :: l2)
| subseq_keep : forall x l1 l2, subseq l1 l2 -> subseq (x :: l1) (x :: l2).

(** A conflict found between [r1] and [r2] names those two models. *)
Definition conflict_between (r1 r2 : ModelResponse.t) (c : DetectedConflict.t) : Prop :=
  keys (DetectedConflict.positions c)
  = pair_keys (ModelResponse.model r1) (ModelResponse.model r2).

(** A conflict found among [rs]: between some response and a later one. *)
Inductive conflict_among : list ModelResponse.t -> DetectedConflict.t -> Prop :=
| among_head : forall r1 r2 rest c,
    In r2 rest -> conflict_between r1 r2 c -> conflict_among (r1 :: rest) c
| among_tail : forall r1 rest c,
    conflict_among rest c -> conflict_among (r1 :: rest) c.

(** The score in the words of the specification: the mean confidence of the
    themes, less a tenth per conflict, clamped to the unit interval. *)
Definition clamp (x lo hi : Q) : Q :=
  if Qltb x lo then lo else if Qltb hi x then hi else x.

(** [themeScore]: the confidences summed, over [max(1, |themes|)]. *)
Definition spec_theme_score (themes : list ExtractedTheme.t) : Q :=
  (fold_right Qplus 0 (map ExtractedTheme.confidence themes)
   / inject_Z (Z.of_nat (Nat.max 1 (List.length themes))))%Q.

(** [clamp(themeScore - 0.1 * |conflicts|, 0, 1)] *)
Definition spec_consensus (themes : list ExtractedTheme.t)
    (conflicts : list DetectedConflict.t) : Q :=
  clamp (spec_theme_score themes
         - (1 # 10) * inject_Z (Z.of_nat (List.length conflicts)))%Q 0%Q 1%Q.

(** The part of a heap entry that decides its place: [(-weight, model)]. *)
Definition key_of (e : entry) : Q * string := fst e.

(** [a] sorts before [b]: on the first components, or on the second when
    the first are equal. *)
Definition key_lt (a b : Q * string) : Prop :=
  (fst a < fst b)%Q \/ ((fst a == fst b)%Q /\ String.ltb (snd a) (snd b) = true).

(** Entries in the order in which [heappop] returns them. *)
Definition not_after (a b : entry) : Prop := entry_ltb b a = false.

(** [r1] comes before [r2]: heavier first, and among equal weights the
    smaller model name first. *)
Definition precedes (r1 r2 : ModelResponse.t) : Prop :=
  (ModelResponse.weight r2 < ModelResponse.weight r1)%Q
  \/ ((ModelResponse.weight r1 == ModelResponse.weight r2)%Q
      /\ String.ltb (ModelResponse.model r1) (ModelResponse.model r2) = true).

(** The event is a request sent. *)
Definition is_post (e : event) : bool :=
  match e with
  | Post _ _ _ => true
  | _ => false
  end.

(** The requests a call sent. *)
Definition posts (log : list event) : list event := filter is_post log.

(** An endpoint whose body [query_model] cannot read as a JSON object. *)
Definition malformed (ep : endpoint) : Prop :=
  exists resp, answer ep = Responds resp
               /\ ClientResponse.status resp = 200%Z
               /\ (ClientResponse.json resp = JsonInvalid
                   \/ ClientResponse.json resp = JsonNotObject).

(** An endpoint whose answer [query_model] turns into a result: a refusal,
    a 200 whose body is a JSON object or is not served as JSON, or another
    status with a body that is text. *)
Definition readable (ep : endpoint) : Prop :=
  match answer ep with
  | Refuses _ => True
  | Responds resp =>
      if (ClientResponse.status resp =? 200)%Z
      then match ClientResponse.json resp with
           | JsonObject _ | JsonContentType _ => True
           | JsonNotObject | JsonInvalid | JsonUndecodable => False
           end
      else ClientResponse.text resp <> None
  end.

(** The timer of the call is due before the answer is there. *)
Definition overdue (ep : endpoint) (total : Z) : Prop :=
  match deadline (sent_ms ep) total with
  | Some when => (when < sent_ms ep + latency_ms ep)%Z
  | None => False
  end.

(** What every result of [query_model] looks like. *)
Definition result_for (name : string) (config : Config.t) (r : ModelResponse.t) : Prop :=
  ModelResponse.model r = name
  /\ ModelResponse.domain r = Config.domain config
  /\ ModelResponse.weight r = Config.weight config
  /\ ((ModelResponse.status r = "success" /\ ModelResponse.error r = None)
      \/ ((ModelResponse.status r = "error" \/ ModelResponse.status r = "timeout")
          /\ ModelResponse.response r = None /\ ModelResponse.error r <> None)).

(** The outcome of the call made for one task. *)
Definition result_of (net : network) (ui : bool) (question : string) (t : task)
  : res ModelResponse.t :=
  snd (query_model net ui (fst t) question (snd t)).

(** Slots free and slots taken add up to the cap, and no call is lost. *)
Definition gate_inv (k : nat) (tasks : list task) (g : gate) : Prop :=
  value g + List.length (in_flight g) = k
  /\ Permutation (waiting g ++ in_flight g ++ finished g) tasks.

(** ** Worked inputs *)

(** A successful result with the given response text. *)
Definition succeeded (name text : string) : ModelResponse.t :=
  ModelResponse.make name "technical" (Some text) (15 # 100) 1200 "success" None.

(** One expert timed out, one failed, one answered. *)
Definition one_of_three : list ModelResponse.t :=
  [ModelResponse.make "kg-traversal-expert" "technical" None (10 # 100) 120000
     "timeout" (Some "Timeout after 120s");
   ModelResponse.make "wealth-mindset" "wealth" None (10 # 100) 35
     "error" (Some "HTTP 500: overloaded");
   succeeded "app-architecture-expert" "You should start with a WAL for durability. Keep it small."].

(** Two kept responses of different models that share a sentence. *)
Definition two_agreeing : list ModelResponse.t :=
  [succeeded "skill-stacker" "We should cache the results. However, memory is tight.";
   succeeded "skill-stack-expert" "We should cache the results! It is cheap."].

(** A 200 answer whose JSON object has the given [response] member. *)
Definition answers (text : string) : reply :=
  Responds (ClientResponse.make 200 (Some "{response: ...}")
                                (JsonObject (MemberString text))).

(** One endpoint sends a page that is not JSON, with status 200. *)
Definition garbled_net : network :=
  fun name _ =>
    if String.eqb name "prompt-engineering-expert"
    then {| sent_ms := 52310; latency_ms := 40;
            answer := Responds (ClientResponse.make 200 (Some "<html>Bad Gateway</html>")
                                                    JsonInvalid) |}
    else {| sent_ms := 52310; latency_ms := 900;
            answer := answers "You should shard the log." |}.

(** No endpoint answers within three minutes. *)
Definition slow_net : network :=
  fun _ _ => {| sent_ms := 52310; latency_ms := 200000; answer := answers "Too late." |}.

(** Two of the registry's technical experts. *)
Definition two_technical : list task := firstn 2 (skipn 1 MODELS).

(** The registry's entry for [unified-systems-architect]. *)
Definition architect : Config.t :=
  Config.make "meta" (25 # 100) 180 "Cross-domain synthesis, holistic analysis".

(** The scheduler that completes the calls in the order they were made. *)
Definition in_submission_order : scheduler :=
  {| completion := fun tasks => tasks;
     completion_perm := fun tasks => Permutation_refl tasks |}.

(** The calls made for the first three experts of the registry. *)
Definition three_calls : list task := firstn 3 MODELS.

(** Two of three calls admitted under a cap of two. *)
Definition two_admitted : gate :=
  {| value := 0;
     waiting := skipn 2 three_calls;
     in_flight := rev (firstn 2 three_calls);
     finished := [] |}.

(** One enumeration order for [list(set(xs))], with the two facts that make
    it one: it lists every member, and none twice. *)
Definition first_seen_order : set_order.
Proof.
  assert (Hmem : forall x xs, Py.mem x xs = true <-> In x xs).
  { intros x xs. unfold Py.mem. rewrite existsb_exists. split.
    - intros [y [Hy Heq]]. apply String.eqb_eq in Heq. now subst.
    - intros H. exists x. split; [assumption | apply String.eqb_refl]. }
  assert (Hin : forall xs seen x,
            In x (first_occurrences seen xs) <-> In x xs /\ ~ In x seen).
  { induction xs as [|y ys IH]; intros seen x; simpl; [tauto|].
    destruct (Py.mem y seen) eqn:Hm.
    - apply Hmem in Hm. rewrite IH. split.
      + intros [H1 H2]. auto.
      + intros [[H1|H1] H2]; [subst; contradiction | auto].
    - assert (Hy : ~ In y seen) by (rewrite <- Hmem; congruence).
      simpl. rewrite IH. simpl. split.
      + intros [H|[H1 H2]]; [subst; auto | auto].
      + intros [[H1|H1] H2]; [auto|].
        destruct (string_dec y x); [auto|]. right. split; [assumption|].
        intros [H|H]; contradiction. }
  refine {| set_list := first_occurrences [] |}.
  - intros xs. generalize (@nil string).
    induction xs as [|y ys IH]; intros seen; simpl; [constructor|].
    destruct (Py.mem y seen); [apply IH|].
    constructor; [|apply IH].
    rewrite Hin. simpl. intros [_ H]. apply H. now left.
  - intros xs x. rewrite Hin. simpl. tauto.
Defined.

(** ** Predicates for domain routing *)

(** The domains with a keyword in the lowercased question, in the order of
    the table. *)
Definition hits (question : string) : list string :=
  map fst
      (filter (fun '(_, keywords) =>
                 existsb (fun keyword => Py.contains keyword (Py.lower question)) keywords)
              DOMAIN_KEYWORDS).

(** The names a domain can have. *)
Definition DOMAINS : list string :=
  ["technical"; "wealth"; "tax"; "personal"; "utility"; "meta"].

(** The candidates of [select_models]: the registry entries of the domains. *)
Definition candidates (domains : list string) : list task :=
  filter (fun t : task => Py.mem (Config.domain (snd t)) domains) MODELS.

(** [a] may stand before [b]: it weighs at least as much. *)
Definition heavier_first (a b : task) : Prop :=
  (Config.weight (snd b) <= Config.weight (snd a))%Q.

(** The entries of [l] that weigh [w], in their order. *)
Definition of_weight (w : Q) (l : list task) : list task :=
  filter (fun t : task => Qeq_bool (Config.weight (snd t)) w) l.

(** No string occurs twice, as a test. *)
Fixpoint distinctb (l : list string) : bool :=
  match l with
  | [] => true
  | x :: l' => negb (Py.mem x l') && distinctb l'
  end.

(** The sort key of [select_models]. *)
Definition by_weight (x : task) : Q := (- Config.weight (snd x))%Q.

(** ** Predicates for the report *)

(** The number of responses of a domain. *)
Definition count_domain (domain : string) (rs : list ModelResponse.t) : nat :=
  List.length (filter (fun r => String.eqb (ModelResponse.domain r) domain) rs).

(** [sum(d.values())] *)
Definition dict_total (d : list (string * nat)) : nat :=
  fold_right Nat.add 0 (values d).

(** ** Predicates for the actions *)

(** The key under which [_dedupe_actions] groups an action. *)
Definition action_key (a : ActionItem.t) : string :=
  Py.lower (Py.slice_to 50 (ActionItem.action a)).

(** The sort key of an action's priority. *)
Definition rank (a : ActionItem.t) : nat := priority_order (ActionItem.priority a).

(** [u] shows the text, priority and domain of [best]. *)
Definition shows (u best : ActionItem.t) : Prop :=
  ActionItem.action u = ActionItem.action best
  /\ ActionItem.priority u = ActionItem.priority best
  /\ ActionItem.domain u = ActionItem.domain best.

(** ** Predicates for the themes *)

(** The response [r] has a text of which [phrase] is a key phrase. *)
Definition says (so : set_order) (r : ModelResponse.t) (phrase : string) : Prop :=
  exists text, ModelResponse.response r = Some text
               /\ In phrase (_extract_key_phrases so text).

(** The action [a] is one that [_extract_actions_from_response] finds in a
    response of model [m] among [rs]. *)
Definition extracted (rs : list ModelResponse.t) (m : string) (a : ActionItem.t) : Prop :=
  exists r found,
    In r rs /\ ModelResponse.model r = m
    /\ _extract_actions_from_response r = Ok found /\ In a found.

(** ** Predicates for the HTTP API *)

(** The name is one of the registry of the API. *)
Definition known (model_name : string) : Prop := In model_name (keys Server.MODELS).

(** The requested names that the registry does not have, in request order. *)
Definition unknown_names (request : Server.QueryRequest.t) : list string :=
  filter (fun m => negb (Py.mem m (keys Server.MODELS))) (Server.models_to_query request).

(** The place of a response's domain: meta, technical, wealth, tax,
    personal, utility. *)
Definition domain_rank (r : Server.ModelResponse.t) : nat := fst (Server.sort_key r).

(** [a] may be listed before [b]: its domain comes first, or the domains
    have the same place and its name is not after [b]'s. *)
Definition listed_before (a b : Server.ModelResponse.t) : Prop :=
  domain_rank a < domain_rank b
  \/ (domain_rank a = domain_rank b
      /\ String.ltb (Server.ModelResponse.model b) (Server.ModelResponse.model a) = false).

(** The response shows the registry's entry for its model. *)
Definition registered (r : Server.ModelResponse.t) : Prop :=
  exists info,
    In (Server.ModelResponse.model r, info) Server.MODELS
    /\ Server.ModelResponse.domain r = Server.Info.domain info
    /\ Server.ModelResponse.color r = Server.Info.color info
    /\ Server.ModelResponse.description r = Server.Info.description info.

(** What [run] did decides the status, and the status decides which of
    [response] and [error] is there. *)
Definition reports (p : Server.process) (timeout : option Z)
    (r : Server.ModelResponse.t) : Prop :=
  Server.ModelResponse.duration_ms r = Server.elapsed_ms p
  /\ match Server.outcome_of p with
     | Server.Completes result =>
         if (Server.returncode result =? 0)%Z then
           Server.ModelResponse.status r = "success"
           /\ Server.ModelResponse.response r = Some (Py.strip (Server.stdout result))
           /\ Server.ModelResponse.error r = None
         else
           Server.ModelResponse.status r = "error"
           /\ Server.ModelResponse.response r = None
           /\ exists e, Server.ModelResponse.error r = Some e /\ e <> EmptyString
     | Server.Throws Server.TimeoutExpired =>
         Server.ModelResponse.status r = "timeout"
         /\ Server.ModelResponse.response r = None
         /\ Server.ModelResponse.error r
            = Some ("Timeout after " ++ Server.str_timeout timeout ++ " seconds")%string
     | Server.Throws (Server.OtherException message) =>
         Server.ModelResponse.status r = "error"
         /\ Server.ModelResponse.response r = None
         /\ Server.ModelResponse.error r = Some message
     end.

(** The status is one of three, and tells which of [response] and [error]
    is there: a response exactly for a success, an error exactly otherwise. *)
Definition well_formed (r : Server.ModelResponse.t) : Prop :=
  In (Server.ModelResponse.status r) ["success"; "error"; "timeout"]
  /\ (Server.ModelResponse.status r = "success"
      <-> Server.ModelResponse.response r <> None)
  /\ (Server.ModelResponse.status r = "success"
      <-> Server.ModelResponse.error r = None).

(** A process that is cut off after two minutes. *)
Definition cut_off : Server.subprocess :=
  fun _ _ _ => {| Server.outcome_of := Server.Throws Server.TimeoutExpired;
                  Server.elapsed_ms := 120000 |}.

(** The request for all models. *)
Definition ask_all : Server.QueryRequest.t :=
  Server.QueryRequest.make "Where do I start?" None (Some 120%Z).

(** ** Predicates for the feedback log *)

(** The objects among the lines of a log. *)
Definition objects (lines : list Feedback.line) : list Feedback.entry :=
  flat_map (fun l => match l with
                     | Feedback.Line (Feedback.JObject e) => [e]
                     | _ => []
                     end) lines.

(** The entries of the log; none when there is no file. *)
Definition log_entries (self : Feedback.files) : list Feedback.entry :=
  match Feedback.feedback_file self with
  | Some lines => objects lines
  | None => []
  end.

(** Every line of the log is a JSON object. *)
Definition readable_log (self : Feedback.files) : Prop :=
  forall lines, Feedback.feedback_file self = Some lines ->
                Forall (fun l => exists e, l = Feedback.dumps e) lines.

(** Every line of the log is JSON. *)
Definition json_log (self : Feedback.files) : Prop :=
  forall lines, Feedback.feedback_file self = Some lines ->
                Forall (fun l => l <> Feedback.Garbled) lines.

(** The entry is the one of the query. *)
Definition about (query_hash : string) (e : Feedback.entry) : bool :=
  Feedback.is_str (Feedback.get e "query_hash") query_hash.

(** The three counts of a model. *)
Record counts : Type := {
  positive : Z;
  negative : Z;
  total : Z
}.

(** The tables of the statistics file when it holds a JSON object; no table
    when there is no file. *)
Definition tables_of (self : Feedback.files) : option (list (string * Feedback.table)) :=
  match Feedback.get_model_stats self with
  | Ok (Feedback.SObject tables) => Some tables
  | _ => None
  end.

(** The member when it is an integer. *)
Definition int_member (members : list (string * Feedback.member)) (field : string)
  : option Z :=
  match lookup field members with
  | Some (Feedback.MInt n) => Some n
  | _ => None
  end.

(** The counts of a table whose three counts are integers. *)
Definition counts_of (t : Feedback.table) : option counts :=
  match t with
  | Feedback.TObject members =>
      match int_member members "positive", int_member members "negative",
            int_member members "total" with
      | Some p, Some n, Some t => Some {| positive := p; negative := n; total := t |}
      | _, _, _ => None
      end
  | Feedback.TOther => None
  end.

(** The counts of a model in the statistics file: zeros when the model has
    no table there, none when the file or the table does not hold them. *)
Definition stats_of (self : Feedback.files) (model : string) : option counts :=
  match tables_of self with
  | Some tables =>
      match lookup model tables with
      | Some t => counts_of t
      | None => Some {| positive := 0; negative := 0; total := 0 |}
      end
  | None => None
  end.

(** The member can be counted up: it is a number. *)
Definition countable (members : list (string * Feedback.member)) (field : string)
  : bool :=
  match lookup field members with
  | Some (Feedback.MInt _) | Some (Feedback.MBool _) | Some Feedback.MFloat => true
  | Some Feedback.MOther | None => false
  end.

(** The statistics file takes a rating of the model: it is absent or a JSON
    object, in which the model has no table or a table whose [total] and
    whose count for the rating are numbers. *)
Definition takes_rating (self : Feedback.files) (model : string) (is_positive : bool)
  : bool :=
  match tables_of self with
  | Some tables =>
      match lookup model tables with
      | None => true
      | Some (Feedback.TObject members) =>
          countable members "total"
          && countable members (if is_positive then "positive" else "negative")
      | Some Feedback.TOther => false
      end
  | None => false
  end.

(** The log has no line whose newline is missing: the text ends with a
    newline, or there is no text. *)
Definition ends_in_newline (tail : Feedback.ending) (self : Feedback.files) : Prop :=
  tail = Feedback.Newline
  \/ Feedback.feedback_file self = None
  \/ Feedback.feedback_file self = Some [].

(** The last [n] items of a list. *)
Definition last_n {A : Type} (n : nat) (l : list A) : list A :=
  skipn (List.length l - n) l.

(** A log of two consultations, and no statistics. *)
Definition two_logged : Feedback.files :=
  {| Feedback.feedback_file :=
       Some [Feedback.dumps (Feedback.FeedbackEntry "0a1b2c3d4e5f" "Where do I start?"
                               ["skill-stacker"] "2025-01-05T10:00:00");
             Feedback.dumps (Feedback.FeedbackEntry "99887766aabb" "Which entity type?"
                               ["business-tax-2026"; "cpa-wealth-advisor"]
                               "2025-01-06T11:30:00")];
     Feedback.stats_file := None |}.

(** A log whose second line was cut short. *)
Definition torn_log : Feedback.files :=
  {| Feedback.feedback_file :=
       Some [Feedback.dumps (Feedback.FeedbackEntry "0a1b2c3d4e5f" "Where do I start?"
                               ["skill-stacker"] "2025-01-05T10:00:00");
             Feedback.Garbled];
     Feedback.stats_file := None |}.

(** The log of two consultations beside a statistics file that is empty. *)
Definition empty_stats : Feedback.files :=
  {| Feedback.feedback_file := Feedback.feedback_file two_logged;
     Feedback.stats_file := Some Feedback.StatsNotJson |}.

(** ** Predicates for the conflicts *)

(** What a reported conflict between responses of [rs] looks like. *)
Definition conflict_shape (rs : list ModelResponse.t) (c : DetectedConflict.t) : Prop :=
  DetectedConflict.topic c <> EmptyString
  /\ String.length (DetectedConflict.topic c) <= 100
  /\ DetectedConflict.severity c = "medium"
  /\ DetectedConflict.resolution_hint c <> None
  /\ DetectedConflict.positions c <> []
  /\ Forall (fun kv => (exists r, In r rs /\ ModelResponse.model r = fst kv)
                       /\ String.length (snd kv) <= 153)
            (DetectedConflict.positions c).

(** What a returned action looks like, the kept responses being [rs]. *)
Definition action_shape (rs : list ModelResponse.t) (a : ActionItem.t) : Prop :=
  String.length (ActionItem.action a) <= 200
  /\ In (ActionItem.priority a) ["high"; "medium"; "low"]
  /\ exists r, In r rs
               /\ ActionItem.domain a = ModelResponse.domain r
               /\ In (ModelResponse.model r) (ActionItem.source_models a).

(** ** Predicates for the text of a theme *)

(** Every character of [s] passes the test. *)
Fixpoint all_chars (P : ascii -> bool) (s : string) : bool :=
  match s with
  | EmptyString => true
  | String c rest => P c && all_chars P rest
  end.

(** [c.lower() == c] *)
Definition is_lowered (c : ascii) : bool := Ascii.eqb (Py.lower_char c) c.

Definition nonspace (c : ascii) : bool := negb (Py.is_space c).

(** A word character, a hyphen or the space. *)
Definition phrase_char (c : ascii) : bool :=
  Py.is_word c || (Py.ord c =? 45)%N || (Py.ord c =? 32)%N.

(** A word: not empty and without whitespace. *)
Definition wordlike (w : string) : Prop :=
  w <> EmptyString /\ all_chars nonspace w = true.

(** A normalized phrase: three to fifteen words joined by single spaces, in
    lower case, of word characters and hyphens. *)
Definition phrase_shape (p : string) : Prop :=
  3 <= List.length (Py.split p) <= 15
  /\ p = Py.join_space (Py.split p)
  /\ Py.lower p = p
  /\ all_chars phrase_char p = true.

(** The quote [q] is a sentence of the response [r] that shares more than
    three tenths of the words of [phrase]. *)
Definition quotes (r : ModelResponse.t) (phrase q : string) : Prop :=
  exists text sent overlap,
    ModelResponse.response r = Some text
    /\ In sent (Py.re_split_sentences text)
    /\ String.length sent < 300
    /\ true_div (common_words (Py.split (Py.lower phrase)) (Py.split (Py.lower sent)))
                (List.length (nodup string_dec (Py.split (Py.lower phrase))))
       = Ok overlap
    /\ (3 # 10 < overlap)%Q
    /\ q = ("[" ++ ModelResponse.model r ++ "] " ++ Py.strip sent)%string.

(** ** Predicates for the order of sets *)

(** Two entries of [response_phrases] for the same model, with the same
    phrases in some order. *)
Definition same_phrases (kv1 kv2 : string * list string) : Prop :=
  fst kv1 = fst kv2 /\ Permutation (snd kv1) (snd kv2)
  /\ NoDup (snd kv1) /\ NoDup (snd kv2).

(** The number of models that support a theme. *)
Definition support (t : ExtractedTheme.t) : nat :=
  List.length (ExtractedTheme.supporting_models t).

(** Two actions that differ at most in the order of their source models. *)
Definition same_action (a b : ActionItem.t) : Prop :=
  ActionItem.action a = ActionItem.action b
  /\ ActionItem.priority a = ActionItem.priority b
  /\ ActionItem.domain a = ActionItem.domain b
  /\ ActionItem.rationale a = ActionItem.rationale b
  /\ Permutation (ActionItem.source_models a) (ActionItem.source_models b).

(** * Properties *)

(** ** add_responses *)

Lemma kept_spec : forall r,
  kept r = true <->
  ModelResponse.status r = "success"
  /\ exists text, ModelResponse.response r = Some text /\ text <> EmptyString.
Proof.
  intros r. unfold kept, is_success, truthy_opt. rewrite andb_true_iff, String.eqb_eq.
  split; intros [H1 H2]; split; try assumption.
  - destruct (ModelResponse.response r) as [text|]; [|discriminate].
    exists text. split; [reflexivity|]. destruct text; [discriminate | congruence].
  - destruct H2 as [text [-> Hne]]. destruct text; [congruence | reflexivity].
Qed.

Lemma add_responses_last : forall calls self rs,
  fold_left add_responses (calls ++ [rs]) self = add_responses init rs.
Proof.
  intros calls self rs. rewrite fold_left_app. reflexivity.
Qed.

(** C10: whatever the engine held and whatever calls came before, after
    [add_responses rs] the stored responses are exactly the members of [rs]
    with status ["success"] and a non-empty response, in their order; so the
    extraction passes and [synthesize] give what a fresh engine gives for
    [rs]. *)
Theorem add_responses_replaces :
  forall (so : set_order) (self : SynthesisEngine)
         (calls : list (list ModelResponse.t)) (rs : list ModelResponse.t),
    let after := fold_left add_responses (calls ++ [rs]) self in
    responses after = filter kept rs
    /\ (forall r, In r (responses after) <->
                  In r rs /\ ModelResponse.status r = "success"
                  /\ exists text, ModelResponse.response r = Some text
                                  /\ text <> EmptyString)
    /\ extract_themes so after = extract_themes so (add_responses init rs)
    /\ detect_conflicts after = detect_conflicts (add_responses init rs)
    /\ extract_actions so after = extract_actions so (add_responses init rs)
    /\ calculate_consensus so after = calculate_consensus so (add_responses init rs)
    /\ (forall question now,
          synthesize so after question now
          = synthesize so (add_responses init rs) question now).
Proof.
  intros so self calls rs after.
  assert (Hafter : after = add_responses init rs) by apply add_responses_last.
  rewrite Hafter. split; [reflexivity|]. split.
  - intros r. simpl. rewrite filter_In. fold (kept r). rewrite kept_spec. tauto.
  - repeat split; reflexivity.
Qed.

(** ** Lists: prefixes and the stable sort *)

Lemma Forall_firstn : forall (A : Type) (P : A -> Prop) (n : nat) (l : list A),
  Forall P l -> Forall P (firstn n l).
Proof.
  intros A P n l H. revert n. induction H as [|a l Ha Hl IH]; intros [|n]; simpl;
    constructor; auto.
Qed.

Lemma StronglySorted_firstn : forall (A : Type) (R : A -> A -> Prop) (n : nat) (l : list A),
  StronglySorted R l -> StronglySorted R (firstn n l).
Proof.
  intros A R n l H. revert n. induction H as [|a l Hl IH Ha]; intros [|n]; simpl;
    constructor; auto using Forall_firstn.
Qed.

Section StableSortFacts.
Context {A K : Type} (key : A -> K) (leb : K -> K -> bool).
Hypothesis leb_total : forall x y, leb x y = false -> leb y x = true.
Hypothesis leb_trans : forall x y z, leb x y = true -> leb y z = true -> leb x z = true.

Let ordered (a b : A) : Prop := leb (key a) (key b) = true.

Lemma insert_by_perm : forall x l, Permutation (insert_by key leb x l) (x :: l).
Proof.
  intros x l. induction l as [|y l IH]; simpl.
  - apply Permutation_refl.
  - destruct (leb (key x) (key y)).
    + apply Permutation_refl.
    + eapply Permutation_trans; [apply perm_skip, IH | apply perm_swap].
Qed.

Lemma sort_by_perm : forall l, Permutation (sort_by key leb l) l.
Proof.
  induction l as [|x l IH]; simpl.
  - apply Permutation_refl.
  - eapply Permutation_trans; [apply insert_by_perm | apply perm_skip, IH].
Qed.

Lemma insert_by_sorted : forall x l,
  StronglySorted ordered l -> StronglySorted ordered (insert_by key leb x l).
Proof.
  intros x l H. induction H as [|y l Hl IH Hy]; simpl.
  - constructor; constructor.
  - destruct (leb (key x) (key y)) eqn:Hxy.
    + constructor; [constructor; assumption|].
      constructor; [exact Hxy|].
      eapply Forall_impl; [|exact Hy]. intros z Hz. unfold ordered in *. eauto.
    + constructor; [exact IH|].
      eapply Permutation_Forall; [apply Permutation_sym, insert_by_perm|].
      constructor; [apply leb_total, Hxy | exact Hy].
Qed.

Lemma sort_by_sorted : forall l, StronglySorted ordered (sort_by key leb l).
Proof.
  induction l as [|x l IH]; simpl; [constructor | apply insert_by_sorted, IH].
Qed.
End StableSortFacts.

Lemma sort_by_Forall : forall (A K : Type) (key : A -> K) (leb : K -> K -> bool)
    (P : A -> Prop) (l : list A),
  Forall P l -> Forall P (sort_by key leb l).
Proof.
  intros A K key leb P l H.
  eapply Permutation_Forall; [apply Permutation_sym, sort_by_perm | exact H].
Qed.

Lemma Qle_bool_total : forall x y : Q, Qle_bool x y = false -> Qle_bool y x = true.
Proof.
  intros x y H. apply Qle_bool_iff. destruct (Qlt_le_dec y x) as [Hlt|Hle].
  - apply Qlt_le_weak, Hlt.
  - apply Qle_bool_iff in Hle. congruence.
Qed.

Lemma Qle_bool_trans : forall x y z : Q,
  Qle_bool x y = true -> Qle_bool y z = true -> Qle_bool x z = true.
Proof.
  intros x y z H1 H2. apply Qle_bool_iff. apply Qle_bool_iff in H1, H2.
  eapply Qle_trans; eassumption.
Qed.

(** ** Dictionaries *)

Lemma dict_update_Forall : forall (V : Type) (P : string * V -> Prop)
    (d : list (string * V)) (k : string) (f : option V -> V),
  Forall P d ->
  (forall v, In (k, v) d -> P (k, f (Some v))) ->
  (~ In k (keys d) -> P (k, f None)) ->
  Forall P (dict_update d k f).
Proof.
  intros V P d k f Hd. induction Hd as [|[k' v] d Hkv Hd IH]; intros Hsome Hnone; simpl.
  - constructor; [apply Hnone; intros [] | constructor].
  - destruct (String.eqb k k') eqn:Heq.
    + apply String.eqb_eq in Heq. subst k'.
      constructor; [apply Hsome; now left | exact Hd].
    + apply String.eqb_neq in Heq. constructor; [exact Hkv|].
      apply IH.
      * intros v0 Hin. apply Hsome. now right.
      * intros Hnin. apply Hnone. simpl. intros [H|H]; [congruence | contradiction].
Qed.

Lemma dict_update_keys_NoDup : forall (V : Type) (d : list (string * V)) k f,
  NoDup (keys d) -> NoDup (keys (dict_update d k f)).
Proof.
  intros V d k f. unfold keys.
  assert (Hin : forall d x, In x (map fst (dict_update d k f))
                            -> x = k \/ In x (map fst d)).
  { clear d. induction d as [|[k' v] d IH]; simpl; intros x H.
    - destruct H as [H|[]]. now left.
    - destruct (String.eqb k k'); simpl in H.
      + right. exact H.
      + destruct H as [H|H]; [right; now left|].
        apply IH in H. destruct H; [now left | right; now right]. }
  induction d as [|[k' v] d IH]; simpl; intros Hnd.
  - constructor; [intros [] | constructor].
  - inversion Hnd as [|? ? Hk' Hd]; subst.
    destruct (String.eqb k k') eqn:Heq; simpl.
    + constructor; assumption.
    + apply String.eqb_neq in Heq. constructor; [|apply IH, Hd].
      intros H. apply Hin in H. destruct H; [congruence | contradiction].
Qed.

(** ** Words of a phrase *)

Lemma split_nil_iff : forall s, Py.split s = [] <-> all_space s = true.
Proof.
  induction s as [|c rest IH]; simpl.
  - tauto.
  - destruct (Py.is_space c); simpl; [exact IH|].
    destruct rest as [|d rest']; [split; discriminate|].
    destruct (Py.is_space d); [split; discriminate|].
    destruct (Py.split (String d rest')); split; discriminate.
Qed.

Lemma is_space_lower_char : forall c, Py.is_space (Py.lower_char c) = Py.is_space c.
Proof.
  intros [[] [] [] [] [] [] [] []]; vm_compute; reflexivity.
Qed.

Lemma all_space_lower : forall s, all_space (Py.lower s) = all_space s.
Proof.
  induction s as [|c rest IH]; simpl; [reflexivity|].
  now rewrite is_space_lower_char, IH.
Qed.

Lemma split_starts_nonspace : forall s, Forall starts_nonspace (Py.split s).
Proof.
  induction s as [|c rest IH]; simpl; [constructor|].
  destruct (Py.is_space c) eqn:Hc; [exact IH|].
  destruct rest as [|d rest'].
  - constructor; [exact Hc | constructor].
  - destruct (Py.is_space d).
    + constructor; [exact Hc | exact IH].
    + destruct (Py.split (String d rest')) as [|w ws].
      * constructor; [exact Hc | constructor].
      * inversion IH; subst. constructor; [exact Hc | assumption].
Qed.

Lemma starts_nonspace_join : forall w ws,
  starts_nonspace w -> starts_nonspace (Py.join_space (w :: ws)).
Proof.
  intros w ws H. destruct w as [|c w']; [destruct H|].
  simpl. destruct ws; exact H.
Qed.

Lemma starts_nonspace_has_words : forall p, starts_nonspace p -> has_words p.
Proof.
  intros p H. unfold has_words. rewrite split_nil_iff, all_space_lower.
  destruct p as [|c p']; [destruct H|]. simpl. simpl in H. now rewrite H.
Qed.

Lemma key_phrases_have_words : forall (so : set_order) (text p : string),
  In p (_extract_key_phrases so text) -> has_words p.
Proof.
  intros so text p H. unfold _extract_key_phrases in H.
  apply set_list_In in H. apply in_flat_map in H. destruct H as [sentence [_ H]].
  destruct (find _ ACTION_INDICATORS); [|destruct H].
  pose proof (split_starts_nonspace (Py.re_sub_clean sentence)) as Hw.
  destruct (Py.split (Py.re_sub_clean sentence)) as [|w ws]; [destruct H|].
  destruct ((3 <=? List.length (w :: ws)) && (List.length (w :: ws) <=? 15)); [|destruct H].
  destruct H as [<-|[]]. inversion Hw; subst.
  apply starts_nonspace_has_words, starts_nonspace_join. assumption.
Qed.

(** ** phrase_models: who supports a phrase *)

Section PhraseModels.
Variable seen : list string.
Variable model : string.
Hypothesis model_fresh : ~ In model seen.

(** While [model]'s phrases are being added, [D] holds of those already in. *)
Let during (D : string -> Prop) (kv : string * list string) : Prop :=
  NoDup (snd kv) /\ has_words (fst kv)
  /\ forall m, In m (snd kv) -> In m seen \/ (m = model /\ D (fst kv)).

Lemma during_weaken : forall (D D' : string -> Prop) pm,
  (forall p, D p -> D' p) -> Forall (during D) pm -> Forall (during D') pm.
Proof.
  intros D D' pm HD. apply Forall_impl. intros [p ms] (H1 & H2 & H3).
  repeat split; try assumption. intros m Hm. destruct (H3 m Hm) as [H|[H H']]; auto.
Qed.

Lemma add_phrases_during : forall phrases D pm,
  NoDup phrases -> Forall has_words phrases ->
  (forall p, In p phrases -> ~ D p) ->
  Forall (during D) pm ->
  Forall (during (fun p => D p \/ In p phrases))
         (fold_left (fun pm phrase => dict_append pm phrase model) phrases pm).
Proof.
  induction phrases as [|q qs IH]; intros D pm Hnd Hgood Hfresh Hpm; simpl.
  - eapply during_weaken; [|exact Hpm]. auto.
  - inversion Hnd as [|? ? Hq Hqs]; subst. inversion Hgood as [|? ? Hgq Hgqs]; subst.
    eapply during_weaken; [|apply (IH (fun p => D p \/ p = q))]; auto.
    + simpl. intros p [[H|H]|H]; auto.
    + intros p Hp [H|H]; [apply (Hfresh p); simpl; auto | subst; contradiction].
    + unfold dict_append. apply dict_update_Forall.
      * eapply during_weaken; [|exact Hpm]. auto.
      * intros ms Hin. rewrite Forall_forall in Hpm.
        destruct (Hpm _ Hin) as (H1 & H2 & H3). simpl in *.
        assert (Hseen : forall m, In m ms -> In m seen).
        { intros m Hm. destruct (H3 m Hm) as [H|[_ H]]; [exact H|].
          exfalso. apply (Hfresh q); auto. }
        repeat split; simpl; [|exact H2|].
        -- apply NoDup_app; [exact H1 | repeat constructor; intros [] |].
           intros m Hm [<-|[]]. apply model_fresh, Hseen, Hm.
        -- intros m Hm. apply in_app_or in Hm. destruct Hm as [Hm|[<-|[]]]; auto.
      * intros _. repeat split; simpl; [repeat constructor; intros [] | exact Hgq |].
        intros m [<-|[]]. auto.
Qed.
End PhraseModels.

Lemma phrase_models_from : forall rp seen pm,
  NoDup (keys rp) -> (forall k, In k (keys rp) -> ~ In k seen) ->
  Forall phrases_ok rp ->
  Forall (supported_within seen) pm ->
  Forall (supported_within (rev (keys rp) ++ seen))
         (fold_left (fun pm '(model, phrases) =>
                       fold_left (fun pm phrase => dict_append pm phrase model) phrases pm)
                    rp pm).
Proof.
  induction rp as [|[model phrases] rp IH]; intros seen pm Hnd Hfresh Hok Hpm; simpl.
  - exact Hpm.
  - inversion Hnd as [|? ? Hm Hrest]; subst. inversion Hok as [|? ? [Hp1 Hp2] Hok']; subst.
    simpl in *. rewrite <- app_assoc. simpl.
    apply IH; try assumption.
    + intros k Hk [<-|H]; [contradiction | apply (Hfresh k); auto].
    + assert (Hfr : ~ In model seen) by (apply Hfresh; auto).
      pose proof (add_phrases_during seen model Hfr phrases (fun _ => False) pm
                    Hp1 Hp2 (fun _ _ H => H)) as H.
      eapply Forall_impl; [|apply H].
      * intros [p ms] (H1 & H2 & H3). repeat split; try assumption.
        intros m Hin. simpl in *. destruct (H3 m Hin) as [H'|[-> _]]; auto.
      * eapply Forall_impl; [|exact Hpm].
        intros [p ms] (H1 & H2 & H3). repeat split; try assumption.
        intros m Hin. left. apply H3, Hin.
Qed.

Lemma response_or_Ok : forall e r, has_response r ->
  exists text, ModelResponse.response r = Some text /\ response_or e r = Ok text.
Proof.
  intros e r H. unfold response_or, has_response in *.
  destruct (ModelResponse.response r) as [text|]; [eauto | congruence].
Qed.

Lemma dict_update_length : forall (V : Type) (d : list (string * V)) k f,
  List.length (dict_update d k f) <= S (List.length d).
Proof.
  intros V d k f. induction d as [|[k' v] d IH]; simpl; [lia|].
  destruct (String.eqb k k'); simpl; lia.
Qed.

Lemma response_phrases_ok : forall (so : set_order) rs d,
  Forall has_response rs -> NoDup (keys d) -> Forall phrases_ok d ->
  exists rp, response_phrases_from so d rs = Ok rp
             /\ NoDup (keys rp) /\ Forall phrases_ok rp
             /\ List.length rp <= List.length d + List.length rs.
Proof.
  intros so. induction rs as [|r rs IH]; intros d Hrs Hnd Hok; simpl.
  - exists d. repeat split; auto. lia.
  - inversion Hrs as [|? ? Hr Hrs']; subst.
    destruct (response_or_Ok AttributeError r Hr) as [text [_ ->]]. simpl.
    destruct (IH (dict_set d (ModelResponse.model r) (_extract_key_phrases so text)))
      as [rp (H1 & H2 & H3 & H4)];
      [assumption | apply dict_update_keys_NoDup, Hnd | |].
    + apply dict_update_Forall; [assumption | |]; intros; split; simpl;
        solve [ apply set_list_NoDup
              | apply Forall_forall; intros p Hp; eapply key_phrases_have_words; exact Hp ].
    + exists rp. repeat split; try assumption.
      pose proof (dict_update_length _ d (ModelResponse.model r)
                    (fun _ => _extract_key_phrases so text)) as Hlen.
      unfold dict_set in H4. lia.
Qed.

Lemma phrase_models_supported : forall rp,
  NoDup (keys rp) -> Forall phrases_ok rp ->
  Forall (supported_within (rev (keys rp))) (phrase_models_of rp).
Proof.
  intros rp Hnd Hok. unfold phrase_models_of.
  rewrite <- (app_nil_r (rev (keys rp))).
  apply phrase_models_from; auto.
Qed.

(** ** Evidence never divides by zero *)

Lemma evidence_in_total : forall r phrase_words sentences,
  phrase_words <> [] -> exists ev, evidence_in r phrase_words sentences = Ok ev.
Proof.
  intros r phrase_words sentences Hne. induction sentences as [|sent rest IH]; simpl.
  - eauto.
  - unfold true_div.
    destruct (List.length (nodup string_dec phrase_words)) eqn:Hlen.
    + exfalso. apply length_zero_iff_nil in Hlen.
      destruct phrase_words as [|w ws]; [congruence|].
      assert (Hin : In w (nodup string_dec (w :: ws))) by (apply nodup_In; now left).
      rewrite Hlen in Hin. destruct Hin.
    + simpl. destruct (_ && _); eauto.
Qed.

Lemma find_evidence_total : forall self phrase models,
  has_words phrase -> Forall has_response (responses self) ->
  exists ev, _find_evidence self phrase models = Ok ev.
Proof.
  intros self phrase models Hw. unfold _find_evidence.
  induction (responses self) as [|r rs IH]; intros Hrs; simpl.
  - eauto.
  - inversion Hrs as [|? ? Hr Hrs']; subst.
    destruct (IH Hrs') as [cs ->].
    destruct (Py.mem (ModelResponse.model r) models).
    + destruct (response_or_Ok TypeError r Hr) as [text [_ ->]]. simpl.
      destruct (evidence_in_total r _ (Py.re_split_sentences text) Hw) as [ev ->].
      simpl. eauto.
    + simpl. eauto.
Qed.

(** ** Themes *)

Lemma themes_of_ok : forall self seen items,
  responses self <> [] -> Forall has_response (responses self) ->
  List.length seen <= List.length (responses self) ->
  Forall (supported_within seen) items ->
  exists themes, themes_of self items = Ok themes
                 /\ Forall (theme_ok (List.length (responses self))) themes.
Proof.
  intros self seen items Hne Hrs Hseen Hitems.
  induction Hitems as [|[phrase models] items (H1 & H2 & H3) Hitems IH]; cbn [themes_of].
  - eauto.
  - destruct IH as [themes [IHeq Hthemes]]. simpl in H1, H2, H3.
    destruct (2 <=? List.length models) eqn:Hlen; [|eauto].
    apply Nat.leb_le in Hlen. unfold true_div.
    destruct (List.length (responses self)) as [|n] eqn:Hn;
      [apply length_zero_iff_nil in Hn; contradiction|].
    cbn [bind]. destruct (find_evidence_total self phrase models H2 Hrs) as [ev ->].
    cbn [bind]. rewrite IHeq. cbn [bind].
    eexists. split; [reflexivity|]. constructor; [|exact Hthemes].
    repeat split; cbn [ExtractedTheme.supporting_models ExtractedTheme.confidence
                       ExtractedTheme.evidence]; auto.
    + apply firstn_le_length.
    + pose proof (NoDup_incl_length H1 H3). lia.
Qed.

Lemma kept_has_response : forall self rs,
  Forall has_response (responses (add_responses self rs)).
Proof.
  intros self rs. apply Forall_forall. intros r Hr. simpl in Hr.
  apply filter_In in Hr. destruct Hr as [_ Hr]. fold (kept r) in Hr.
  apply kept_spec in Hr. destruct Hr as [_ [text [Ht _]]].
  unfold has_response. congruence.
Qed.

Lemma extract_themes_ok : forall (so : set_order) (self : SynthesisEngine),
  Forall has_response (responses self) ->
  exists themes,
    extract_themes so self = Ok themes
    /\ Forall (theme_ok (List.length (responses self))) themes
    /\ StronglySorted by_descending_confidence themes
    /\ List.length themes <= 10.
Proof.
  intros so self Hrs. unfold extract_themes.
  destruct (responses self) as [|r0 rs0] eqn:Hresp.
  - exists []. repeat split; try constructor. simpl. lia.
  - rewrite <- Hresp in *.
    destruct (response_phrases_ok so (responses self) [] Hrs)
      as [rp (-> & Hnd & Hok & Hlen)]; [constructor | constructor |].
    cbn [bind].
    destruct (themes_of_ok self (rev (keys rp)) (phrase_models_of rp)) as [themes [-> Hthemes]].
    + rewrite Hresp. discriminate.
    + exact Hrs.
    + unfold keys. rewrite length_rev, length_map. simpl in Hlen. exact Hlen.
    + apply phrase_models_supported; assumption.
    + cbn [bind]. eexists. split; [reflexivity|]. split; [|split].
      * apply Forall_firstn, sort_by_Forall, Hthemes.
      * apply StronglySorted_firstn.
        pose proof (sort_by_sorted Qneg_key Qle_bool Qle_bool_total Qle_bool_trans themes) as Hs.
        clear - Hs. induction Hs as [|a l Hl IH Ha]; constructor; [exact IH|].
        eapply Forall_impl; [|exact Ha]. intros b Hb. unfold by_descending_confidence.
        apply Qle_bool_iff in Hb. unfold Qneg_key in Hb.
        apply Qopp_le_compat in Hb. now rewrite !Qopp_involutive in Hb.
      * apply firstn_le_length.
Qed.

(** C6: on the responses kept by [add_responses], [extract_themes] returns
    themes each of which is supported by at least two models, no model named
    twice, with confidence the number of its supporting models over the
    number of kept (successful, non-empty) results; the themes come in
    descending order of confidence and are at most ten. *)
Theorem extract_themes_support_invariant :
  forall (so : set_order) (self : SynthesisEngine) (rs : list ModelResponse.t),
  exists themes,
    extract_themes so (add_responses self rs) = Ok themes
    /\ Forall (fun t =>
                 NoDup (ExtractedTheme.supporting_models t)
                 /\ 2 <= List.length (ExtractedTheme.supporting_models t)
                 /\ ExtractedTheme.confidence t
                    = (inject_Z (Z.of_nat (List.length (ExtractedTheme.supporting_models t)))
                       / inject_Z (Z.of_nat (List.length (filter kept rs))))%Q)
              themes
    /\ StronglySorted by_descending_confidence themes
    /\ List.length themes <= 10.
Proof.
  intros so self rs.
  destruct (extract_themes_ok so (add_responses self rs) (kept_has_response self rs))
    as [themes (H1 & H2 & H3 & H4)].
  exists themes. repeat split; try assumption.
  eapply Forall_impl; [|exact H2]. intros t (Ha & Hb & Hc & _). auto.
Qed.

(** X5: every theme has a confidence above 0 and at most 1, at most three
    evidence quotes, and no more supporting models than there are kept
    responses. *)
Theorem extract_themes_confidence_in_unit_interval :
  forall (so : set_order) (self : SynthesisEngine) (rs : list ModelResponse.t),
  exists themes,
    extract_themes so (add_responses self rs) = Ok themes
    /\ Forall (fun t =>
                 (0 < ExtractedTheme.confidence t)%Q
                 /\ (ExtractedTheme.confidence t <= 1)%Q
                 /\ List.length (ExtractedTheme.evidence t) <= 3
                 /\ List.length (ExtractedTheme.supporting_models t)
                    <= List.length (filter kept rs))
              themes.
Proof.
  intros so self rs.
  destruct (extract_themes_ok so (add_responses self rs) (kept_has_response self rs))
    as [themes (H1 & H2 & _)].
  exists themes. split; [exact H1|].
  eapply Forall_impl; [|exact H2].
  intros t (_ & Ha & Hc & He & Hn).
  change (responses (add_responses self rs)) with (filter kept rs) in *.
  set (a := List.length (ExtractedTheme.supporting_models t)) in *.
  set (n := List.length (filter kept rs)) in *.
  assert (Hn0 : (0 < inject_Z (Z.of_nat n))%Q).
  { change 0%Q with (inject_Z 0). rewrite <- Zlt_Qlt. lia. }
  repeat split; try assumption; rewrite Hc.
  - apply Qlt_shift_div_l; [exact Hn0|]. rewrite Qmult_0_l.
    change 0%Q with (inject_Z 0). rewrite <- Zlt_Qlt. lia.
  - apply Qle_shift_div_r; [exact Hn0|]. rewrite Qmult_1_l.
    rewrite <- Zle_Qle. lia.
Qed.

(** ** Conflicts *)

Lemma subseq_nil_l : forall (A : Type) (l : list A), subseq [] l.
Proof. induction l; constructor; assumption. Qed.

Lemma subseq_firstn : forall (A : Type) (n : nat) (l : list A), subseq (firstn n l) l.
Proof.
  intros A n l. revert n. induction l as [|x l IH]; intros [|n]; simpl.
  - constructor.
  - constructor.
  - apply subseq_nil_l.
  - apply subseq_keep, IH.
Qed.

Lemma subseq_trans : forall (A : Type) (l1 l2 l3 : list A),
  subseq l1 l2 -> subseq l2 l3 -> subseq l1 l3.
Proof.
  intros A l1 l2 l3 H12 H23. revert l1 H12.
  induction H23 as [|x l2 l3 H IH|x l2 l3 H IH]; intros l1 H12.
  - exact H12.
  - constructor. apply IH, H12.
  - inversion H12; subst; constructor; apply IH; assumption.
Qed.

Lemma subseq_Forall : forall (A : Type) (P : A -> Prop) (l1 l2 : list A),
  subseq l1 l2 -> Forall P l2 -> Forall P l1.
Proof.
  intros A P l1 l2 H. induction H; intros HP; inversion HP; subst;
    try constructor; auto.
Qed.

Lemma NoDup_firstn : forall (A : Type) (n : nat) (l : list A),
  NoDup l -> NoDup (firstn n l).
Proof.
  intros A n l H. rewrite <- (firstn_skipn n l) in H.
  eapply NoDup_app_remove_r, H.
Qed.

Lemma positions_keys : forall (m1 p1 m2 p2 : string),
  keys (dict_set (dict_set [] m1 p1) m2 p2) = pair_keys m1 m2.
Proof.
  intros m1 p1 m2 p2. unfold dict_set, pair_keys. simpl.
  destruct (String.eqb m2 m1); reflexivity.
Qed.

Lemma find_conflicts_between_ok : forall r1 r2,
  has_response r1 -> has_response r2 ->
  exists cs, _find_conflicts_between r1 r2 = Ok cs
             /\ Forall (conflict_between r1 r2) cs.
Proof.
  intros r1 r2 H1 H2. unfold _find_conflicts_between.
  destruct (response_or_Ok AttributeError r1 H1) as [t1 [_ ->]].
  destruct (response_or_Ok AttributeError r2 H2) as [t2 [_ ->]].
  cbn [bind].
  destruct (find _ CONFLICT_INDICATORS) as [indicator|]; [|eauto].
  destruct (_extract_conflict_topic t1 t2 indicator) as [topic|]; [|eauto].
  destruct (Py.truthy topic); [|eauto].
  eexists. split; [reflexivity|]. constructor; [|constructor].
  unfold conflict_between. cbn [DetectedConflict.positions]. apply positions_keys.
Qed.

Lemma conflicts_of_pairs_ok : forall rs,
  Forall has_response rs ->
  exists cs, conflicts_of_pairs rs = Ok cs /\ Forall (conflict_among rs) cs.
Proof.
  induction rs as [|r1 rest IH]; intros Hrs; cbn [conflicts_of_pairs].
  - eauto.
  - inversion Hrs as [|? ? H1 Hrest]; subst.
    destruct (IH Hrest) as [ds [-> Hds]].
    assert (Hrow : forall l, Forall has_response l -> incl l rest ->
              exists cs, extendM (fun r2 => _find_conflicts_between r1 r2) l = Ok cs
                         /\ Forall (conflict_among (r1 :: rest)) cs).
    { induction l as [|r2 l IHl]; intros Hl Hincl; cbn [extendM].
      - eauto.
      - inversion Hl as [|? ? H2 Hl']; subst.
        destruct (find_conflicts_between_ok r1 r2 H1 H2) as [bs [-> Hbs]].
        destruct IHl as [cs [-> Hcs]];
          [assumption | intros x Hx; apply Hincl; now right |].
        cbn [bind]. eexists. split; [reflexivity|].
        apply Forall_app. split; [|exact Hcs].
        eapply Forall_impl; [|exact Hbs]. intros c Hc.
        eapply among_head; [|exact Hc]. apply Hincl. now left. }
    destruct (Hrow rest Hrest (incl_refl rest)) as [cs [-> Hcs]].
    cbn [bind]. eexists. split; [reflexivity|].
    apply Forall_app. split; [exact Hcs|].
    eapply Forall_impl; [|exact Hds]. intros c Hc. now apply among_tail.
Qed.

Lemma dedupe_conflicts_from_spec : forall cs seen,
  let out := dedupe_conflicts_from seen cs in
  NoDup (map pair_key out)
  /\ (forall c, In c out -> ~ In (pair_key c) seen)
  /\ subseq out cs.
Proof.
  induction cs as [|c cs IH]; intros seen; simpl.
  - repeat split; [constructor | intros c [] | constructor].
  - fold (pair_key c).
    destruct (existsb _ seen) eqn:Hseen.
    + destruct (IH seen) as (H1 & H2 & H3). repeat split; auto. now constructor.
    + destruct (IH (pair_key c :: seen)) as (H1 & H2 & H3).
      assert (Hc : ~ In (pair_key c) seen).
      { intros Hin. apply Bool.not_true_iff_false in Hseen. apply Hseen.
        apply existsb_exists. exists (pair_key c). split; [exact Hin|].
        destruct (list_eq_dec string_dec (pair_key c) (pair_key c)); congruence. }
      repeat split.
      * simpl. constructor; [|exact H1].
        intros Hin. apply in_map_iff in Hin. destruct Hin as [c' [Heq Hc']].
        apply (H2 c' Hc'). left. now symmetry.
      * intros c' [<-|Hc']; [exact Hc|]. intros Hin. apply (H2 c' Hc'). now right.
      * now constructor.
Qed.

Lemma pair_keys_short : forall m1 m2,
  NoDup (pair_keys m1 m2) /\ List.length (pair_keys m1 m2) <= 2.
Proof.
  intros m1 m2. unfold pair_keys. destruct (String.eqb m2 m1) eqn:Heq; simpl.
  - split; [repeat constructor; intros [] | lia].
  - apply String.eqb_neq in Heq. split; [|lia].
    repeat constructor; simpl; [intros [H|[]]; congruence | intros []].
Qed.

Lemma sorted_pair_swap : forall a b, a <> b -> Py.sorted [a; b] = Py.sorted [b; a].
Proof.
  intros a b Hab. simpl.
  destruct (String.leb a b) eqn:H1, (String.leb b a) eqn:H2; try reflexivity.
  - exfalso. apply Hab. now apply String.leb_antisym.
  - destruct (String.leb_total a b); congruence.
Qed.

Lemma sorted_same_members : forall l1 l2,
  NoDup l1 -> NoDup l2 -> List.length l1 <= 2 -> List.length l2 <= 2 ->
  (forall m, In m l1 <-> In m l2) ->
  Py.sorted l1 = Py.sorted l2.
Proof.
  intros l1 l2 N1 N2 L1 L2 Hsame.
  destruct l1 as [|a [|b [|? ?]]]; simpl in L1; try lia;
    destruct l2 as [|c [|d [|? ?]]]; simpl in L2; try lia.
  - reflexivity.
  - exfalso. apply (Hsame c). now left.
  - exfalso. apply (Hsame c). now left.
  - exfalso. apply (Hsame a). now left.
  - assert (H : In a [c]) by (apply Hsame; now left).
    destruct H as [->|[]]. reflexivity.
  - exfalso. inversion N2 as [|? ? Hc _]; subst. apply Hc.
    assert (H1 : In c [a]) by (apply Hsame; now left).
    assert (H2 : In d [a]) by (apply Hsame; right; now left).
    destruct H1 as [<-|[]]. destruct H2 as [<-|[]]. now left.
  - exfalso. apply (Hsame a). now left.
  - exfalso. inversion N1 as [|? ? Ha _]; subst. apply Ha.
    assert (H1 : In a [c]) by (apply Hsame; now left).
    assert (H2 : In b [c]) by (apply Hsame; right; now left).
    destruct H1 as [<-|[]]. destruct H2 as [<-|[]]. now left.
  - assert (Hab : a <> b).
    { inversion N1 as [|? ? Ha _]; subst. intros ->. apply Ha. now left. }
    assert (Hcd : c <> d).
    { inversion N2 as [|? ? Hc _]; subst. intros ->. apply Hc. now left. }
    assert (H1 : In c [a; b]) by (apply Hsame; now left).
    assert (H2 : In d [a; b]) by (apply Hsame; right; now left).
    destruct H1 as [<-|[<-|[]]]; destruct H2 as [<-|[<-|[]]]; try congruence.
    symmetry. now apply sorted_pair_swap.
Qed.

Lemma conflict_among_pair : forall rs c,
  conflict_among rs c ->
  exists m1 m2, keys (DetectedConflict.positions c) = pair_keys m1 m2.
Proof.
  intros rs c H. induction H as [r1 r2 rest c _ Hc | r1 rest c _ IH]; [eauto | exact IH].
Qed.

Lemma conflict_among_two_keys : forall rs c,
  NoDup (map ModelResponse.model rs) -> conflict_among rs c ->
  exists m1 m2, m1 <> m2 /\ keys (DetectedConflict.positions c) = [m1; m2].
Proof.
  intros rs c Hnd H. induction H as [r1 r2 rest c Hin Hc | r1 rest c _ IH].
  - simpl in Hnd. inversion Hnd as [|? ? Hfresh _]; subst.
    exists (ModelResponse.model r1), (ModelResponse.model r2).
    assert (Hne : ModelResponse.model r1 <> ModelResponse.model r2).
    { intros Heq. apply Hfresh. rewrite Heq. now apply in_map. }
    split; [exact Hne|]. unfold conflict_between, pair_keys in Hc.
    destruct (String.eqb _ _) eqn:Heq in Hc; [|exact Hc].
    apply String.eqb_eq in Heq. congruence.
  - apply IH. simpl in Hnd. now inversion Hnd.
Qed.

Lemma same_experts_pair_key : forall rs c1 c2,
  conflict_among rs c1 -> conflict_among rs c2 ->
  same_experts c1 c2 -> pair_key c1 = pair_key c2.
Proof.
  intros rs c1 c2 H1 H2 Hsame. unfold pair_key.
  destruct (conflict_among_pair rs c1 H1) as [a [b Ha]].
  destruct (conflict_among_pair rs c2 H2) as [c [d Hc]].
  unfold same_experts in Hsame. rewrite Ha, Hc in *.
  destruct (pair_keys_short a b), (pair_keys_short c d).
  now apply sorted_same_members.
Qed.

Lemma detect_conflicts_ok : forall self,
  Forall has_response (responses self) ->
  exists conflicts discovered,
    detect_conflicts self = Ok conflicts
    /\ conflicts_of_pairs (responses self) = Ok discovered
    /\ subseq conflicts discovered
    /\ NoDup (map pair_key conflicts)
    /\ Forall (conflict_among (responses self)) conflicts
    /\ List.length conflicts <= 5.
Proof.
  intros self Hrs. unfold detect_conflicts.
  destruct (conflicts_of_pairs_ok (responses self) Hrs) as [discovered [Hd Hamong]].
  destruct (List.length (responses self) <? 2).
  - exists [], discovered.
    split; [reflexivity|]. split; [exact Hd|]. split; [apply subseq_nil_l|].
    split; [constructor|]. split; [constructor|]. simpl. lia.
  - rewrite Hd. cbn [bind].
    destruct (dedupe_conflicts_from_spec discovered []) as (H1 & _ & H3).
    exists (firstn 5 (_dedupe_conflicts discovered)), discovered.
    repeat split.
    + eapply subseq_trans; [apply subseq_firstn | exact H3].
    + rewrite <- firstn_map. apply NoDup_firstn, H1.
    + eapply subseq_Forall; [|exact Hamong].
      eapply subseq_trans; [apply subseq_firstn | exact H3].
    + apply firstn_le_length.
Qed.

(** C7: the conflicts returned by [detect_conflicts] pairwise name
    different sets of experts, are at most five, and are a subsequence of
    the conflicts in the order the pairwise comparison found them; for
    responses of pairwise different models, as the [dict] of selected models
    gives them, the [positions] of each have exactly two keys. *)
Theorem detect_conflicts_pair_cap :
  forall (self : SynthesisEngine) (rs : list ModelResponse.t),
  exists conflicts discovered,
    detect_conflicts (add_responses self rs) = Ok conflicts
    /\ conflicts_of_pairs (filter kept rs) = Ok discovered
    /\ subseq conflicts discovered
    /\ (forall i j c1 c2, i <> j ->
          nth_error conflicts i = Some c1 -> nth_error conflicts j = Some c2 ->
          ~ same_experts c1 c2)
    /\ List.length conflicts <= 5
    /\ (NoDup (map ModelResponse.model (filter kept rs)) ->
        Forall (fun c => exists m1 m2,
                  m1 <> m2 /\ keys (DetectedConflict.positions c) = [m1; m2])
               conflicts).
Proof.
  intros self rs.
  destruct (detect_conflicts_ok (add_responses self rs) (kept_has_response self rs))
    as [conflicts [discovered (H1 & H2 & H3 & H4 & H5 & H6)]].
  exists conflicts, discovered. repeat split; try assumption.
  - intros i j c1 c2 Hij Hi Hj Hsame.
    assert (Hk : pair_key c1 = pair_key c2).
    { rewrite Forall_forall in H5.
      eapply same_experts_pair_key; [| |exact Hsame]; apply H5;
        eapply nth_error_In; eassumption. }
    apply Hij. eapply (proj1 (NoDup_nth_error (map pair_key conflicts)) H4).
    + apply nth_error_Some. rewrite nth_error_map, Hi. discriminate.
    + rewrite !nth_error_map, Hi, Hj. simpl. now rewrite Hk.
  - intros Hnd. eapply Forall_impl; [|exact H5].
    intros c Hc. eapply conflict_among_two_keys; [exact Hnd | exact Hc].
Qed.

(** ** Actions *)

Lemma extract_actions_from_response_ok : forall r,
  has_response r -> exists actions, _extract_actions_from_response r = Ok actions.
Proof.
  intros r Hr. unfold _extract_actions_from_response.
  destruct (response_or_Ok TypeError r Hr) as [text [_ ->]]. cbn [bind]. eauto.
Qed.

Lemma extendM_total : forall (A B : Type) (f : A -> res (list B)) (l : list A),
  Forall (fun a => exists bs, f a = Ok bs) l -> exists cs, extendM f l = Ok cs.
Proof.
  intros A B f l H. induction H as [|a l [bs Ha] _ [cs IH]]; cbn [extendM].
  - eauto.
  - rewrite Ha, IH. cbn [bind]. eauto.
Qed.

Lemma mapM_total : forall (A B : Type) (f : A -> res B) (l : list A),
  Forall (fun a => exists b, f a = Ok b) l -> exists bs, mapM f l = Ok bs.
Proof.
  intros A B f l H. induction H as [|a l [b Ha] _ [bs IH]]; cbn [mapM].
  - eauto.
  - rewrite Ha, IH. cbn [bind]. eauto.
Qed.

Lemma groups_nonempty : forall (X : Type) (key : X -> string) (xs : list X)
    (g : list (string * list X)),
  Forall (fun kv => snd kv <> []) g ->
  Forall (fun kv => snd kv <> [])
         (fold_left (fun g a => dict_append g (key a) a) xs g).
Proof.
  intros X key xs. induction xs as [|x xs IH]; intros g Hg; simpl.
  - exact Hg.
  - apply IH. unfold dict_append. apply dict_update_Forall; [exact Hg | |]; simpl.
    + intros v _. destruct v; discriminate.
    + intros _. discriminate.
Qed.

Lemma dedupe_actions_ok : forall (so : set_order) (actions : list ActionItem.t),
  exists unique, _dedupe_actions so actions = Ok unique
                 /\ (actions = [] -> unique = []).
Proof.
  intros so actions. unfold _dedupe_actions.
  destruct actions as [|a0 actions0] eqn:Hactions.
  - exists []. split; reflexivity.
  - rewrite <- Hactions.
    match goal with
    | |- context [mapM ?f (values ?g)] =>
        destruct (mapM_total _ _ f (values g)) as [out Hout]
    end.
    + unfold values. apply Forall_map.
      eapply Forall_impl;
        [|apply (groups_nonempty _
                   (fun a => Py.lower (Py.slice_to 50 (ActionItem.action a)))
                   actions []); constructor].
      intros [k group] Hne. simpl in *. destruct group; [congruence | eauto].
    + exists out. split; [exact Hout | intros H; subst; discriminate].
Qed.

Lemma extract_actions_ok : forall (so : set_order) (self : SynthesisEngine),
  Forall has_response (responses self) ->
  exists actions, extract_actions so self = Ok actions
                  /\ (responses self = [] -> actions = [])
                  /\ List.length actions <= 10.
Proof.
  intros so self Hrs. unfold extract_actions.
  destruct (extendM_total _ _ _extract_actions_from_response (responses self)) as [found Hf].
  { eapply Forall_impl; [|exact Hrs]. apply extract_actions_from_response_ok. }
  rewrite Hf. cbn [bind].
  destruct (dedupe_actions_ok so found) as [unique [-> Hu]]. cbn [bind].
  eexists. split; [reflexivity|]. split; [|apply firstn_le_length].
  intros Hnil. rewrite Hnil in Hf. simpl in Hf. inversion Hf; subst.
  rewrite (Hu eq_refl). reflexivity.
Qed.

Lemma StronglySorted_impl : forall (A : Type) (R R' : A -> A -> Prop) (l : list A),
  (forall a b, R a b -> R' a b) -> StronglySorted R l -> StronglySorted R' l.
Proof.
  intros A R R' l HR H. induction H as [|a l Hl IH Ha]; constructor; [exact IH|].
  eapply Forall_impl; [|exact Ha]. intros b. apply HR.
Qed.

(** X4: on the responses kept by [add_responses], [extract_actions] returns
    without an exception at most ten actions, ordered by priority rank:
    high before medium before low. *)
Theorem extract_actions_ranked_and_capped :
  forall (so : set_order) (self : SynthesisEngine) (rs : list ModelResponse.t),
  exists actions,
    extract_actions so (add_responses self rs) = Ok actions
    /\ List.length actions <= 10
    /\ StronglySorted
         (fun a b => priority_order (ActionItem.priority a)
                     <= priority_order (ActionItem.priority b))
         actions.
Proof.
  intros so self rs. unfold extract_actions.
  destruct (extendM_total _ _ _extract_actions_from_response
              (responses (add_responses self rs))) as [found ->].
  { eapply Forall_impl; [|apply kept_has_response].
    apply extract_actions_from_response_ok. }
  cbn [bind]. destruct (dedupe_actions_ok so found) as [unique [-> _]]. cbn [bind].
  eexists. split; [reflexivity|]. split; [apply firstn_le_length|].
  apply StronglySorted_firstn.
  pose proof (sort_by_sorted (fun a => priority_order (ActionItem.priority a)) Nat.leb)
    as Hs.
  eapply StronglySorted_impl; [|apply Hs].
  - intros a b H. now apply Nat.leb_le.
  - intros x y H. apply Nat.leb_gt in H. apply Nat.leb_le. lia.
  - intros x y z H1 H2. apply Nat.leb_le in H1, H2. apply Nat.leb_le. lia.
Qed.

(** ** Consensus *)

Lemma Qltb_lt : forall x y : Q, Qltb x y = true <-> (x < y)%Q.
Proof.
  intros x y. unfold Qltb. rewrite negb_true_iff. split.
  - intros H. apply Qnot_le_lt. intros Hle. apply Qle_bool_iff in Hle. congruence.
  - intros H. destruct (Qle_bool y x) eqn:Hle; [|reflexivity].
    apply Qle_bool_iff in Hle. exfalso. eapply Qlt_not_le; eassumption.
Qed.

Lemma Qltb_ge : forall x y : Q, Qltb x y = false <-> (y <= x)%Q.
Proof.
  intros x y. unfold Qltb. rewrite negb_false_iff. apply Qle_bool_iff.
Qed.

Lemma py_clamp_bounds : forall x : Q,
  (0 <= py_max 0 (py_min 1 x) /\ py_max 0 (py_min 1 x) <= 1)%Q.
Proof.
  intros x. unfold py_max, py_min.
  destruct (Qltb x 1) eqn:H1.
  - apply Qltb_lt in H1. destruct (Qltb 0 x) eqn:H0.
    + apply Qltb_lt in H0. split; apply Qlt_le_weak; assumption.
    + split; [apply Qle_refl | discriminate].
  - destruct (Qltb 0 1) eqn:H0; [split; [discriminate | apply Qle_refl]|].
    discriminate.
Qed.

Lemma py_clamp_is_clamp : forall x y : Q,
  (x == y)%Q -> (py_max 0 (py_min 1 x) == clamp y 0 1)%Q.
Proof.
  intros x y Hxy. unfold py_max, py_min, clamp.
  destruct (Qltb x 1) eqn:H1; destruct (Qltb y 0) eqn:H2; destruct (Qltb 1 y) eqn:H3;
    try apply Qltb_lt in H1; try apply Qltb_ge in H1;
    try apply Qltb_lt in H2; try apply Qltb_ge in H2;
    try apply Qltb_lt in H3; try apply Qltb_ge in H3;
    rewrite Hxy in H1.
  - exfalso. apply (Qlt_irrefl 1). eapply Qlt_trans; eassumption.
  - destruct (Qltb 0 x) eqn:H0; [|reflexivity].
    apply Qltb_lt in H0. rewrite Hxy in H0. exfalso.
    apply (Qlt_irrefl 0). eapply Qlt_trans; eassumption.
  - exfalso. apply (Qlt_irrefl 1). eapply Qlt_trans; eassumption.
  - destruct (Qltb 0 x) eqn:H0; [exact Hxy|].
    apply Qltb_ge in H0. rewrite Hxy in H0. apply Qle_antisym; assumption.
  - exfalso. apply (Qlt_irrefl 0).
    eapply Qlt_trans; [|exact H2]. eapply Qlt_le_trans; [|exact H1]. reflexivity.
  - exfalso. apply (Qlt_irrefl 0).
    eapply Qlt_trans; [|exact H2]. eapply Qlt_le_trans; [|exact H1]. reflexivity.
  - reflexivity.
  - change (Qltb 0 1) with true. cbv iota. symmetry. apply Qle_antisym; assumption.
Qed.

Lemma py_sum_fold_right : forall (xs : list Q) (a : Q),
  (fold_left Qplus xs a == a + fold_right Qplus 0 xs)%Q.
Proof.
  induction xs as [|x xs IH]; intros a; simpl.
  - now rewrite Qplus_0_r.
  - rewrite IH. now rewrite Qplus_assoc.
Qed.

Lemma calculate_consensus_ok : forall (so : set_order) (self : SynthesisEngine),
  Forall has_response (responses self) ->
  exists themes conflicts score,
    extract_themes so self = Ok themes
    /\ detect_conflicts self = Ok conflicts
    /\ calculate_consensus so self = Ok score
    /\ (0 <= score <= 1)%Q
    /\ (List.length (responses self) < 2 -> score = 1%Q)
    /\ (2 <= List.length (responses self) ->
        (score == spec_consensus themes conflicts)%Q).
Proof.
  intros so self Hrs.
  destruct (extract_themes_ok so self Hrs) as [themes [Ht _]].
  destruct (detect_conflicts_ok self Hrs) as [conflicts [discovered [Hc _]]].
  unfold calculate_consensus. rewrite Ht, Hc. cbn [bind].
  destruct (List.length (responses self) <? 2) eqn:Hlen.
  - apply Nat.ltb_lt in Hlen. exists themes, conflicts, 1%Q.
    repeat split; try assumption; try discriminate. lia.
  - apply Nat.ltb_ge in Hlen. eexists themes, conflicts, _.
    split; [reflexivity|]. split; [reflexivity|]. split; [reflexivity|].
    split; [apply py_clamp_bounds|]. split; [lia|].
    intros _. apply py_clamp_is_clamp.
    unfold spec_theme_score, py_sum. rewrite py_sum_fold_right, Qplus_0_l.
    rewrite (Nat.max_comm 1). rewrite (Qmult_comm (1 # 10)). reflexivity.
Qed.

(** C5: on the responses kept by [add_responses], [calculate_consensus]
    returns a score between 0 and 1; the score is exactly 1 when fewer than
    two responses were kept, and otherwise it is, as a number, the clamp to
    [0, 1] of the mean theme confidence (the sum of the confidences over
    [max(1, |themes|)]) less 0.1 for each conflict. *)
Theorem calculate_consensus_bounds :
  forall (so : set_order) (self : SynthesisEngine) (rs : list ModelResponse.t),
  exists themes conflicts score,
    extract_themes so (add_responses self rs) = Ok themes
    /\ detect_conflicts (add_responses self rs) = Ok conflicts
    /\ calculate_consensus so (add_responses self rs) = Ok score
    /\ (0 <= score <= 1)%Q
    /\ (List.length (filter kept rs) < 2 -> score = 1%Q)
    /\ (2 <= List.length (filter kept rs) ->
        (score == spec_consensus themes conflicts)%Q).
Proof.
  intros so self rs.
  exact (calculate_consensus_ok so (add_responses self rs) (kept_has_response self rs)).
Qed.

(** ** synthesize *)

Lemma add_responses_all_kept : forall self rs,
  Forall (fun r => kept r = true) (responses (add_responses self rs)).
Proof.
  intros self rs. apply Forall_forall. intros r Hr. simpl in Hr.
  apply filter_In in Hr. exact (proj2 Hr).
Qed.

Lemma no_failures_among_kept : forall rs,
  Forall (fun r => kept r = true) rs ->
  filter (fun r => negb (is_success r)) rs = [].
Proof.
  intros rs H. induction H as [|r rs Hr _ IH]; simpl; [reflexivity|].
  unfold kept in Hr. apply andb_true_iff in Hr. destruct Hr as [-> _]. exact IH.
Qed.

Lemma synthesize_ok : forall (so : set_order) (self : SynthesisEngine)
    (question now : string),
  Forall has_response (responses self) ->
  exists themes conflicts actions score,
    extract_themes so self = Ok themes
    /\ detect_conflicts self = Ok conflicts
    /\ extract_actions so self = Ok actions
    /\ calculate_consensus so self = Ok score
    /\ synthesize so self question now
       = Ok (SynthesisResult.make question themes conflicts actions
               (fold_left (fun d r => dict_count d (ModelResponse.domain r))
                          (responses self) [])
               score
               (List.length (responses self)
                + List.length (filter (fun r => negb (is_success r)) (responses self)))
               (List.length (responses self))
               now).
Proof.
  intros so self question now Hrs.
  destruct (calculate_consensus_ok so self Hrs)
    as [themes [conflicts [score (Ht & Hc & Hs & _)]]].
  destruct (extract_actions_ok so self Hrs) as [actions [Ha _]].
  exists themes, conflicts, actions, score. repeat split; try assumption.
  unfold synthesize. rewrite Ht, Hc, Ha, Hs. reflexivity.
Qed.

(** X2: [synthesize] returns a report whose [total_models] is the number
    of kept responses, equal to [successful_models], whatever else was
    handed to [add_responses]: its second summand counts failures among
    responses that were kept for being successes. *)
Theorem synthesize_total_models_is_kept_count :
  forall (so : set_order) (self : SynthesisEngine) (rs : list ModelResponse.t)
         (question now : string),
  exists report,
    synthesize so (add_responses self rs) question now = Ok report
    /\ SynthesisResult.successful_models report = List.length (filter kept rs)
    /\ SynthesisResult.total_models report = List.length (filter kept rs).
Proof.
  intros so self rs question now.
  destruct (synthesize_ok so (add_responses self rs) question now
              (kept_has_response self rs))
    as [themes [conflicts [actions [score (_ & _ & _ & _ & ->)]]]].
  eexists. split; [reflexivity|]. split; [reflexivity|].
  cbn [SynthesisResult.total_models].
  rewrite (no_failures_among_kept _ (add_responses_all_kept self rs)).
  change (responses (add_responses self rs)) with (filter kept rs).
  apply Nat.add_0_r.
Qed.

(** ** Worked syntheses *)

(** C2 at the input of the specification's scenario: one timeout, one error
    and one success give [total_models = 1], not 3. *)
Theorem synthesize_one_of_three_total :
  exists report,
    synthesize first_seen_order (add_responses init one_of_three)
               "How do we persist events?" "2026-01-01T00:00:00" = Ok report
    /\ SynthesisResult.total_models report = 1
    /\ SynthesisResult.successful_models report = 1
    /\ List.length one_of_three = 3.
Proof.
  eexists. split; [vm_compute; reflexivity|]. repeat split.
Qed.

(** C3 fails for [extract_actions]: a single kept response yields an action. *)
Lemma extract_actions_of_one_response :
  List.length (filter kept one_of_three) = 1
  /\ exists a,
       extract_actions first_seen_order (add_responses init one_of_three) = Ok [a]
       /\ ActionItem.action a = "You should start with a WAL for durability".
Proof.
  split; [reflexivity|]. eexists. split; [vm_compute; reflexivity | reflexivity].
Qed.

(** An instance: two models that agree on one sentence and contrast on another. *)
Lemma detect_conflicts_pair_cap_witness :
  NoDup (map ModelResponse.model (filter kept two_agreeing))
  /\ exists conflicts,
       detect_conflicts (add_responses init two_agreeing) = Ok conflicts
       /\ Forall (fun c => exists m1 m2,
                    m1 <> m2 /\ keys (DetectedConflict.positions c) = [m1; m2])
                 conflicts.
Proof.
  assert (H : NoDup (map ModelResponse.model (filter kept two_agreeing))).
  { vm_compute. repeat constructor; simpl; intuition discriminate. }
  split; [exact H|].
  destruct (detect_conflicts_pair_cap init two_agreeing)
    as [conflicts [discovered (H1 & _ & _ & _ & _ & H6)]].
  exists conflicts. split; [exact H1 | exact (H6 H)].
Defined.

(** The themes of [two_agreeing]: the shared sentence, held by both. *)
Example extract_themes_two_agreeing :
  exists t,
    extract_themes first_seen_order (add_responses init two_agreeing) = Ok [t]
    /\ ExtractedTheme.theme t = "we should cache the results"
    /\ ExtractedTheme.supporting_models t = ["skill-stacker"; "skill-stack-expert"]
    /\ (ExtractedTheme.confidence t == 1)%Q.
Proof.
  eexists. split; [vm_compute; reflexivity|]. repeat split.
Qed.

Example detect_conflicts_two_agreeing :
  exists c,
    detect_conflicts (add_responses init two_agreeing) = Ok [c]
    /\ DetectedConflict.topic c = "However, memory is tight."
    /\ keys (DetectedConflict.positions c) = ["skill-stacker"; "skill-stack-expert"].
Proof.
  eexists. split; [vm_compute; reflexivity | split; reflexivity].
Qed.

(** ** The order of heap entries *)

Lemma string_ltb_lt : forall a b, String.ltb a b = true <-> String_as_OT.lt a b.
Proof.
  intros a b. rewrite <- String_as_OT.cmp_lt. unfold String.ltb, String_as_OT.cmp.
  destruct (String.compare a b); split; congruence.
Qed.

Lemma string_ltb_trans : forall a b c,
  String.ltb a b = true -> String.ltb b c = true -> String.ltb a c = true.
Proof.
  intros a b c H1 H2. apply string_ltb_lt. apply string_ltb_lt in H1, H2.
  eapply String_as_OT.lt_trans; eassumption.
Qed.

Lemma string_ltb_irrefl : forall a, String.ltb a a = false.
Proof.
  intros a. unfold String.ltb.
  assert (H : String.compare a a = Eq) by (apply String_as_OT.cmp_eq; reflexivity).
  now rewrite H.
Qed.

Lemma string_ltb_total : forall a b,
  String.ltb a b = false -> String.ltb b a = false -> a = b.
Proof.
  intros a b H1 H2. unfold String.ltb in *.
  rewrite (String.compare_antisym b a) in H2.
  destruct (String.compare a b) eqn:Hc; simpl in *; try discriminate.
  now apply String.compare_eq_iff.
Qed.

Lemma entry_ltb_key : forall a b, entry_ltb a b = true <-> key_lt (key_of a) (key_of b).
Proof.
  intros [[wa na] ra] [[wb nb] rb]. unfold entry_ltb, key_lt, key_of. simpl.
  destruct (Qeq_bool wa wb) eqn:Heq.
  - apply Qeq_bool_iff in Heq. split.
    + intros H. right. split; assumption.
    + intros [H|[_ H]]; [|exact H]. rewrite Heq in H. exfalso. eapply Qlt_irrefl, H.
  - apply Qeq_bool_neq in Heq. rewrite Qltb_lt. split.
    + intros H. now left.
    + intros [H|[H _]]; [exact H | contradiction].
Qed.

Lemma key_lt_trans : forall a b c, key_lt a b -> key_lt b c -> key_lt a c.
Proof.
  intros [wa na] [wb nb] [wc nc]. unfold key_lt. simpl.
  intros [H1|[H1 S1]] [H2|[H2 S2]].
  - left. lra.
  - left. lra.
  - left. lra.
  - right. split; [lra | eapply string_ltb_trans; eassumption].
Qed.

Lemma key_lt_irrefl : forall a, ~ key_lt a a.
Proof.
  intros [wa na]. unfold key_lt. simpl. intros [H|[_ H]].
  - lra.
  - rewrite string_ltb_irrefl in H. discriminate.
Qed.

Lemma key_lt_cases : forall a b,
  key_lt a b \/ key_lt b a \/ ((fst a == fst b)%Q /\ snd a = snd b).
Proof.
  intros [wa na] [wb nb]. unfold key_lt. simpl.
  destruct (Q_dec wa wb) as [[H|H]|H]; [now left; left | now right; left; left |].
  destruct (String.ltb na nb) eqn:H1; [now left; right|].
  destruct (String.ltb nb na) eqn:H2.
  - right. left. right. split; [now symmetry | reflexivity].
  - right. right. split; [exact H | now apply string_ltb_total].
Qed.

(** If [a] sorts before [c], any [b] is after [a] or before [c]. *)
Lemma key_lt_between : forall a b c, key_lt a c -> key_lt a b \/ key_lt b c.
Proof.
  intros a b c Hac.
  destruct (key_lt_cases a b) as [H|[H|[Hw Hn]]]; [now left | |].
  - right. eapply key_lt_trans; eassumption.
  - right. destruct a as [wa na], b as [wb nb], c as [wc nc].
    unfold key_lt in *. simpl in *. subst nb.
    destruct Hac as [H|[H S]]; [left; lra | right; split; [lra | exact S]].
Qed.

Lemma entry_ltb_trans : forall a b c,
  entry_ltb a b = true -> entry_ltb b c = true -> entry_ltb a c = true.
Proof.
  intros a b c. rewrite !entry_ltb_key. apply key_lt_trans.
Qed.

Lemma entry_ltb_between : forall a b c,
  entry_ltb a c = true -> entry_ltb a b = true \/ entry_ltb b c = true.
Proof.
  intros a b c. rewrite !entry_ltb_key. apply key_lt_between.
Qed.

(** ** heappop takes the least entry *)

Lemma select_spec : forall l x m others,
  select x l = (m, others) ->
  Permutation (x :: l) (m :: others)
  /\ Forall (fun y => entry_ltb y m = false) (x :: l).
Proof.
  induction l as [|y l IH]; intros x m others H; simpl in H.
  - inversion H; subst. split; [apply Permutation_refl|].
    constructor; [|constructor].
    destruct (entry_ltb m m) eqn:Hm; [|reflexivity].
    apply entry_ltb_key in Hm. exfalso. eapply key_lt_irrefl, Hm.
  - destruct (entry_ltb y x) eqn:Hyx.
    + destruct (select y l) as [m' others'] eqn:Hsel. inversion H; subst.
      destruct (IH y m others' Hsel) as [Hp Hall]. split.
      * eapply Permutation_trans; [apply perm_skip, Hp | apply perm_swap].
      * inversion Hall as [|? ? Hym Hl]; subst.
        constructor; [|constructor; assumption].
        destruct (entry_ltb x m) eqn:Hxm; [|reflexivity].
        rewrite (entry_ltb_trans _ _ _ Hyx Hxm) in Hym. discriminate.
    + destruct (select x l) as [m' others'] eqn:Hsel. inversion H; subst.
      destruct (IH x m others' Hsel) as [Hp Hall]. split.
      * eapply Permutation_trans; [apply perm_swap|].
        eapply Permutation_trans; [apply perm_skip, Hp | apply perm_swap].
      * inversion Hall as [|? ? Hxm Hl]; subst.
        constructor; [exact Hxm|]. constructor; [|exact Hl].
        destruct (entry_ltb y m) eqn:Hym; [|reflexivity].
        destruct (entry_ltb_between y x m Hym); congruence.
Qed.

Lemma drain_spec : forall n heap,
  List.length heap = n ->
  exists es,
    Permutation es heap
    /\ StronglySorted not_after es
    /\ drain n heap = map snd es.
Proof.
  induction n as [|n IH]; intros heap Hlen.
  - apply length_zero_iff_nil in Hlen. subst. exists []. repeat constructor.
  - destruct heap as [|x l]; [discriminate|]. simpl in Hlen.
    cbn [drain heappop]. destruct (select x l) as [m others] eqn:Hsel.
    destruct (select_spec l x m others Hsel) as [Hp Hall].
    destruct (IH others) as [es (Hes & Hs & Hd)].
    { apply Permutation_length in Hp. simpl in Hp. lia. }
    exists (m :: es). split; [|split].
    + eapply Permutation_trans; [apply perm_skip, Hes | apply Permutation_sym, Hp].
    + constructor; [exact Hs|].
      eapply Permutation_Forall; [apply Permutation_sym, Hes|].
      eapply Permutation_Forall in Hall; [|exact Hp].
      inversion Hall; subst. assumption.
    + destruct m as [[w nm] r]. rewrite Hd. reflexivity.
Qed.

(** ** The order of the output *)

Lemma precedes_key : forall r1 r2,
  precedes r1 r2 <-> key_lt (key_of (entry_of r1)) (key_of (entry_of r2)).
Proof.
  intros r1 r2. unfold precedes, key_lt, key_of, entry_of. simpl. split.
  - intros [H|[H S]]; [left; lra | right; split; [lra | exact S]].
  - intros [H|[H S]]; [left; lra | right; split; [lra | exact S]].
Qed.

Lemma precedes_asym : forall r1 r2, precedes r1 r2 -> precedes r2 r1 -> False.
Proof.
  intros r1 r2 H1 H2. apply precedes_key in H1, H2.
  eapply key_lt_irrefl, key_lt_trans; eassumption.
Qed.

Lemma sorted_perm_unique : forall (A : Type) (R : A -> A -> Prop) (l1 l2 : list A),
  (forall a b, R a b -> R b a -> False) ->
  StronglySorted R l1 -> StronglySorted R l2 -> Permutation l1 l2 -> l1 = l2.
Proof.
  intros A R l1 l2 Hasym H1. revert l2.
  induction H1 as [|a l1 Hs1 IH Ha]; intros l2 H2 Hp.
  - apply Permutation_nil in Hp. now subst.
  - destruct l2 as [|b l2]; [apply Permutation_sym, Permutation_nil in Hp; discriminate|].
    inversion H2 as [|? ? Hs2 Hb]; subst.
    assert (Hab : a = b).
    { assert (Hin1 : In a (b :: l2)) by (eapply Permutation_in; [exact Hp | now left]).
      assert (Hin2 : In b (a :: l1))
        by (eapply Permutation_in; [apply Permutation_sym, Hp | now left]).
      destruct Hin1 as [Heq|Hin1]; [now symmetry|].
      destruct Hin2 as [Heq|Hin2]; [exact Heq|].
      rewrite Forall_forall in Ha, Hb. exfalso.
      apply (Hasym a b); [apply Ha, Hin2 | apply Hb, Hin1]. }
    subst b. f_equal. apply IH; [exact Hs2|].
    eapply Permutation_cons_inv, Hp.
Qed.

Lemma heap_of_completed : forall completed h0,
  fold_left (fun h r => heappush h (entry_of r)) completed h0
  = rev (map entry_of completed) ++ h0.
Proof.
  induction completed as [|r rs IH]; intros h0; simpl; [reflexivity|].
  rewrite IH. unfold heappush. now rewrite <- app_assoc.
Qed.

Lemma collect_sorted_perm : forall completed,
  NoDup (map ModelResponse.model completed) ->
  Permutation (collect completed) completed
  /\ StronglySorted precedes (collect completed).
Proof.
  intros completed Hnd. unfold collect.
  rewrite heap_of_completed, app_nil_r.
  destruct (drain_spec (List.length (rev (map entry_of completed)))
                       (rev (map entry_of completed)) eq_refl)
    as [es (Hp & Hs & ->)].
  assert (Hp' : Permutation es (map entry_of completed)).
  { eapply Permutation_trans; [exact Hp | apply Permutation_sym, Permutation_rev]. }
  assert (Hout : Permutation (map snd es) completed).
  { eapply Permutation_trans; [apply Permutation_map, Hp'|].
    rewrite map_map. simpl. rewrite map_id. apply Permutation_refl. }
  split; [exact Hout|].
  assert (Hnd' : NoDup (map ModelResponse.model (map snd es))).
  { eapply Permutation_NoDup; [|exact Hnd].
    apply Permutation_sym, Permutation_map, Hout. }
  assert (Himg : Forall (fun e => e = entry_of (snd e)) es).
  { eapply Permutation_Forall; [apply Permutation_sym, Hp'|].
    apply Forall_forall. intros e He. apply in_map_iff in He.
    destruct He as [r [<- _]]. reflexivity. }
  clear Hp Hp' Hout Hnd. induction Hs as [|a es Hs IH Ha]; simpl; [constructor|].
  inversion Himg as [|? ? Hea Himg']; subst. simpl in Hnd'.
  inversion Hnd' as [|? ? Hfresh Hnd'']; subst.
  constructor; [apply IH; assumption|].
  apply Forall_forall. intros r Hr. apply in_map_iff in Hr. destruct Hr as [b [<- Hb]].
  rewrite Forall_forall in Ha, Himg'. specialize (Ha b Hb). specialize (Himg' b Hb).
  apply precedes_key. rewrite <- Hea, <- Himg'. unfold not_after in Ha.
  destruct (key_lt_cases (key_of a) (key_of b)) as [H|[H|[_ Hn]]]; [exact H | |].
  - apply entry_ltb_key in H. congruence.
  - exfalso. apply Hfresh. apply in_map_iff. exists (snd b). split.
    + rewrite Hea, Himg' in Hn. unfold key_of, entry_of in Hn. simpl in Hn. now symmetry.
    + now apply in_map.
Qed.

Lemma collect_perm_invariant : forall completed completed',
  NoDup (map ModelResponse.model completed) ->
  Permutation completed' completed -> collect completed' = collect completed.
Proof.
  intros completed completed' Hnd Hperm.
  destruct (collect_sorted_perm completed Hnd) as [Hp Hs].
  assert (Hnd' : NoDup (map ModelResponse.model completed')).
  { eapply Permutation_NoDup; [|exact Hnd].
    apply Permutation_sym, Permutation_map, Hperm. }
  destruct (collect_sorted_perm completed' Hnd') as [Hp' Hs'].
  apply (sorted_perm_unique _ precedes); try assumption.
  - apply precedes_asym.
  - eapply Permutation_trans; [exact Hp'|].
    eapply Permutation_trans; [exact Hperm | apply Permutation_sym, Hp].
Qed.

(** C4: for results of pairwise different models, [collect] (the heap pushes
    in completion order followed by the pops) returns the same results
    ordered by descending weight, equal weights by ascending model name; and
    it returns that same sequence for every order of completion. *)
Theorem collect_order_is_deterministic :
  forall (completed : list ModelResponse.t),
    NoDup (map ModelResponse.model completed) ->
    Permutation (collect completed) completed
    /\ StronglySorted precedes (collect completed)
    /\ (forall completed',
          Permutation completed' completed -> collect completed' = collect completed).
Proof.
  intros completed Hnd.
  destruct (collect_sorted_perm completed Hnd) as [Hp Hs].
  split; [exact Hp|]. split; [exact Hs|].
  intros completed' Hperm. now apply collect_perm_invariant.
Qed.

(** ** query_model *)

Lemma ceil_second_bounds : forall ms : Z,
  (ms <= ceil_second ms < ms + 1000)%Z /\ (ceil_second ms mod 1000 = 0)%Z.
Proof.
  intros ms. unfold ceil_second.
  pose proof (Z.div_mod (ms + 999) 1000 ltac:(lia)) as Hdm.
  pose proof (Z.mod_pos_bound (ms + 999) 1000 ltac:(lia)) as Hb.
  split; [lia|]. apply Z.mod_mul. lia.
Qed.

Lemma deadline_bounds : forall now total when : Z,
  deadline now total = Some when ->
  (0 < total)%Z
  /\ (now + total * 1000 <= when < now + total * 1000 + 1000)%Z
  /\ ((total < 5)%Z -> when = (now + total * 1000)%Z).
Proof.
  intros now total when. unfold deadline.
  destruct (total <=? 0)%Z eqn:H0; [discriminate|]. apply Z.leb_gt in H0.
  destruct (5 <=? total)%Z eqn:H5; intros H; inversion H; subst when; clear H.
  - apply Z.leb_le in H5.
    destruct (ceil_second_bounds (now + total * 1000)) as [Hc _]. lia.
  - lia.
Qed.

Lemma deadline_armed : forall now total : Z,
  (0 < total)%Z -> exists when, deadline now total = Some when.
Proof.
  intros now total H. unfold deadline.
  destruct (total <=? 0)%Z eqn:H0; [apply Z.leb_le in H0; lia|]. eexists. reflexivity.
Qed.

Lemma session_post_overdue : forall net name prompt total,
  overdue (net name prompt) total ->
  exists elapsed, session_post net name prompt total = (PostTimeoutError, elapsed).
Proof.
  intros net name prompt total. unfold overdue, session_post.
  destruct (deadline (sent_ms (net name prompt)) total) as [when|]; [|intros []].
  intros H. apply Z.ltb_lt in H. rewrite H. eexists. reflexivity.
Qed.

Lemma session_post_in_time : forall net name prompt total,
  ~ overdue (net name prompt) total ->
  session_post net name prompt total
  = match answer (net name prompt) with
    | Refuses msg => (PostClientError msg, latency_ms (net name prompt))
    | Responds resp => (PostResponse resp, latency_ms (net name prompt))
    end.
Proof.
  intros net name prompt total. unfold overdue, session_post.
  destruct (deadline (sent_ms (net name prompt)) total) as [when|]; [|reflexivity].
  intros H. apply Z.nlt_ge, Z.ltb_ge in H. now rewrite H.
Qed.

Lemma overdue_dec : forall ep total, overdue ep total \/ ~ overdue ep total.
Proof.
  intros ep total. unfold overdue.
  destruct (deadline (sent_ms ep) total) as [when|]; [lia | now right].
Qed.

Lemma in_time_not_overdue : forall ep total,
  (latency_ms ep <= total * 1000)%Z -> ~ overdue ep total.
Proof.
  intros ep total Hfast. unfold overdue.
  destruct (deadline (sent_ms ep) total) as [when|] eqn:Hd; [|tauto].
  destruct (deadline_bounds _ _ _ Hd) as (_ & Hw & _). lia.
Qed.

Lemma query_model_posts_once : forall net ui name prompt config,
  posts (fst (query_model net ui name prompt config))
  = [Post name prompt (Config.timeout config)].
Proof.
  intros net ui name prompt config. unfold query_model.
  destruct (session_post net name prompt (Config.timeout config)) as [outcome elapsed].
  destruct outcome as [|msg|resp].
  - destruct ui; reflexivity.
  - destruct ui; reflexivity.
  - destruct (negb (ClientResponse.status resp =? 200)%Z);
      [destruct (ClientResponse.text resp); destruct ui; reflexivity|].
    destruct (ClientResponse.json resp); destruct ui; reflexivity.
Qed.

Lemma query_model_in_time_status : forall net ui name prompt config result,
  ~ overdue (net name prompt) (Config.timeout config) ->
  snd (query_model net ui name prompt config) = Ok result ->
  ModelResponse.status result = "success" \/ ModelResponse.status result = "error".
Proof.
  intros net ui name prompt config result Hnot. unfold query_model.
  rewrite (session_post_in_time _ _ _ _ Hnot).
  destruct (answer (net name prompt)) as [msg|resp].
  - cbn [snd]. intros [= <-]. now right.
  - destruct (negb (ClientResponse.status resp =? 200)%Z).
    + destruct (ClientResponse.text resp); cbn [snd]; [|discriminate].
      intros [= <-]. now right.
    + destruct (ClientResponse.json resp); cbn [snd]; try discriminate;
        intros [= <-]; [now left | now right].
Qed.

(** C8, as the code has it.  When the timer of the call is due before the
    answer is there, the call ends with status ["timeout"], no response and
    the error text ["Timeout after <timeout>s"], the budget in seconds; it
    sent its request once.  The timer is that of aiohttp: for a positive
    [timeout] it is due [timeout] seconds after the request left, moved up
    to the next whole second of the loop clock when [timeout] is 5 or more.
    So a call with a positive [timeout] times out whenever the exchange
    lasts a full second longer than [timeout], and with a [timeout] under 5
    as soon as it lasts longer than [timeout]; it never times out sooner
    than [timeout], and with a [timeout] of 0 or less, for which no timer
    is armed, it never times out at all. *)
Theorem query_model_timeout :
  forall (net : network) (ui : bool) (name prompt : string) (config : Config.t),
    (overdue (net name prompt) (Config.timeout config) ->
     exists result,
       snd (query_model net ui name prompt config) = Ok result
       /\ ModelResponse.model result = name
       /\ ModelResponse.status result = "timeout"
       /\ ModelResponse.response result = None
       /\ ModelResponse.error result
          = Some ("Timeout after " ++ Py.str_int (Config.timeout config) ++ "s")%string
       /\ posts (fst (query_model net ui name prompt config))
          = [Post name prompt (Config.timeout config)])
    /\ ((0 < Config.timeout config)%Z ->
        ((Config.timeout config + 1) * 1000 <= latency_ms (net name prompt))%Z ->
        overdue (net name prompt) (Config.timeout config))
    /\ ((0 < Config.timeout config < 5)%Z ->
        (Config.timeout config * 1000 < latency_ms (net name prompt))%Z ->
        overdue (net name prompt) (Config.timeout config))
    /\ (overdue (net name prompt) (Config.timeout config) ->
        (0 < Config.timeout config)%Z
        /\ (Config.timeout config * 1000 < latency_ms (net name prompt))%Z)
    /\ (~ overdue (net name prompt) (Config.timeout config) ->
        forall result,
          snd (query_model net ui name prompt config) = Ok result ->
          ModelResponse.status result <> "timeout").
Proof.
  intros net ui name prompt config. split; [|split; [|split; [|split]]].
  - intros Hslow.
    pose proof (query_model_posts_once net ui name prompt config) as Hposts.
    destruct (session_post_overdue _ _ _ _ Hslow) as [elapsed Hpost].
    unfold query_model in *. rewrite Hpost in *.
    eexists. split; [reflexivity|]. repeat split. exact Hposts.
  - intros Hpos Hlate. unfold overdue.
    destruct (deadline_armed (sent_ms (net name prompt)) _ Hpos) as [when Hd].
    rewrite Hd. destruct (deadline_bounds _ _ _ Hd) as (_ & Hw & _). lia.
  - intros Hsmall Hlate. unfold overdue.
    destruct (deadline_armed (sent_ms (net name prompt)) (Config.timeout config))
      as [when Hd]; [lia|].
    rewrite Hd. destruct (deadline_bounds _ _ _ Hd) as (_ & _ & Hw).
    rewrite Hw; lia.
  - unfold overdue.
    destruct (deadline (sent_ms (net name prompt)) (Config.timeout config))
      as [when|] eqn:Hd; [|intros []].
    destruct (deadline_bounds _ _ _ Hd) as (Hpos & Hw & _). lia.
  - intros Hnot result Hres.
    destruct (query_model_in_time_status _ _ _ _ _ _ Hnot Hres) as [-> | ->];
      discriminate.
Qed.

Lemma query_model_readable : forall net ui name prompt config,
  readable (net name prompt) ->
  exists r, snd (query_model net ui name prompt config) = Ok r
            /\ result_for name config r.
Proof.
  intros net ui name prompt config Hread.
  destruct (overdue_dec (net name prompt) (Config.timeout config)) as [Hslow|Hfast].
  - destruct (session_post_overdue _ _ _ _ Hslow) as [elapsed Hpost].
    unfold query_model. rewrite Hpost.
    eexists. split; [reflexivity|]. unfold result_for. simpl.
    repeat split. right. repeat split; [now right | discriminate].
  - unfold query_model. rewrite (session_post_in_time _ _ _ _ Hfast).
    unfold readable in Hread.
    destruct (answer (net name prompt)) as [msg|resp].
    + eexists. split; [reflexivity|]. unfold result_for. simpl.
      repeat split. right. repeat split; [now left | discriminate].
    + destruct (ClientResponse.status resp =? 200)%Z eqn:Hst; cbn [negb].
      * destruct (ClientResponse.json resp) as [member| | | |msg];
          try contradiction.
        -- eexists. split; [reflexivity|]. unfold result_for. simpl.
           repeat split. left. repeat split.
        -- eexists. split; [reflexivity|]. unfold result_for. simpl.
           repeat split. right. repeat split; [now left | discriminate].
      * destruct (ClientResponse.text resp) as [error_text|]; [|congruence].
        eexists. split; [reflexivity|]. unfold result_for. simpl.
        repeat split. right. repeat split; [now left | discriminate].
Qed.

Lemma query_model_malformed : forall net ui name prompt config,
  (latency_ms (net name prompt) <= Config.timeout config * 1000)%Z ->
  malformed (net name prompt) ->
  exists e, snd (query_model net ui name prompt config) = Raise e.
Proof.
  intros net ui name prompt config Hfast [resp (Ha & Hst & Hj)].
  unfold query_model.
  rewrite (session_post_in_time _ _ _ _ (in_time_not_overdue _ _ Hfast)).
  rewrite Ha, Hst. cbn [negb Z.eqb Pos.eqb].
  destruct Hj as [->| ->]; eexists; reflexivity.
Qed.

(** ** consult *)

Lemma await_all_mapM : forall net ui question order,
  await_all net ui question order = mapM (result_of net ui question) order.
Proof.
  intros net ui question order. induction order as [|[name config] rest IH]; simpl.
  - reflexivity.
  - unfold result_of at 1. simpl. now rewrite IH.
Qed.

Lemma mapM_perm : forall (A B : Type) (f : A -> res B) (l l' : list A) (bs : list B),
  Permutation l l' -> mapM f l = Ok bs ->
  exists bs', mapM f l' = Ok bs' /\ Permutation bs bs'.
Proof.
  intros A B f l l' bs Hp. revert bs.
  induction Hp as [|x l l' Hp IH|x y l|l l' l'' Hp1 IH1 Hp2 IH2]; intros bs H.
  - exists bs. split; [exact H | apply Permutation_refl].
  - cbn [mapM] in *. destruct (f x) as [b|e]; [|discriminate]. cbn [bind] in *.
    destruct (mapM f l) as [cs|e] eqn:Hl; [|discriminate]. cbn [bind] in H.
    inversion H; subst. destruct (IH cs eq_refl) as [cs' [-> Hcs]].
    cbn [bind]. eexists. split; [reflexivity | now apply perm_skip].
  - cbn [mapM] in *. destruct (f y) as [b|e]; [|discriminate]. cbn [bind] in *.
    destruct (f x) as [c|e]; [|discriminate]. cbn [bind] in *.
    destruct (mapM f l) as [cs|e]; [|discriminate]. cbn [bind] in *.
    inversion H; subst. eexists. split; [reflexivity | apply perm_swap].
  - destruct (IH1 bs H) as [bs' [H' Hp']].
    destruct (IH2 bs' H') as [bs'' [H'' Hp'']].
    exists bs''. split; [exact H'' | eapply Permutation_trans; eassumption].
Qed.

Lemma mapM_Forall2 : forall (A B : Type) (f : A -> res B) (P : A -> B -> Prop)
    (l : list A),
  Forall (fun a => exists b, f a = Ok b /\ P a b) l ->
  exists bs, mapM f l = Ok bs /\ Forall2 P l bs.
Proof.
  intros A B f P l H. induction H as [|a l [b [Ha Hb]] _ [bs [IH1 IH2]]]; cbn [mapM].
  - exists []. split; [reflexivity | constructor].
  - rewrite Ha, IH1. cbn [bind]. eexists. split; [reflexivity | now constructor].
Qed.

Lemma mapM_raises : forall (A B : Type) (f : A -> res B) (l : list A) (a : A),
  In a l -> (exists e, f a = Raise e) -> exists e, mapM f l = Raise e.
Proof.
  intros A B f l a Hin [e He]. induction l as [|x l IH]; [destruct Hin|].
  cbn [mapM]. destruct (f x) as [b|e'] eqn:Hx; cbn [bind].
  - destruct Hin as [->|Hin]; [congruence|].
    destruct (IH Hin) as [e'' ->]. cbn [bind]. eexists. reflexivity.
  - eexists. reflexivity.
Qed.

Lemma Forall2_right_In : forall (A B : Type) (P : A -> B -> Prop)
    (l : list A) (bs : list B),
  Forall2 P l bs -> Forall (fun b => exists a, In a l /\ P a b) bs.
Proof.
  intros A B P l bs H. induction H as [|a b l bs Hab _ IH]; constructor.
  - exists a. split; [now left | exact Hab].
  - eapply Forall_impl; [|exact IH]. intros b' [a' [Hin Hp]].
    exists a'. split; [now right | exact Hp].
Qed.

Lemma results_name_their_tasks : forall (order : list task) (rs : list ModelResponse.t),
  Forall2 (fun t r => result_for (fst t) (snd t) r) order rs ->
  map ModelResponse.model rs = keys order.
Proof.
  intros order rs H. induction H as [|t r order rs (Hm & _) _ IH]; simpl.
  - reflexivity.
  - now rewrite Hm, IH.
Qed.

(** X1: with a positive [max_concurrent], named-apart models and endpoints
    that each refuse the request, answer 200 with a JSON object or with a
    body not served as JSON, or answer another status with a body that is
    text, [consult] returns one result per model, each the result of that
    model's call, heaviest first, and the same list whatever the order of
    completion and whatever the timeouts. *)
Theorem consult_returns_one_result_per_model :
  forall (net : network) (sched : scheduler) (question : string)
         (models : list task) (ui : bool) (max_concurrent : Z),
    (1 <= max_concurrent)%Z ->
    NoDup (keys models) ->
    (forall t, In t models -> readable (net (fst t) question)) ->
    exists results,
      consult net sched question models ui max_concurrent = Returns results
      /\ List.length results = List.length models
      /\ Permutation (map ModelResponse.model results) (keys models)
      /\ Forall (fun r => exists t, In t models /\ result_for (fst t) (snd t) r) results
      /\ StronglySorted precedes results
      /\ (forall sched',
            consult net sched' question models ui max_concurrent = Returns results).
Proof.
  intros net sched question models ui k Hk Hnd Hread.
  assert (Hrun : forall s : scheduler,
            exists rs, await_all net ui question (completion s models) = Ok rs
                       /\ Forall2 (fun t r => result_for (fst t) (snd t) r)
                                  (completion s models) rs).
  { intros s. rewrite await_all_mapM. apply mapM_Forall2.
    apply Forall_forall. intros t Ht. apply query_model_readable, Hread.
    eapply Permutation_in; [apply completion_perm | exact Ht]. }
  assert (Hcons : forall s rs,
            await_all net ui question (completion s models) = Ok rs ->
            models <> [] ->
            consult net s question models ui k = Returns (collect rs)).
  { intros s rs Hrs Hne. unfold consult.
    destruct (k <? 0)%Z eqn:H0; [apply Z.ltb_lt in H0; lia|].
    destruct models as [|t0 models0]; [congruence|].
    destruct (k =? 0)%Z eqn:H1; [apply Z.eqb_eq in H1; lia|].
    now rewrite Hrs. }
  destruct models as [|t0 models0] eqn:Hmodels.
  { exists []. unfold consult. destruct (k <? 0)%Z eqn:H0; [apply Z.ltb_lt in H0; lia|].
    repeat split; constructor. }
  rewrite <- Hmodels in *.
  assert (Hne : models <> []) by (rewrite Hmodels; discriminate).
  destruct (Hrun sched) as [rs [Hrs Hfor]].
  assert (Hnames : map ModelResponse.model rs = keys (completion sched models))
    by (apply results_name_their_tasks, Hfor).
  assert (Hkeys : Permutation (keys (completion sched models)) (keys models))
    by (apply Permutation_map, completion_perm).
  assert (Hndrs : NoDup (map ModelResponse.model rs)).
  { rewrite Hnames. eapply Permutation_NoDup; [apply Permutation_sym, Hkeys | exact Hnd]. }
  destruct (collect_sorted_perm rs Hndrs) as [Hperm Hsorted].
  exists (collect rs). split; [apply Hcons; assumption|]. split; [|split; [|split; [|split]]].
  - rewrite (Permutation_length Hperm).
    rewrite <- (length_map ModelResponse.model), Hnames.
    unfold keys. rewrite length_map. apply Permutation_length, completion_perm.
  - eapply Permutation_trans; [apply Permutation_map, Hperm|].
    rewrite Hnames. exact Hkeys.
  - eapply Permutation_Forall; [apply Permutation_sym, Hperm|].
    eapply Forall_impl; [|apply (Forall2_right_In _ _ _ _ _ Hfor)].
    intros r [t [Ht Htr]]. exists t. split; [|exact Htr].
    eapply Permutation_in; [apply completion_perm | exact Ht].
  - exact Hsorted.
  - intros s'. destruct (Hrun s') as [rs' [Hrs' _]].
    rewrite (Hcons s' rs' Hrs' Hne). f_equal.
    rewrite await_all_mapM in Hrs, Hrs'.
    destruct (mapM_perm _ _ _ _ (completion s' models) rs
                (Permutation_trans (completion_perm sched models)
                                   (Permutation_sym (completion_perm s' models))) Hrs)
      as [rs'' [Hrs'' Hp]].
    rewrite Hrs' in Hrs''. inversion Hrs''; subst rs''.
    apply collect_perm_invariant; [exact Hndrs | apply Permutation_sym, Hp].
Qed.

(** X3: with a positive [max_concurrent], if one selected endpoint answers
    in time with status 200 and a body that is not a JSON object, [consult]
    ends by an exception, in whatever order the calls complete. *)
Theorem consult_raises_when_malformed :
  forall (net : network) (sched : scheduler) (question : string)
         (models : list task) (ui : bool) (max_concurrent : Z) (t : task),
    (1 <= max_concurrent)%Z ->
    In t models ->
    malformed (net (fst t) question) ->
    (latency_ms (net (fst t) question) <= Config.timeout (snd t) * 1000)%Z ->
    exists e, consult net sched question models ui max_concurrent = Raises e.
Proof.
  intros net sched question models ui k t Hk Hin Hmal Hfast. unfold consult.
  destruct (k <? 0)%Z eqn:H0; [apply Z.ltb_lt in H0; lia|].
  destruct models as [|t0 models0] eqn:Hmodels; [destruct Hin|].
  rewrite <- Hmodels in *.
  destruct (k =? 0)%Z eqn:H1; [apply Z.eqb_eq in H1; lia|].
  rewrite await_all_mapM.
  destruct (mapM_raises _ _ (result_of net ui question) (completion sched models) t)
    as [e ->].
  - eapply Permutation_in; [apply Permutation_sym, completion_perm | exact Hin].
  - apply query_model_malformed; assumption.
  - eauto.
Qed.

(** ** Worked dispatches *)

(** C1 fails on a malformed payload: with one endpoint answering 200 with a
    body that is not JSON, [consult] ends by the [JSONDecodeError] of that
    call, in whatever order the two calls complete, and returns no result. *)
Theorem consult_raises_on_malformed_payload :
  forall sched : scheduler,
    consult garbled_net sched "How do we persist events?" two_technical false 4
    = Raises JSONDecodeError.
Proof.
  intros sched. unfold consult. cbn [Z.ltb Z.eqb Z.compare].
  pose proof (completion_perm sched two_technical) as Hp.
  change two_technical
    with [("llm-orchestration-ontology",
           Config.make "technical" (15 # 100) 120
                       "Multi-agent systems, orchestration patterns");
          ("prompt-engineering-expert",
           Config.make "technical" (15 # 100) 120
                       "Prompt design, debugging, optimization")] in *.
  apply Permutation_sym, Permutation_length_2_inv in Hp.
  destruct Hp as [-> | ->]; vm_compute; reflexivity.
Qed.

(** C8 fails for the text: the budget is printed in seconds with the unit
    [s], not in milliseconds. *)
Lemma query_model_timeout_in_seconds :
  exists result,
    snd (query_model slow_net false "unified-systems-architect"
                     "How do we persist events?" architect) = Ok result
    /\ ModelResponse.status result = "timeout"
    /\ ModelResponse.error result = Some "Timeout after 180s"
    /\ ModelResponse.error result <> Some "Timeout after 180000ms"
    /\ ModelResponse.error result <> Some "Timeout after 180ms".
Proof.
  eexists. split; [vm_compute; reflexivity|].
  repeat split; simpl; discriminate.
Qed.

(** An instance: the architect, budget 180 s, behind an endpoint that needs
    200 s; the request left at 52.31 s of the loop clock, so the timer is
    due at 233 s. *)
Lemma query_model_timeout_witness :
  overdue (slow_net "unified-systems-architect" "How do we persist events?")
          (Config.timeout architect)
  /\ deadline (sent_ms (slow_net "unified-systems-architect" "How do we persist events?"))
              (Config.timeout architect) = Some 233000%Z
  /\ exists result,
       snd (query_model slow_net true "unified-systems-architect"
                        "How do we persist events?" architect) = Ok result
       /\ ModelResponse.status result = "timeout"
       /\ ModelResponse.duration_ms result = 180690%Z.
Proof.
  destruct (query_model_timeout slow_net true "unified-systems-architect"
              "How do we persist events?" architect) as (H1 & H2 & _).
  assert (H : overdue (slow_net "unified-systems-architect" "How do we persist events?")
                      (Config.timeout architect))
    by (apply H2; vm_compute; [reflexivity | discriminate]).
  split; [exact H|]. split; [vm_compute; reflexivity|].
  destruct (H1 H) as [result (Hres & _ & Hst & _)].
  exists result. split; [exact Hres|]. split; [exact Hst|].
  vm_compute in Hres. inversion Hres. reflexivity.
Defined.

(** An instance: the three results of the scenario, pushed in either order. *)
Lemma collect_order_is_deterministic_witness :
  NoDup (map ModelResponse.model one_of_three)
  /\ StronglySorted precedes (collect one_of_three)
  /\ collect (rev one_of_three) = collect one_of_three.
Proof.
  assert (H : NoDup (map ModelResponse.model one_of_three)).
  { vm_compute. repeat constructor; simpl; intuition discriminate. }
  split; [exact H|].
  destruct (collect_order_is_deterministic one_of_three H) as (_ & H2 & H3).
  split; [exact H2|]. apply H3. apply Permutation_sym, Permutation_rev.
Defined.

Example collect_one_of_three :
  map ModelResponse.model (collect one_of_three)
  = ["app-architecture-expert"; "kg-traversal-expert"; "wealth-mindset"].
Proof. vm_compute. reflexivity. Qed.

(** ** The admission gate *)

Lemma gate_step_inv : forall k tasks g g',
  gate_inv k tasks g -> gate_step g g' -> gate_inv k tasks g'.
Proof.
  intros k tasks g g' [Hv Hp] Hstep. destruct Hstep; unfold gate_inv in *; simpl in *.
  - split; [lia|].
    eapply Permutation_trans; [|exact Hp].
    rewrite <- !app_assoc. apply Permutation_app_head. simpl.
    apply Permutation_sym, Permutation_middle.
  - rewrite length_app in *. simpl in *. split; [lia|].
    eapply Permutation_trans; [|exact Hp].
    apply Permutation_app_head. rewrite <- !app_assoc. apply Permutation_app_head.
    simpl. rewrite app_assoc. apply (Permutation_app_comm (f2 ++ done) [t]).
Qed.

Lemma gate_reach_inv : forall k tasks g,
  gate_reach (gate_init k tasks) g -> gate_inv k tasks g.
Proof.
  intros k tasks g H. induction H as [|g g' _ IH Hstep].
  - unfold gate_inv, gate_init. simpl. split; [lia|].
    rewrite app_nil_r. apply Permutation_refl.
  - eapply gate_step_inv; eassumption.
Qed.

(** With no slot at all nothing ever starts: [consult] with
    [max_concurrent = 0] and a call to make does not return. *)
Lemma gate_stuck_without_slots : forall (tasks : list task) (g' : gate),
  ~ gate_step (gate_init 0 tasks) g'.
Proof.
  intros tasks g' H. unfold gate_init in H. inversion H as [|? ? f1 t f2 ? Hf].
  destruct f1; discriminate.
Qed.

(** C9: in every state that the gate reaches from [max_concurrent = k] and
    the submitted calls, at most [k] calls are in flight, since free and
    taken slots add up to [k]; no call is lost; when [k] calls are in flight
    the only steps are releases, so nobody is admitted; a waiting call is
    admitted once a slot is free; and with [k >= 1] some step is possible
    until every call has finished, each step using up part of a finite
    budget. *)
Theorem gate_bounds_in_flight :
  forall (k : nat) (tasks : list task) (g : gate),
    gate_reach (gate_init k tasks) g ->
    List.length (in_flight g) <= k
    /\ value g + List.length (in_flight g) = k
    /\ Permutation (waiting g ++ in_flight g ++ finished g) tasks
    /\ (List.length (in_flight g) = k ->
        forall g', gate_step g g' ->
                   waiting g' = waiting g /\ List.length (in_flight g') < k)
    /\ (waiting g <> [] -> List.length (in_flight g) < k ->
        exists g', gate_step g g'
                   /\ List.length (waiting g') < List.length (waiting g)
                   /\ List.length (in_flight g') = S (List.length (in_flight g)))
    /\ (1 <= k -> ~ gate_final g -> exists g', gate_step g g')
    /\ (forall g', gate_step g g' ->
          2 * List.length (waiting g') + List.length (in_flight g')
          < 2 * List.length (waiting g) + List.length (in_flight g))
    /\ (gate_final g -> Permutation (finished g) tasks).
Proof.
  intros k tasks g Hreach.
  destruct (gate_reach_inv k tasks g Hreach) as [Hv Hp].
  split; [lia|]. split; [exact Hv|]. split; [exact Hp|].
  split; [|split; [|split; [|split]]].
  - intros Hfull g' Hstep. destruct Hstep; simpl in *.
    + lia.
    + rewrite length_app in *. simpl in *. split; [reflexivity | lia].
  - intros Hw Hfree. destruct g as [v w fl done]. simpl in *.
    destruct w as [|t w]; [congruence|]. destruct v as [|v]; [lia|].
    eexists. split; [apply (step_acquire v [] t w fl done)|]. simpl. lia.
  - intros Hk Hnf. destruct g as [v w fl done]. simpl in *.
    destruct fl as [|t fl].
    + destruct w as [|t w]; [exfalso; apply Hnf; split; reflexivity|].
      destruct v as [|v]; [simpl in Hv; lia|].
      eexists. apply (step_acquire v [] t w [] done).
    + eexists. apply (step_release v w [] t fl done).
  - intros g' Hstep. destruct Hstep; simpl; rewrite !length_app; simpl; lia.
  - intros [Hw Hf]. rewrite Hw, Hf in Hp. exact Hp.
Qed.

(** An instance: three calls under a cap of two, after two admissions. *)
Lemma gate_bounds_in_flight_witness :
  gate_reach (gate_init 2 three_calls) two_admitted
  /\ List.length (in_flight two_admitted) <= 2
  /\ forall g', gate_step two_admitted g' -> waiting g' = waiting two_admitted.
Proof.
  assert (H : gate_reach (gate_init 2 three_calls) two_admitted).
  { eapply reach_step; [eapply reach_step; [apply reach_here|]|].
    - apply (step_acquire 1 [] (nth 0 three_calls (EmptyString, architect))
                          (skipn 1 three_calls) [] []).
    - apply (step_acquire 0 [] (nth 1 three_calls (EmptyString, architect))
                          (skipn 2 three_calls)
                          [nth 0 three_calls (EmptyString, architect)] []). }
  split; [exact H|].
  destruct (gate_bounds_in_flight 2 three_calls two_admitted H)
    as (H1 & _ & _ & H4 & _).
  split; [exact H1|]. intros g' Hstep. apply (H4 eq_refl g' Hstep).
Defined.

(** An instance: three experts whose endpoints all time out. *)
Lemma consult_returns_one_result_per_model_witness :
  (1 <= 4)%Z
  /\ NoDup (keys three_calls)
  /\ exists results,
       consult slow_net in_submission_order "How do we persist events?"
               three_calls true 4 = Returns results
       /\ List.length results = 3.
Proof.
  assert (Hk : (1 <= 4)%Z) by lia.
  assert (Hnd : NoDup (keys three_calls)).
  { vm_compute. repeat constructor; simpl; intuition discriminate. }
  split; [exact Hk|]. split; [exact Hnd|].
  destruct (consult_returns_one_result_per_model slow_net in_submission_order
              "How do we persist events?" three_calls true 4 Hk Hnd)
    as [results (H1 & H2 & _)].
  - intros t _. vm_compute. exact I.
  - exists results. split; [exact H1 | exact H2].
Defined.

(** An instance: the two technical experts, one behind a garbled endpoint. *)
Lemma consult_raises_when_malformed_witness :
  exists e,
    consult garbled_net in_submission_order "How do we persist events?"
            two_technical false 4 = Raises e.
Proof.
  apply (consult_raises_when_malformed garbled_net in_submission_order
           "How do we persist events?" two_technical false 4
           (nth 1 two_technical (EmptyString, architect))).
  - lia.
  - right. left. reflexivity.
  - eexists. split; [reflexivity|]. split; [reflexivity | now left].
  - vm_compute. discriminate.
Defined.

(** * Properties of the routing and of the report *)

(** ** Domain routing *)

Lemma distinctb_NoDup : forall l, distinctb l = true -> NoDup l.
Proof.
  induction l as [|x l IH]; simpl; intros H; [constructor|].
  apply andb_true_iff in H. destruct H as [Hx Hl].
  constructor; [|apply IH, Hl].
  apply negb_true_iff in Hx. intros Hin.
  assert (Hm : Py.mem x l = true).
  { unfold Py.mem. apply existsb_exists. exists x. split; [exact Hin | apply String.eqb_refl]. }
  congruence.
Qed.

Lemma mem_true_In : forall x xs, Py.mem x xs = true <-> In x xs.
Proof.
  intros x xs. unfold Py.mem. rewrite existsb_exists. split.
  - intros [y [Hy Heq]]. apply String.eqb_eq in Heq. now subst.
  - intros H. exists x. split; [assumption | apply String.eqb_refl].
Qed.

Lemma set_add_In : forall x y s, In y (set_add x s) <-> y = x \/ In y s.
Proof.
  intros x y s. unfold set_add. destruct (Py.mem x s) eqn:Hm.
  - apply mem_true_In in Hm. split; [auto|]. intros [->|H]; assumption.
  - rewrite in_app_iff. simpl. split; [intros [H|[H|[]]]; auto | intros [H|H]; auto].
Qed.

Lemma set_add_NoDup : forall x s, NoDup s -> NoDup (set_add x s).
Proof.
  intros x s H. unfold set_add. destruct (Py.mem x s) eqn:Hm; [exact H|].
  apply NoDup_app; [exact H | repeat constructor; intros [] |].
  intros y Hy [<-|[]]. apply mem_true_In in Hy. congruence.
Qed.

Lemma detected_fold : forall (P : list string -> bool) (tbl : list (string * list string))
    (acc : list string),
  NoDup (acc ++ keys tbl) ->
  fold_left (fun detected '(domain, keywords) =>
               if P keywords then set_add domain detected else detected) tbl acc
  = acc ++ map fst (filter (fun '(_, keywords) => P keywords) tbl).
Proof.
  intros P tbl. induction tbl as [|[d kws] tbl IH]; intros acc Hnd;
    cbn [fold_left filter map fst].
  - now rewrite app_nil_r.
  - unfold keys in Hnd. cbn [map fst] in Hnd. fold (keys tbl) in Hnd.
    destruct (P kws); cbn [map fst].
    + assert (Hd : Py.mem d acc = false).
      { destruct (Py.mem d acc) eqn:Hm; [|reflexivity].
        apply mem_true_In in Hm. apply NoDup_remove_2 in Hnd.
        exfalso. apply Hnd. apply in_or_app. now left. }
      change (set_add d acc) with (if Py.mem d acc then acc else acc ++ [d]).
      rewrite Hd. rewrite IH.
      * now rewrite <- app_assoc.
      * rewrite <- app_assoc. exact Hnd.
    + apply IH. eapply NoDup_remove_1, Hnd.
Qed.

Lemma hits_facts : forall question,
  NoDup (hits question)
  /\ incl (hits question) ["technical"; "wealth"; "tax"; "personal"; "utility"]
  /\ fold_left (fun detected '(domain, keywords) =>
                  if existsb (fun keyword => Py.contains keyword (Py.lower question))
                             keywords
                  then set_add domain detected else detected)
               DOMAIN_KEYWORDS []
     = hits question.
Proof.
  intros question.
  assert (Hk : NoDup (keys DOMAIN_KEYWORDS)) by (apply distinctb_NoDup; reflexivity).
  assert (Hsub : forall (f : string * list string -> bool),
             incl (map fst (filter f DOMAIN_KEYWORDS)) (keys DOMAIN_KEYWORDS)).
  { intros f x Hx. apply in_map_iff in Hx. destruct Hx as [kv [<- Hkv]].
    apply filter_In in Hkv. apply in_map, Hkv. }
  split; [|split].
  - unfold hits. generalize DOMAIN_KEYWORDS Hk. clear.
    induction l as [|[d kws] l IH]; simpl; intros Hnd; [constructor|].
    inversion Hnd as [|? ? Hd Hl]; subst.
    destruct (existsb _ kws); [|apply IH, Hl].
    simpl. constructor; [|apply IH, Hl].
    intros Hin. apply Hd. apply in_map_iff in Hin. destruct Hin as [kv [<- Hkv]].
    apply filter_In in Hkv. apply in_map, Hkv.
  - apply Hsub.
  - apply (detected_fold (existsb (fun keyword =>
                                     Py.contains keyword (Py.lower question)))
                         DOMAIN_KEYWORDS []).
    exact Hk.
Qed.

Lemma detect_domains_cases : forall question,
  detect_domains question
  = match hits question with
    | [] => if 20 <? List.length (Py.split question)
            then ["meta"] else ["technical"; "meta"]
    | [h] => if 20 <? List.length (Py.split question) then [h; "meta"] else [h]
    | hs => hs ++ ["meta"]
    end.
Proof.
  intros question. unfold detect_domains.
  destruct (hits_facts question) as (Hnd & Hincl & ->).
  assert (Hmem : Py.mem "meta" (hits question) = false).
  { destruct (Py.mem "meta" (hits question)) eqn:Hm; [|reflexivity].
    apply mem_true_In in Hm. apply Hincl in Hm. simpl in Hm. intuition discriminate. }
  change (set_add "meta" (hits question))
    with (if Py.mem "meta" (hits question)
          then hits question else hits question ++ ["meta"]).
  rewrite Hmem.
  destruct (hits question) as [|h [|h' hs]].
  - destruct (20 <? List.length (Py.split question)); reflexivity.
  - destruct (20 <? List.length (Py.split question)); reflexivity.
  - reflexivity.
Qed.

Lemma hits_not_meta : forall question, ~ In "meta" (hits question).
Proof.
  intros question H. destruct (hits_facts question) as (_ & Hincl & _).
  apply Hincl in H. simpl in H. intuition discriminate.
Qed.

Lemma hits_in_DOMAINS : forall question, incl (hits question) DOMAINS.
Proof.
  intros question x H. destruct (hits_facts question) as (_ & Hincl & _).
  apply Hincl in H. unfold DOMAINS. simpl in *. tauto.
Qed.

(** X6: [detect_domains] never returns an empty set; what it returns has no
    repetition and only domain names; it holds every domain one of whose
    keywords occurs in the lowercased question, and ["meta"] exactly unless
    one single domain matched in a question of at most 20 words; any other
    member matched, or is the default ["technical"] of a question of at most
    20 words in which nothing matched.  A longer question in which nothing
    matched gets ["meta"] alone. *)
Theorem detect_domains_routing :
  forall question : string,
    detect_domains question <> []
    /\ NoDup (detect_domains question)
    /\ incl (detect_domains question) DOMAINS
    /\ incl (hits question) (detect_domains question)
    /\ (In "meta" (detect_domains question)
        <-> ~ (List.length (hits question) = 1
               /\ List.length (Py.split question) <= 20))
    /\ (forall domain,
          In domain (detect_domains question) -> domain <> "meta" ->
          In domain (hits question)
          \/ (domain = "technical" /\ hits question = []
              /\ List.length (Py.split question) <= 20))
    /\ (hits question = [] -> 20 < List.length (Py.split question) ->
        detect_domains question = ["meta"]).
Proof.
  intros question. rewrite (detect_domains_cases question).
  pose proof (hits_not_meta question) as Hmeta.
  pose proof (hits_in_DOMAINS question) as Hdom.
  destruct (hits_facts question) as (Hnd & _ & _).
  assert (Happ : forall l, NoDup l -> ~ In "meta" l -> NoDup (l ++ ["meta"])).
  { intros l Hl Hm. apply NoDup_app; [exact Hl | repeat constructor; intros [] |].
    intros x Hx [<-|[]]. contradiction. }
  assert (Hm0 : In "meta" DOMAINS) by (unfold DOMAINS; simpl; tauto).
  assert (Ht0 : In "technical" DOMAINS) by (unfold DOMAINS; simpl; tauto).
  destruct (20 <? List.length (Py.split question)) eqn:Hlong;
    [apply Nat.ltb_lt in Hlong | apply Nat.ltb_ge in Hlong];
    destruct (hits question) as [|h [|h' hs]] eqn:Hh.
  - split; [discriminate|]. split; [repeat constructor; intros []|].
    split; [intros x [<-|[]]; exact Hm0|]. split; [intros x []|].
    split; [split; [intros _ [_ H]; lia | intros _; now left]|].
    split; [intros domain [<-|[]] Hne; congruence | reflexivity].
  - split; [discriminate|]. split; [apply (Happ [h]); assumption|].
    split; [intros x [<-|[<-|[]]]; [apply Hdom; now left | exact Hm0]|].
    split; [intros x [<-|[]]; now left|].
    split; [split; [intros _ [_ H]; lia | intros _; right; now left]|].
    split; [|discriminate].
    intros domain [<-|[<-|[]]] Hne; [left; now left | congruence].
  - split; [discriminate|]. split; [apply Happ; assumption|].
    split; [intros x Hx; apply in_app_or in Hx;
            destruct Hx as [Hx|[<-|[]]]; [apply Hdom, Hx | exact Hm0]|].
    split; [intros x Hx; apply in_or_app; now left|].
    split; [split; [intros _ [H _]; simpl in H; lia
                   | intros _; apply in_or_app; right; now left]|].
    split; [|discriminate].
    intros domain Hd Hne. left. apply in_app_or in Hd.
    destruct Hd as [Hd|[<-|[]]]; [exact Hd | congruence].
  - split; [discriminate|]. split; [repeat constructor; simpl; intuition discriminate|].
    split; [intros x [<-|[<-|[]]]; assumption|]. split; [intros x []|].
    split; [split; [intros _ [H _]; simpl in H; lia | intros _; right; now left]|].
    split; [|intros _ H; lia].
    intros domain [<-|[<-|[]]] Hne; [|congruence]. right. auto.
  - split; [discriminate|]. split; [exact Hnd|].
    split; [intros x Hx; apply Hdom, Hx|]. split; [intros x Hx; exact Hx|].
    split; [split; [intros H; contradiction | intros H; exfalso; apply H; auto]|].
    split; [|discriminate]. intros domain Hd _. now left.
  - split; [discriminate|]. split; [apply Happ; assumption|].
    split; [intros x Hx; apply in_app_or in Hx;
            destruct Hx as [Hx|[<-|[]]]; [apply Hdom, Hx | exact Hm0]|].
    split; [intros x Hx; apply in_or_app; now left|].
    split; [split; [intros _ [H _]; simpl in H; lia
                   | intros _; apply in_or_app; right; now left]|].
    split; [|discriminate].
    intros domain Hd Hne. left. apply in_app_or in Hd.
    destruct Hd as [Hd|[<-|[]]]; [exact Hd | congruence].
Qed.

(** ** Model selection *)

Lemma dict_set_fresh : forall (V : Type) (d : list (string * V)) k v,
  ~ In k (keys d) -> dict_set d k v = d ++ [(k, v)].
Proof.
  intros V d k v. unfold dict_set. induction d as [|[k' v'] d IH]; intros Hk.
  - reflexivity.
  - cbn [dict_update]. destruct (String.eqb k k') eqn:E.
    + apply String.eqb_eq in E. subst. exfalso. apply Hk. now left.
    + cbn [app]. f_equal. apply IH. intros H. apply Hk. now right.
Qed.

Lemma dict_fold_filter : forall (V : Type) (p : string * V -> bool)
    (items acc : list (string * V)),
  NoDup (keys (acc ++ items)) ->
  fold_left (fun d '(k, v) => if p (k, v) then dict_set d k v else d) items acc
  = acc ++ filter p items.
Proof.
  intros V p items. induction items as [|[k v] items IH]; intros acc Hnd.
  - cbn. now rewrite app_nil_r.
  - cbn [fold_left filter]. destruct (p (k, v)).
    + rewrite dict_set_fresh.
      * rewrite IH; [now rewrite <- app_assoc|].
        rewrite <- app_assoc. exact Hnd.
      * unfold keys in *. rewrite map_app in Hnd. cbn in Hnd.
        apply NoDup_remove_2 in Hnd. intros H. apply Hnd, in_or_app. now left.
    + apply IH. unfold keys in *. rewrite map_app in *. cbn in Hnd.
      apply NoDup_remove_1 in Hnd. exact Hnd.
Qed.

Lemma dict_of_from : forall (V : Type) (items acc : list (string * V)),
  NoDup (keys (acc ++ items)) ->
  fold_left (fun d '(k, v) => dict_set d k v) items acc = acc ++ items.
Proof.
  intros V items. induction items as [|[k v] items IH]; intros acc Hnd.
  - cbn. now rewrite app_nil_r.
  - cbn [fold_left]. rewrite dict_set_fresh.
    + rewrite IH; [now rewrite <- app_assoc|]. rewrite <- app_assoc. exact Hnd.
    + unfold keys in *. rewrite map_app in Hnd. cbn in Hnd.
      apply NoDup_remove_2 in Hnd. intros H. apply Hnd, in_or_app. now left.
Qed.

Lemma dict_of_distinct : forall (V : Type) (items : list (string * V)),
  NoDup (keys items) -> dict_of items = items.
Proof.
  intros V items Hnd. unfold dict_of. now rewrite dict_of_from.
Qed.

Lemma MODELS_keys_NoDup : NoDup (keys MODELS).
Proof. apply distinctb_NoDup. vm_compute. reflexivity. Qed.

Lemma NoDup_keys_filter : forall (V : Type) (p : string * V -> bool) l,
  NoDup (keys l) -> NoDup (keys (filter p l)).
Proof.
  intros V p l. unfold keys. induction l as [|x l IH]; intros Hnd; [constructor|].
  cbn in *. inversion Hnd as [|? ? Hx Hl]; subst. destruct (p x).
  - cbn. constructor; [|now apply IH]. intros H. apply Hx.
    apply in_map_iff in H. destruct H as (y & Hy & Hin).
    apply filter_In in Hin. apply in_map_iff. exists y. tauto.
  - now apply IH.
Qed.

Lemma selected_is_candidates : forall domains,
  fold_left (fun selected '(name, config) =>
               if Py.mem (Config.domain config) domains
               then dict_set selected name config else selected)
            MODELS []
  = candidates domains.
Proof.
  intros domains.
  exact (dict_fold_filter Config.t
           (fun t => Py.mem (Config.domain (snd t)) domains) MODELS []
           MODELS_keys_NoDup).
Qed.

Lemma slice_list_to_firstn : forall (A : Type) (n : Z) (l : list A),
  exists m, slice_list_to n l = firstn m l
            /\ ((0 <= n)%Z -> m = Z.to_nat n)
            /\ ((n < 0)%Z -> m = List.length l - Z.to_nat (- n)).
Proof.
  intros A n l. unfold slice_list_to. destruct (0 <=? n)%Z eqn:E.
  - exists (Z.to_nat n). apply Z.leb_le in E.
    split; [reflexivity|]. split; [reflexivity | lia].
  - exists (List.length l - Z.to_nat (- n)). apply Z.leb_gt in E.
    split; [reflexivity|]. split; [lia | reflexivity].
Qed.

Lemma sorted_candidates_keys : forall domains,
  NoDup (keys (sort_by by_weight Qle_bool (candidates domains))).
Proof.
  intros domains. unfold keys.
  eapply Permutation_NoDup.
  - apply Permutation_map, Permutation_sym, sort_by_perm.
  - apply (NoDup_keys_filter Config.t), MODELS_keys_NoDup.
Qed.

Lemma firstn_keys_NoDup : forall (V : Type) (n : nat) (l : list (string * V)),
  NoDup (keys l) -> NoDup (keys (firstn n l)).
Proof.
  intros V n l H. unfold keys in *. rewrite <- firstn_map. now apply NoDup_firstn.
Qed.

(** What [select_models] computes, the dicts set aside. *)
Lemma select_models_eq : forall domains max_models,
  select_models domains max_models
  = slice_list_to max_models (sort_by by_weight Qle_bool (candidates domains)).
Proof.
  intros domains max_models. unfold select_models.
  rewrite selected_is_candidates. fold by_weight.
  apply dict_of_distinct.
  destruct (slice_list_to_firstn task max_models
              (sort_by by_weight Qle_bool (candidates domains))) as (m & -> & _).
  apply firstn_keys_NoDup, sorted_candidates_keys.
Qed.

Lemma sorted_candidates : forall domains,
  StronglySorted heavier_first (sort_by by_weight Qle_bool (candidates domains)).
Proof.
  intros domains.
  eapply StronglySorted_impl;
    [|apply (sort_by_sorted by_weight Qle_bool Qle_bool_total Qle_bool_trans)].
  intros a b H. apply Qle_bool_iff in H. unfold by_weight in H. unfold heavier_first.
  apply Qopp_le_compat in H. now rewrite !Qopp_involutive in H.
Qed.

Lemma StronglySorted_app_inv : forall (A : Type) (R : A -> A -> Prop) (l1 l2 : list A),
  StronglySorted R (l1 ++ l2) -> forall a b, In a l1 -> In b l2 -> R a b.
Proof.
  intros A R l1 l2. induction l1 as [|x l1 IH]; intros H a b Ha Hb; [destruct Ha|].
  cbn in H. inversion H as [|? ? Hs Hf]; subst. destruct Ha as [<-|Ha].
  - rewrite Forall_forall in Hf. apply Hf, in_or_app. now right.
  - now apply IH.
Qed.

(** X7: whatever the domains and the bound, the models [select_models]
    returns have pairwise different names, are registry entries of the
    requested domains, stand in descending order of weight, and no candidate
    left out weighs more than a selected one.  With a bound [>= 0] it returns
    that many models, or all candidates if there are fewer; a negative bound
    leaves out that many of the lightest candidates instead. *)
Theorem select_models_takes_the_heaviest :
  forall (domains : list string) (max_models : Z),
    NoDup (keys (select_models domains max_models))
    /\ (forall t, In t (select_models domains max_models) ->
                  In t MODELS /\ In (Config.domain (snd t)) domains)
    /\ StronglySorted heavier_first (select_models domains max_models)
    /\ (forall a b, In a (select_models domains max_models) ->
                    In b (candidates domains) ->
                    ~ In b (select_models domains max_models) ->
                    heavier_first a b)
    /\ List.length (select_models domains max_models)
       = if (0 <=? max_models)%Z
         then Nat.min (Z.to_nat max_models) (List.length (candidates domains))
         else List.length (candidates domains) - Z.to_nat (- max_models).
Proof.
  intros domains max_models. rewrite select_models_eq.
  set (sorted_models := sort_by by_weight Qle_bool (candidates domains)).
  assert (Hperm : Permutation sorted_models (candidates domains))
    by apply sort_by_perm.
  destruct (slice_list_to_firstn task max_models sorted_models)
    as (m & -> & Hpos & Hneg).
  split; [apply firstn_keys_NoDup, sorted_candidates_keys|].
  split.
  { intros t Ht. rewrite <- (firstn_skipn m sorted_models) in Hperm.
    assert (Ht' : In t (firstn m sorted_models ++ skipn m sorted_models))
      by (apply in_or_app; now left).
    clear Ht. rename Ht' into Ht.
    apply (Permutation_in _ Hperm) in Ht. apply filter_In in Ht.
    destruct Ht as [Ht Hd]. split; [exact Ht | now apply mem_true_In]. }
  split; [apply StronglySorted_firstn, sorted_candidates|].
  split.
  { intros a b Ha Hb Hnb.
    apply (Permutation_in _ (Permutation_sym Hperm)) in Hb.
    rewrite <- (firstn_skipn m sorted_models) in Hb.
    apply in_app_or in Hb. destruct Hb as [Hb|Hb]; [contradiction|].
    apply (StronglySorted_app_inv task heavier_first
             (firstn m sorted_models) (skipn m sorted_models)); try assumption.
    rewrite firstn_skipn. apply sorted_candidates. }
  rewrite length_firstn, (Permutation_length Hperm).
  destruct (0 <=? max_models)%Z eqn:E.
  - apply Z.leb_le in E. now rewrite (Hpos E).
  - apply Z.leb_gt in E. rewrite (Hneg E), (Permutation_length Hperm). lia.
Qed.

Lemma of_weight_insert : forall w x l,
  of_weight w (insert_by by_weight Qle_bool x l) = of_weight w (x :: l).
Proof.
  intros w x l. induction l as [|y l IH]; [reflexivity|].
  cbn [insert_by]. destruct (Qle_bool (by_weight x) (by_weight y)) eqn:E;
    [reflexivity|].
  unfold of_weight in *. cbn [filter] in *. rewrite IH.
  destruct (Qeq_bool (Config.weight (snd x)) w) eqn:Ex;
    destruct (Qeq_bool (Config.weight (snd y)) w) eqn:Ey; try reflexivity.
  exfalso. apply Qeq_bool_iff in Ex, Ey.
  assert (H : Qle_bool (by_weight x) (by_weight y) = true).
  { apply Qle_bool_iff. unfold by_weight. rewrite Ex, Ey. apply Qle_refl. }
  congruence.
Qed.

Lemma of_weight_sort : forall w l,
  of_weight w (sort_by by_weight Qle_bool l) = of_weight w l.
Proof.
  intros w l. induction l as [|x l IH]; [reflexivity|].
  cbn [sort_by fold_right]. fold (sort_by by_weight Qle_bool l).
  rewrite of_weight_insert. unfold of_weight in *. cbn [filter]. now rewrite IH.
Qed.

(** X8: ties are broken by the order of the registry.  The selected models
    of one weight are an initial part of the candidates of that weight, taken
    in the order in which [MODELS] lists them: of two equally heavy
    candidates the one registered later is never preferred. *)
Theorem select_models_ties_in_registry_order :
  forall (domains : list string) (max_models : Z) (w : Q),
  exists left_out,
    of_weight w (candidates domains)
    = of_weight w (select_models domains max_models) ++ left_out.
Proof.
  intros domains max_models w. rewrite select_models_eq.
  destruct (slice_list_to_firstn task max_models
              (sort_by by_weight Qle_bool (candidates domains))) as (m & -> & _).
  exists (of_weight w (skipn m (sort_by by_weight Qle_bool (candidates domains)))).
  unfold of_weight at 2 3. rewrite <- filter_app, firstn_skipn.
  symmetry. apply of_weight_sort.
Qed.

Lemma architect_heaviest : forall t : task,
  In t MODELS -> (25 # 100 <= Config.weight (snd t))%Q ->
  t = ("unified-systems-architect", architect).
Proof.
  intros t Hin Hle. apply Qle_bool_iff in Hle. unfold MODELS in Hin.
  cbn [In] in Hin.
  repeat (destruct Hin as [<-|Hin];
          [first [reflexivity | vm_compute in Hle; discriminate Hle]|]).
  destruct Hin.
Qed.

Lemma every_domain_has_a_model : forall domain,
  In domain DOMAINS -> exists t, In t MODELS /\ Config.domain (snd t) = domain.
Proof.
  intros domain H. unfold DOMAINS in H. cbn [In] in H.
  assert (Hfind : forall d,
             find (fun t : task => String.eqb (Config.domain (snd t)) d) MODELS <> None ->
             exists t, In t MODELS /\ Config.domain (snd t) = d).
  { intros d Hd.
    destruct (find (fun t : task => String.eqb (Config.domain (snd t)) d) MODELS)
      as [t|] eqn:E; [|congruence].
    apply find_some in E. exists t. split; [tauto|]. now apply String.eqb_eq. }
  repeat (destruct H as [<-|H]; [apply Hfind; vm_compute; discriminate|]).
  destruct H.
Qed.

Lemma model_domains_known : forall t : task,
  In t MODELS -> In (Config.domain (snd t)) DOMAINS.
Proof.
  intros t Hin. unfold MODELS in Hin. cbn [In] in Hin.
  repeat (destruct Hin as [<-|Hin]; [unfold DOMAINS; cbn; tauto|]).
  destruct Hin.
Qed.

Lemma candidates_nil_iff : forall domains,
  candidates domains = [] <-> (forall domain, In domain domains -> ~ In domain DOMAINS).
Proof.
  intros domains. split.
  - intros Hnil domain Hd Hknown.
    destruct (every_domain_has_a_model domain Hknown) as (t & Ht & Hdom).
    assert (Hin : In t (candidates domains)).
    { apply filter_In. split; [exact Ht|]. apply mem_true_In. now rewrite Hdom. }
    rewrite Hnil in Hin. destruct Hin.
  - intros Hnone. destruct (candidates domains) as [|t l] eqn:E; [reflexivity|].
    assert (Hin : In t (candidates domains)) by (rewrite E; now left).
    apply filter_In in Hin. destruct Hin as [Ht Hd]. apply mem_true_In in Hd.
    exfalso. apply (Hnone _ Hd). now apply model_domains_known.
Qed.

Lemma select_models_nil_iff : forall domains max_models,
  (1 <= max_models)%Z ->
  (select_models domains max_models = [] <-> candidates domains = []).
Proof.
  intros domains max_models Hn. rewrite select_models_eq.
  unfold slice_list_to. destruct (0 <=? max_models)%Z eqn:E;
    [|apply Z.leb_gt in E; lia].
  pose proof (sort_by_perm by_weight Qle_bool (candidates domains)) as Hperm.
  destruct (Z.to_nat max_models) as [|m] eqn:Em; [lia|].
  split; intros H.
  - destruct (sort_by by_weight Qle_bool (candidates domains)) as [|x l];
      [|discriminate H].
    now apply Permutation_nil.
  - rewrite H. reflexivity.
Qed.

Lemma select_models_head : forall domains max_models,
  (1 <= max_models)%Z -> In "meta" domains ->
  exists rest,
    select_models domains max_models = ("unified-systems-architect", architect) :: rest.
Proof.
  intros domains max_models Hn Hmeta. rewrite select_models_eq.
  unfold slice_list_to. destruct (0 <=? max_models)%Z eqn:E;
    [|apply Z.leb_gt in E; lia].
  pose proof (sort_by_perm by_weight Qle_bool (candidates domains)) as Hperm.
  pose proof (sorted_candidates domains) as Hsorted.
  assert (Hin : In ("unified-systems-architect", architect) (candidates domains)).
  { apply filter_In. split; [now left|]. now apply mem_true_In. }
  apply (Permutation_in _ (Permutation_sym Hperm)) in Hin.
  destruct (Z.to_nat max_models) as [|m] eqn:Em; [lia|].
  destruct (sort_by by_weight Qle_bool (candidates domains)) as [|x l];
    [destruct Hin|].
  exists (firstn m l). cbn [firstn]. f_equal.
  apply architect_heaviest.
  - assert (Hx : In x (candidates domains))
      by (apply (Permutation_in _ Hperm); now left).
    apply filter_In in Hx. tauto.
  - destruct Hin as [->|Hin]; [apply Qle_refl|].
    inversion Hsorted as [|? ? _ Hf]; subst. rewrite Forall_forall in Hf.
    apply (Hf _ Hin).
Qed.

(** X9: with a bound of at least one model, [select_models] returns nothing
    only when none of the requested domains is a domain of the registry (the
    case in which [main] stops with "No models selected"); and when ["meta"]
    is requested, the first model it returns is the systems architect. *)
Theorem select_models_empty_only_for_unknown_domains :
  forall (domains : list string) (max_models : Z),
    (1 <= max_models)%Z ->
    (select_models domains max_models = []
     <-> forall domain, In domain domains -> ~ In domain DOMAINS)
    /\ (In "meta" domains ->
        exists rest,
          select_models domains max_models
          = ("unified-systems-architect", architect) :: rest).
Proof.
  intros domains max_models Hn. split.
  - rewrite (select_models_nil_iff domains max_models Hn).
    apply candidates_nil_iff.
  - apply select_models_head, Hn.
Qed.

Lemma select_models_empty_only_for_unknown_domains_witness :
  (1 <= 4)%Z
  /\ (select_models ["tax"; "meta"] 4 = []
      <-> forall domain, In domain ["tax"; "meta"] -> ~ In domain DOMAINS)
  /\ (In "meta" ["tax"; "meta"] ->
      exists rest,
        select_models ["tax"; "meta"] 4
        = ("unified-systems-architect", architect) :: rest).
Proof.
  split; [lia|].
  apply (select_models_empty_only_for_unknown_domains ["tax"; "meta"] 4). lia.
Defined.

(** X10: a question routed by [detect_domains] always gets models.  For
    every question and every bound of at least one model, the models selected
    for the detected domains are not empty, have pairwise different names (as
    [consult] needs them), and begin with the systems architect whenever
    ["meta"] was detected. *)
Theorem detected_domains_select_models :
  forall (question : string) (max_models : Z),
    (1 <= max_models)%Z ->
    select_models (detect_domains question) max_models <> []
    /\ NoDup (keys (select_models (detect_domains question) max_models))
    /\ (In "meta" (detect_domains question) ->
        exists rest,
          select_models (detect_domains question) max_models
          = ("unified-systems-architect", architect) :: rest).
Proof.
  intros question max_models Hn. split; [|split].
  - rewrite (select_models_nil_iff _ max_models Hn), candidates_nil_iff.
    intros Hnone.
    rewrite (detect_domains_cases question) in Hnone.
    pose proof (hits_in_DOMAINS question) as Hdom.
    assert (Hm0 : In "meta" DOMAINS) by (unfold DOMAINS; cbn; tauto).
    destruct (hits question) as [|h [|h' hs]].
    + destruct (20 <? List.length (Py.split question)).
      * apply (Hnone "meta"); [now left | exact Hm0].
      * apply (Hnone "meta"); [right; now left | exact Hm0].
    + apply (Hnone h).
      * destruct (20 <? List.length (Py.split question)); now left.
      * apply Hdom. now left.
    + apply (Hnone h); [now left | apply Hdom; now left].
  - rewrite select_models_eq.
    destruct (slice_list_to_firstn task max_models
                (sort_by by_weight Qle_bool (candidates (detect_domains question))))
      as (m & -> & _).
    apply firstn_keys_NoDup, sorted_candidates_keys.
  - apply select_models_head, Hn.
Qed.

Lemma detected_domains_select_models_witness :
  (1 <= 4)%Z
  /\ select_models (detect_domains "How do I deploy an api?") 4 <> []
  /\ NoDup (keys (select_models (detect_domains "How do I deploy an api?") 4))
  /\ (In "meta" (detect_domains "How do I deploy an api?") ->
      exists rest,
        select_models (detect_domains "How do I deploy an api?") 4
        = ("unified-systems-architect", architect) :: rest).
Proof.
  split; [lia|].
  apply (detected_domains_select_models "How do I deploy an api?" 4). lia.
Defined.

(** ** The report's domain coverage *)

Lemma dict_update_lookup : forall (V : Type) (d : list (string * V)) k f k',
  lookup k' (dict_update d k f)
  = if String.eqb k' k then Some (f (lookup k d)) else lookup k' d.
Proof.
  intros V d k f k'. induction d as [|[k0 v0] d IH]; cbn [dict_update lookup].
  - destruct (String.eqb k' k); reflexivity.
  - destruct (String.eqb k k0) eqn:E; cbn [lookup].
    + apply String.eqb_eq in E. subst k0. destruct (String.eqb k' k); reflexivity.
    + rewrite IH. destruct (String.eqb k' k) eqn:E'; [|reflexivity].
      apply String.eqb_eq in E'. subst k'. now rewrite E.
Qed.

Lemma dict_count_total : forall d k, dict_total (dict_count d k) = S (dict_total d).
Proof.
  intros d k. unfold dict_count, dict_total, values.
  induction d as [|[k0 v0] d IH]; cbn [dict_update map snd fold_right].
  - reflexivity.
  - destruct (String.eqb k k0); cbn [map snd fold_right]; [reflexivity|].
    rewrite IH. lia.
Qed.

Lemma lookup_None_iff : forall (V : Type) (d : list (string * V)) k,
  lookup k d = None <-> ~ In k (keys d).
Proof.
  intros V d k. induction d as [|[k0 v0] d IH]; cbn [lookup keys map fst In].
  - tauto.
  - destruct (String.eqb k k0) eqn:E.
    + apply String.eqb_eq in E. subst. split; [discriminate | tauto].
    + apply String.eqb_neq in E. unfold keys in IH. rewrite IH. split.
      * intros H [H1|H1]; [congruence | contradiction].
      * tauto.
Qed.

Lemma coverage_from : forall (rs : list ModelResponse.t) (d : list (string * nat)),
  let coverage := fold_left (fun d r => dict_count d (ModelResponse.domain r)) rs d in
  (NoDup (keys d) -> NoDup (keys coverage))
  /\ dict_total coverage = dict_total d + List.length rs
  /\ (forall domain,
        lookup domain coverage
        = match lookup domain d, count_domain domain rs with
          | None, 0 => None
          | None, n => Some n
          | Some m, n => Some (m + n)
          end).
Proof.
  induction rs as [|r rs IH]; intros d; cbn [fold_left].
  - split; [tauto|]. split; [cbn; lia|]. intros domain. unfold count_domain. cbn.
    destruct (lookup domain d); [f_equal; lia | reflexivity].
  - destruct (IH (dict_count d (ModelResponse.domain r))) as (Hnd & Htot & Hget).
    split; [|split].
    + intros H. apply Hnd. unfold dict_count. apply dict_update_keys_NoDup, H.
    + cbv zeta in Htot. rewrite Htot, dict_count_total. cbn [List.length]. lia.
    + intros domain. cbv zeta in Hget. rewrite Hget. unfold dict_count.
      rewrite dict_update_lookup. unfold count_domain. cbn [filter].
      rewrite (String.eqb_sym (ModelResponse.domain r) domain).
      destruct (String.eqb domain (ModelResponse.domain r)) eqn:E.
      * apply String.eqb_eq in E. subst domain. cbn [List.length].
        destruct (lookup (ModelResponse.domain r) d); f_equal; lia.
      * reflexivity.
Qed.

(** X11: the [domain_coverage] of a report counts the kept responses by
    domain.  Each domain is listed once; a domain is listed exactly when a
    kept response has it, with the number of such responses; and the counts
    add up to [successful_models]. *)
Theorem synthesize_domain_coverage :
  forall (so : set_order) (self : SynthesisEngine) (rs : list ModelResponse.t)
         (question now : string),
  exists report,
    synthesize so (add_responses self rs) question now = Ok report
    /\ NoDup (keys (SynthesisResult.domain_coverage report))
    /\ (forall domain,
          lookup domain (SynthesisResult.domain_coverage report)
          = match count_domain domain (filter kept rs) with
            | 0 => None
            | n => Some n
            end)
    /\ dict_total (SynthesisResult.domain_coverage report)
       = SynthesisResult.successful_models report.
Proof.
  intros so self rs question now.
  destruct (synthesize_ok so (add_responses self rs) question now
              (kept_has_response self rs))
    as (themes & conflicts & actions & score & _ & _ & _ & _ & ->).
  eexists. split; [reflexivity|]. cbn [SynthesisResult.domain_coverage
                                       SynthesisResult.successful_models].
  change (responses (add_responses self rs)) with (filter kept rs).
  destruct (coverage_from (filter kept rs) []) as (Hnd & Htot & Hget).
  split; [apply Hnd; constructor|]. split; [|exact Htot].
  intros domain. rewrite Hget. reflexivity.
Qed.

(** ** Merging of actions *)

Lemma lookup_In : forall (V : Type) (d : list (string * V)) k v,
  lookup k d = Some v -> In (k, v) d.
Proof.
  intros V d k v. induction d as [|[k0 v0] d IH]; cbn [lookup]; [discriminate|].
  destruct (String.eqb k k0) eqn:E.
  - apply String.eqb_eq in E. intros H. inversion H; subst. now left.
  - intros H. right. now apply IH.
Qed.

Lemma In_lookup : forall (V : Type) (d : list (string * V)) k v,
  NoDup (keys d) -> In (k, v) d -> lookup k d = Some v.
Proof.
  intros V d k v. induction d as [|[k0 v0] d IH]; intros Hnd Hin; [destruct Hin|].
  cbn [lookup]. unfold keys in Hnd. cbn in Hnd.
  inversion Hnd as [|? ? Hk Hd]; subst. destruct Hin as [Heq|Hin].
  - inversion Heq; subst. now rewrite String.eqb_refl.
  - destruct (String.eqb k k0) eqn:E; [|now apply IH].
    apply String.eqb_eq in E. subst. exfalso. apply Hk.
    apply in_map_iff. exists (k0, v). now split.
Qed.

Section Groups.
Context {X : Type} (key : X -> string).

Lemma groups_lookup : forall (xs : list X) (g : list (string * list X)),
  let groups := fold_left (fun g a => dict_append g (key a) a) xs g in
  (NoDup (keys g) -> NoDup (keys groups))
  /\ (forall k,
        lookup k groups
        = match lookup k g, filter (fun a => String.eqb (key a) k) xs with
          | None, [] => None
          | None, l => Some l
          | Some l0, l => Some (l0 ++ l)
          end).
Proof.
  induction xs as [|a xs IH]; intros g; cbn [fold_left].
  - split; [tauto|]. intros k. cbn [filter].
    destruct (lookup k g); [now rewrite app_nil_r | reflexivity].
  - destruct (IH (dict_append g (key a) a)) as (Hnd & Hget). cbv zeta in Hnd, Hget.
    split.
    + intros H. apply Hnd. unfold dict_append. apply dict_update_keys_NoDup, H.
    + intros k. rewrite Hget. unfold dict_append. rewrite dict_update_lookup.
      cbn [filter]. rewrite (String.eqb_sym (key a) k).
      destruct (String.eqb k (key a)) eqn:E; [|reflexivity].
      apply String.eqb_eq in E. subst k.
      destruct (lookup (key a) g); [now rewrite <- app_assoc | reflexivity].
Qed.

Lemma groups_are_classes : forall (xs : list X),
  let groups := fold_left (fun g a => dict_append g (key a) a) xs [] in
  NoDup (keys groups)
  /\ (forall k group, In (k, group) groups ->
        group = filter (fun a => String.eqb (key a) k) xs /\ group <> [])
  /\ (forall a, In a xs ->
        In (key a, filter (fun b => String.eqb (key b) (key a)) xs) groups).
Proof.
  intros xs groups. destruct (groups_lookup xs []) as (Hnd & Hget).
  fold groups in Hnd, Hget. cbn [lookup] in Hget.
  assert (Hnd' : NoDup (keys groups)) by (apply Hnd; constructor).
  split; [exact Hnd'|]. split.
  - intros k group Hin. apply (In_lookup _ _ _ _ Hnd') in Hin. rewrite Hget in Hin.
    destruct (filter (fun a => String.eqb (key a) k) xs); [discriminate|].
    inversion Hin; subst. split; [reflexivity | discriminate].
  - intros a Ha. apply lookup_In. rewrite Hget.
    destruct (filter (fun b => String.eqb (key b) (key a)) xs) eqn:E; [|reflexivity].
    assert (Hin : In a (filter (fun b => String.eqb (key b) (key a)) xs)).
    { apply filter_In. split; [exact Ha | apply String.eqb_refl]. }
    rewrite E in Hin. destruct Hin.
Qed.
End Groups.

Lemma min_from_least : forall (A : Type) (key : A -> nat) (l : list A) (best : A),
  In (min_from key best l) (best :: l)
  /\ (forall x, In x (best :: l) -> key (min_from key best l) <= key x).
Proof.
  intros A key l. induction l as [|a l IH]; intros best; cbn [min_from].
  - split; [now left|]. intros x [<-|[]]. lia.
  - destruct (IH (if key a <? key best then a else best)) as (Hin & Hle).
    destruct (key a <? key best) eqn:E;
      [apply Nat.ltb_lt in E | apply Nat.ltb_ge in E].
    + split.
      * destruct Hin as [<-|Hin]; [right; now left | right; now right].
      * intros x [<-|[<-|Hx]].
        -- specialize (Hle a (or_introl eq_refl)). lia.
        -- apply Hle. now left.
        -- apply Hle. now right.
    + split.
      * destruct Hin as [<-|Hin]; [now left | right; now right].
      * intros x [<-|[<-|Hx]].
        -- apply Hle. now left.
        -- specialize (Hle best (or_introl eq_refl)). lia.
        -- apply Hle. now right.
Qed.

Lemma Forall2_left_In : forall (A B : Type) (P : A -> B -> Prop)
    (l : list A) (bs : list B),
  Forall2 P l bs -> forall a, In a l -> exists b, In b bs /\ P a b.
Proof.
  intros A B P l bs H. induction H as [|a b l bs Hab _ IH]; intros x Hx.
  - destruct Hx.
  - destruct Hx as [<-|Hx].
    + exists b. split; [now left | exact Hab].
    + destruct (IH x Hx) as (b' & Hb' & Hp). exists b'. split; [now right | exact Hp].
Qed.

Lemma Forall2_values_keys : forall (V Y : Type) (P : V -> Y -> Prop)
    (key : Y -> string) (d : list (string * V)) (us : list Y),
  Forall2 P (values d) us ->
  (forall kv u, In kv d -> P (snd kv) u -> key u = fst kv) ->
  map key us = keys d.
Proof.
  intros V Y P key d. induction d as [|kv d IH]; intros us H Hkey;
    unfold values in H; cbn [map] in H; inversion H as [|? u ? us' Hu Hus]; subst.
  - reflexivity.
  - cbn [map keys]. f_equal.
    + apply (Hkey kv u); [now left | exact Hu].
    + apply IH; [exact Hus|]. intros kv' u' Hin. apply Hkey. now right.
Qed.

(** What [_dedupe_actions] returns. *)
Lemma dedupe_actions_spec :
  forall (so : set_order) (actions : list ActionItem.t),
  exists unique,
    _dedupe_actions so actions = Ok unique
    /\ NoDup (map action_key unique)
    /\ List.length unique <= List.length actions
    /\ (forall a, In a actions ->
          exists u, In u unique
                    /\ action_key u = action_key a
                    /\ rank u <= rank a
                    /\ incl (ActionItem.source_models a) (ActionItem.source_models u))
    /\ (forall u, In u unique ->
          NoDup (ActionItem.source_models u)
          /\ (exists best, In best actions /\ shows u best
                           /\ forall a, In a actions -> action_key a = action_key u ->
                                        rank best <= rank a)
          /\ (forall m, In m (ActionItem.source_models u) ->
                exists a, In a actions /\ action_key a = action_key u
                          /\ In m (ActionItem.source_models a))).
Proof.
  intros so actions. unfold _dedupe_actions.
  destruct actions as [|a0 actions0] eqn:Hactions.
  { exists []. split; [reflexivity|]. split; [constructor|]. split; [cbn; lia|].
    split; [intros a []|intros u []]. }
  rewrite <- Hactions. clear Hactions a0 actions0.
  change (fold_left
            (fun g a => dict_append g (Py.lower (Py.slice_to 50 (ActionItem.action a))) a)
            actions [])
    with (fold_left (fun g a => dict_append g (action_key a) a) actions []).
  destruct (groups_are_classes action_key actions) as (Hnd & Hclass & Hall).
  set (groups := fold_left (fun g a => dict_append g (action_key a) a) actions [])
    in *.
  set (P := fun (group : list ActionItem.t) (u : ActionItem.t) =>
              exists best, In best group
                /\ (forall x, In x group -> rank best <= rank x)
                /\ shows u best
                /\ ActionItem.source_models u
                   = set_list so (flat_map ActionItem.source_models group)).
  match goal with
  | |- context [mapM ?f (values groups)] =>
      destruct (mapM_Forall2 _ _ f P (values groups)) as (unique & Hout & Hmerged)
  end.
  { unfold values. apply Forall_map. apply Forall_forall. intros [k group] Hin.
    destruct (Hclass k group Hin) as (_ & Hne). cbn [snd].
    destruct group as [|a rest]; [congruence|].
    eexists. split; [reflexivity|].
    destruct (min_from_least _ (fun a => priority_order (ActionItem.priority a))
                rest a) as (Hbest & Hleast).
    exists (min_from (fun a => priority_order (ActionItem.priority a)) a rest).
    split; [exact Hbest|]. split; [exact Hleast|].
    split; [repeat split | reflexivity]. }
  assert (Hkeys : map action_key unique = keys groups).
  { apply (Forall2_values_keys _ _ P action_key groups unique Hmerged).
    intros [k group] u Hin (best & Hbest & _ & (Hact & _) & _). cbn [fst snd] in *.
    destruct (Hclass k group Hin) as (-> & _). apply filter_In in Hbest.
    destruct Hbest as [_ Hk]. apply String.eqb_eq in Hk.
    unfold action_key in *. now rewrite Hact. }
  exists unique. split; [exact Hout|]. split; [now rewrite Hkeys|].
  split; [|split].
  - rewrite <- (length_map action_key), Hkeys, <- (length_map action_key actions).
    apply NoDup_incl_length; [exact Hnd|].
    intros k Hk. unfold keys in Hk. apply in_map_iff in Hk.
    destruct Hk as ([k' group] & <- & Hin). cbn [fst].
    destruct (Hclass k' group Hin) as (-> & Hne).
    destruct (filter (fun a => String.eqb (action_key a) k') actions) as [|a l] eqn:E;
      [congruence|].
    assert (Ha : In a (filter (fun a => String.eqb (action_key a) k') actions))
      by (rewrite E; now left).
    apply filter_In in Ha. destruct Ha as [Ha Hk]. apply String.eqb_eq in Hk.
    subst k'. now apply in_map.
  - intros a Ha.
    assert (Hgroup : In (filter (fun b => String.eqb (action_key b) (action_key a)) actions)
                        (values groups)).
    { unfold values. apply in_map_iff. eexists. split; [|apply (Hall a Ha)].
      reflexivity. }
    destruct (Forall2_left_In _ _ _ _ _ Hmerged _ Hgroup)
      as (u & Hu & best & Hbest & Hleast & (Hact & Hprio & _) & Hsrc).
    assert (Hin : In a (filter (fun b => String.eqb (action_key b) (action_key a)) actions)).
    { apply filter_In. split; [exact Ha | apply String.eqb_refl]. }
    exists u. split; [exact Hu|]. split; [|split].
    + apply filter_In in Hbest. destruct Hbest as [_ Hk]. apply String.eqb_eq in Hk.
      unfold action_key in *. now rewrite Hact.
    + unfold rank in *. rewrite Hprio. now apply Hleast.
    + intros m Hm. rewrite Hsrc. apply set_list_In. apply in_flat_map.
      exists a. now split.
  - intros u Hu.
    pose proof (Forall2_right_In _ _ _ _ _ Hmerged) as Hfrom.
    rewrite Forall_forall in Hfrom.
    destruct (Hfrom u Hu)
      as (group & Hgroup & best & Hbest & Hleast & Hshows & Hsrc).
    unfold values in Hgroup. apply in_map_iff in Hgroup.
    destruct Hgroup as ([k group'] & Heq & Hin). cbn [snd] in Heq. subst group'.
    destruct (Hclass k group Hin) as (Hgroup & _).
    assert (Hk : action_key u = k).
    { rewrite Hgroup in Hbest. apply filter_In in Hbest. destruct Hbest as [_ Hk].
      apply String.eqb_eq in Hk. destruct Hshows as (Hact & _).
      unfold action_key in *. now rewrite Hact. }
    split; [rewrite Hsrc; apply set_list_NoDup|]. split.
    + exists best. split; [|split; [exact Hshows|]].
      * rewrite Hgroup in Hbest. apply filter_In in Hbest. tauto.
      * intros a Ha Hka. apply Hleast. rewrite Hgroup. apply filter_In.
        split; [exact Ha|]. apply String.eqb_eq. congruence.
    + intros m Hm. rewrite Hsrc in Hm. apply set_list_In in Hm.
      apply in_flat_map in Hm. destruct Hm as (a & Ha & Hma).
      rewrite Hgroup in Ha. apply filter_In in Ha. destruct Ha as [Ha Hka].
      apply String.eqb_eq in Hka. exists a. split; [exact Ha|].
      split; [congruence | exact Hma].
Qed.

(** X12: [_dedupe_actions] merges the actions that agree, up to case, on the
    first 50 characters of their text.  It returns without an exception one
    action per such key, no key twice; for every action found, the merged
    action of its key ranks at least as high and names all its source
    models; and every merged action shows the text, priority and domain of
    one action found, of the best rank under its key, and names no model
    twice and only models of actions found under that key. *)
Theorem dedupe_actions_merges_by_key :
  forall (so : set_order) (actions : list ActionItem.t),
  exists unique,
    _dedupe_actions so actions = Ok unique
    /\ NoDup (map action_key unique)
    /\ List.length unique <= List.length actions
    /\ (forall a, In a actions ->
          exists u, In u unique
                    /\ action_key u = action_key a
                    /\ rank u <= rank a
                    /\ incl (ActionItem.source_models a) (ActionItem.source_models u))
    /\ (forall u, In u unique ->
          NoDup (ActionItem.source_models u)
          /\ (exists best, In best actions /\ shows u best
                           /\ forall a, In a actions -> action_key a = action_key u ->
                                        rank best <= rank a)
          /\ (forall m, In m (ActionItem.source_models u) ->
                exists a, In a actions /\ action_key a = action_key u
                          /\ In m (ActionItem.source_models a))).
Proof. exact dedupe_actions_spec. Qed.

(** ** Zero or one kept response *)

(** C3, as the code has it: with at most one kept response there are no
    themes and no conflicts, the consensus is exactly 1, and every pass and
    [synthesize] return without an exception.  [extract_actions] is empty
    when nothing was kept; with one kept response it returns the action
    sentences of that response, merged by key, in the order of their
    priority and cut to the first 10, so that it is empty only when the
    response has no action sentence. *)
Theorem synthesis_of_at_most_one_response :
  forall (so : set_order) (self : SynthesisEngine) (rs : list ModelResponse.t),
    List.length (filter kept rs) <= 1 ->
    extract_themes so (add_responses self rs) = Ok []
    /\ detect_conflicts (add_responses self rs) = Ok []
    /\ calculate_consensus so (add_responses self rs) = Ok 1%Q
    /\ (exists actions,
          extract_actions so (add_responses self rs) = Ok actions
          /\ (filter kept rs = [] -> actions = [])
          /\ (forall r, filter kept rs = [r] ->
                exists found unique,
                  _extract_actions_from_response r = Ok found
                  /\ _dedupe_actions so found = Ok unique
                  /\ actions
                     = firstn 10 (sort_by (fun a => priority_order (ActionItem.priority a))
                                          Nat.leb unique)
                  /\ (actions = [] <-> found = [])))
    /\ (forall question now, exists report,
          synthesize so (add_responses self rs) question now = Ok report
          /\ SynthesisResult.themes report = []
          /\ SynthesisResult.conflicts report = []
          /\ SynthesisResult.consensus_score report = 1%Q).
Proof.
  intros so self rs Hlen.
  pose proof (kept_has_response self rs) as Hrs.
  assert (Hthemes : extract_themes so (add_responses self rs) = Ok []).
  { destruct (extract_themes_ok so _ Hrs) as [themes (Ht & Hok & _)].
    rewrite Ht. destruct themes as [|t themes]; [reflexivity|].
    inversion Hok as [|? ? (_ & H2 & _ & _ & H5) _]; subst.
    cbn [responses add_responses] in H5. fold kept in H5. lia. }
  assert (Hconf : detect_conflicts (add_responses self rs) = Ok []).
  { unfold detect_conflicts. cbn [responses add_responses]. fold kept.
    destruct (List.length (filter kept rs) <? 2) eqn:H; [reflexivity|].
    apply Nat.ltb_ge in H. lia. }
  assert (Hcons : calculate_consensus so (add_responses self rs) = Ok 1%Q).
  { unfold calculate_consensus. cbn [responses add_responses]. fold kept.
    destruct (List.length (filter kept rs) <? 2) eqn:H; [reflexivity|].
    apply Nat.ltb_ge in H. lia. }
  destruct (extract_actions_ok so _ Hrs) as [actions (Ha & Hnil & _)].
  split; [exact Hthemes|]. split; [exact Hconf|]. split; [exact Hcons|]. split.
  - exists actions. split; [exact Ha|]. split; [exact Hnil|].
    intros r Hone. unfold extract_actions in Ha.
    change (responses (add_responses self rs)) with (filter kept rs) in Ha, Hrs.
    rewrite Hone in Ha, Hrs. cbn [extendM] in Ha.
    destruct (extract_actions_from_response_ok r) as [found Hfound];
      [now inversion Hrs|].
    rewrite Hfound in Ha. cbn [bind] in Ha. rewrite app_nil_r in Ha.
    destruct (dedupe_actions_spec so found) as (unique & Hu & _ & Hshort & Hcover & _).
    rewrite Hu in Ha. cbn [bind] in Ha.
    assert (Hact : actions
                   = firstn 10 (sort_by (fun a => priority_order (ActionItem.priority a))
                                        Nat.leb unique)) by congruence.
    exists found, unique. split; [exact Hfound|]. split; [exact Hu|].
    split; [exact Hact|]. rewrite Hact.
    pose proof (sort_by_perm (fun a => priority_order (ActionItem.priority a)) Nat.leb
                             unique) as Hperm.
    split.
    + intros Hempty. destruct found as [|a found']; [reflexivity|].
      destruct (Hcover a (or_introl eq_refl)) as (u & Hin & _).
      apply (Permutation_in _ (Permutation_sym Hperm)) in Hin.
      destruct (sort_by (fun a => priority_order (ActionItem.priority a)) Nat.leb unique);
        [destruct Hin | discriminate Hempty].
    + intros ->. destruct unique as [|u unique']; [reflexivity|].
      cbn [List.length] in Hshort. lia.
  - intros question now.
    destruct (synthesize_ok so _ question now Hrs)
      as [themes [conflicts [actions' [score (H1 & H2 & _ & H4 & ->)]]]].
    eexists. split; [reflexivity|].
    cbn [SynthesisResult.themes SynthesisResult.conflicts SynthesisResult.consensus_score].
    rewrite Hthemes in H1. rewrite Hconf in H2. rewrite Hcons in H4.
    inversion H1; inversion H2; inversion H4; subst. repeat split; reflexivity.
Qed.

(** An instance: the scenario of one timeout, one error and one success,
    whose one kept response holds one action sentence. *)
Lemma synthesis_of_at_most_one_response_witness :
  List.length (filter kept one_of_three) <= 1
  /\ extract_themes first_seen_order (add_responses init one_of_three) = Ok []
  /\ detect_conflicts (add_responses init one_of_three) = Ok []
  /\ calculate_consensus first_seen_order (add_responses init one_of_three) = Ok 1%Q
  /\ exists actions,
       extract_actions first_seen_order (add_responses init one_of_three) = Ok actions
       /\ List.length actions = 1.
Proof.
  assert (H : List.length (filter kept one_of_three) <= 1) by (vm_compute; lia).
  split; [exact H|].
  destruct (synthesis_of_at_most_one_response first_seen_order init one_of_three H)
    as (H1 & H2 & H3 & (actions & H4 & _) & _).
  split; [exact H1|]. split; [exact H2|]. split; [exact H3|].
  exists actions. split; [exact H4|].
  vm_compute in H4. inversion H4. reflexivity.
Defined.

(** ** Where the themes come from *)

Lemma response_phrases_said : forall (so : set_order) (all rs : list ModelResponse.t)
    (d rp : list (string * list string)),
  incl rs all ->
  Forall (fun kv => exists r, In r all /\ ModelResponse.model r = fst kv
                              /\ forall p, In p (snd kv) -> says so r p) d ->
  response_phrases_from so d rs = Ok rp ->
  Forall (fun kv => exists r, In r all /\ ModelResponse.model r = fst kv
                              /\ forall p, In p (snd kv) -> says so r p) rp.
Proof.
  intros so all rs. induction rs as [|r rs IH]; intros d rp Hincl Hd Hrp;
    cbn [response_phrases_from] in Hrp.
  - inversion Hrp; subst. exact Hd.
  - unfold response_or in Hrp.
    destruct (ModelResponse.response r) as [text|] eqn:Htext; [|discriminate].
    cbn [bind] in Hrp. apply (IH _ _ (fun x Hx => Hincl x (or_intror Hx))) in Hrp;
      [exact Hrp|].
    unfold dict_set. apply dict_update_Forall; [exact Hd | |]; intros; cbn [fst snd];
      exists r; (split; [apply Hincl; now left|]); (split; [reflexivity|]);
      intros p Hp; exists text; now split.
Qed.

Lemma phrase_models_said : forall (all rp : list (string * list string))
    (pm : list (string * list string)),
  incl rp all ->
  Forall (fun kv => forall m, In m (snd kv) ->
            exists phrases, In (m, phrases) all /\ In (fst kv) phrases) pm ->
  Forall (fun kv => forall m, In m (snd kv) ->
            exists phrases, In (m, phrases) all /\ In (fst kv) phrases)
         (fold_left (fun pm '(model, phrases) =>
                       fold_left (fun pm phrase => dict_append pm phrase model)
                                 phrases pm)
                    rp pm).
Proof.
  intros all rp. induction rp as [|[model phrases] rp IH]; intros pm Hincl Hpm;
    cbn [fold_left]; [exact Hpm|].
  apply IH; [intros x Hx; apply Hincl; now right|].
  assert (Hin : In (model, phrases) all) by (apply Hincl; now left).
  assert (Hsub : incl phrases phrases) by apply incl_refl.
  revert Hsub Hpm. generalize phrases at 1 3 as qs. intros qs. revert pm.
  induction qs as [|q qs IHq]; intros pm Hsub Hpm; cbn [fold_left]; [exact Hpm|].
  apply IHq; [intros x Hx; apply Hsub; now right|].
  unfold dict_append. apply dict_update_Forall; [exact Hpm | |].
  - intros ms Hms m Hm. cbn [fst snd] in *. apply in_app_or in Hm.
    destruct Hm as [Hm|[<-|[]]].
    + rewrite Forall_forall in Hpm. apply (Hpm (q, ms) Hms m Hm).
    + exists phrases. split; [exact Hin | apply Hsub; now left].
  - intros _ m [<-|[]]. cbn [fst]. exists phrases.
    split; [exact Hin | apply Hsub; now left].
Qed.

Lemma themes_of_items : forall self items themes,
  themes_of self items = Ok themes ->
  Forall (fun t => In (ExtractedTheme.theme t, ExtractedTheme.supporting_models t) items)
         themes.
Proof.
  intros self items. induction items as [|[phrase models] items IH]; intros themes H;
    cbn [themes_of] in H.
  - inversion H; subst. constructor.
  - destruct (2 <=? List.length models).
    + destruct (true_div _ _) as [confidence|]; [|discriminate]. cbn [bind] in H.
      destruct (_find_evidence self phrase models) as [evidence|]; [|discriminate].
      cbn [bind] in H.
      destruct (themes_of self items) as [rest|]; [|discriminate]. cbn [bind] in H.
      inversion H; subst. constructor; [now left|].
      eapply Forall_impl; [|apply IH; reflexivity]. intros t Ht. now right.
    + eapply Forall_impl; [|apply IH, H]. intros t Ht. now right.
Qed.

(** Where [extract_themes] takes its themes from. *)
Lemma themes_said :
  forall (so : set_order) (self : SynthesisEngine) (rs : list ModelResponse.t),
  exists themes,
    extract_themes so (add_responses self rs) = Ok themes
    /\ Forall (fun t =>
                 forall m, In m (ExtractedTheme.supporting_models t) ->
                 exists r, In r (filter kept rs)
                           /\ ModelResponse.model r = m
                           /\ says so r (ExtractedTheme.theme t))
              themes.
Proof.
  intros so self rs.
  destruct (extract_themes_ok so (add_responses self rs) (kept_has_response self rs))
    as (themes & Hthemes & _).
  exists themes. split; [exact Hthemes|].
  unfold extract_themes in Hthemes.
  change (responses (add_responses self rs)) with (filter kept rs) in Hthemes.
  destruct (filter kept rs) as [|r0 rs0] eqn:Hkept.
  { inversion Hthemes; subst. constructor. }
  rewrite <- Hkept in *.
  destruct (response_phrases_from so [] (filter kept rs)) as [rp|] eqn:Hrp;
    [|discriminate].
  cbn [bind] in Hthemes.
  destruct (themes_of (add_responses self rs) (phrase_models_of rp)) as [found|] eqn:Hfound;
    [|discriminate].
  cbn [bind] in Hthemes.
  assert (Heq : themes = firstn 10 (sort_by Qneg_key Qle_bool found)) by congruence.
  rewrite Heq. clear Heq Hthemes.
  apply Forall_firstn, sort_by_Forall.
  pose proof (response_phrases_said so (filter kept rs) (filter kept rs) [] rp
                (incl_refl _) (Forall_nil _) Hrp) as Hsaid.
  pose proof (phrase_models_said rp rp [] (incl_refl _) (Forall_nil _)) as Hpm.
  fold (phrase_models_of rp) in Hpm.
  eapply Forall_impl; [|apply (themes_of_items _ _ _ Hfound)].
  intros t Ht m Hm. rewrite Forall_forall in Hpm, Hsaid.
  destruct (Hpm _ Ht m Hm) as (phrases & Hin & Hp). cbn [fst] in Hp.
  destruct (Hsaid _ Hin) as (r & Hr & Hmodel & Hsays). cbn [fst snd] in *.
  exists r. split; [exact Hr|]. split; [exact Hmodel | apply Hsays, Hp].
Qed.

(** X13: every theme is something each of its supporting models said.  For
    every theme that [extract_themes] returns on the kept responses, and
    every model named as supporting it, a kept response of that model has the
    theme among its key phrases. *)
Theorem extract_themes_are_said_by_their_models :
  forall (so : set_order) (self : SynthesisEngine) (rs : list ModelResponse.t),
  exists themes,
    extract_themes so (add_responses self rs) = Ok themes
    /\ Forall (fun t =>
                 forall m, In m (ExtractedTheme.supporting_models t) ->
                 exists r, In r (filter kept rs)
                           /\ ModelResponse.model r = m
                           /\ says so r (ExtractedTheme.theme t))
              themes.
Proof. exact themes_said. Qed.


(** ** Where the actions come from *)

Lemma extendM_In : forall (A B : Type) (f : A -> res (list B)) (l : list A)
    (out : list B),
  extendM f l = Ok out ->
  forall b, In b out <-> exists a bs, In a l /\ f a = Ok bs /\ In b bs.
Proof.
  intros A B f l. induction l as [|a l IH]; intros out H b; cbn [extendM] in H.
  - inversion H; subst. split; [intros [] | intros (a & bs & [] & _)].
  - destruct (f a) as [bs|] eqn:Ha; [|discriminate]. cbn [bind] in H.
    destruct (extendM f l) as [cs|]; [|discriminate]. cbn [bind] in H.
    inversion H; subst. rewrite in_app_iff, (IH cs eq_refl b). split.
    + intros [Hb|(a' & bs' & Hin & Hf & Hb)].
      * exists a, bs. split; [now left | now split].
      * exists a', bs'. split; [now right | now split].
    + intros (a' & bs' & [<-|Hin] & Hf & Hb).
      * left. congruence.
      * right. exists a', bs'. now split.
Qed.

Lemma extracted_names_its_model : forall r found a,
  _extract_actions_from_response r = Ok found -> In a found ->
  ActionItem.source_models a = [ModelResponse.model r].
Proof.
  intros r found a H Ha. unfold _extract_actions_from_response, response_or in H.
  destruct (ModelResponse.response r) as [text|]; [|discriminate]. cbn [bind] in H.
  assert (Hinj : forall l l' : list ActionItem.t, Ok l = Ok l' -> l = l')
    by (intros; congruence).
  apply Hinj in H. subst found. apply in_flat_map in Ha.
  destruct Ha as (sent & _ & Ha).
  destruct (find _ ACTION_INDICATORS); [|destruct Ha].
  destruct Ha as [<-|[]]. reflexivity.
Qed.

Lemma NoDup_map_inj : forall (A B : Type) (f : A -> B) (l : list A) (x y : A),
  NoDup (map f l) -> In x l -> In y l -> f x = f y -> x = y.
Proof.
  intros A B f l x y. induction l as [|a l IH]; intros Hnd Hx Hy Heq; [destruct Hx|].
  cbn in Hnd. inversion Hnd as [|? ? Ha Hl]; subst.
  destruct Hx as [<-|Hx]; destruct Hy as [<-|Hy]; try reflexivity.
  - exfalso. apply Ha. rewrite Heq. now apply in_map.
  - exfalso. apply Ha. rewrite <- Heq. now apply in_map.
  - now apply IH.
Qed.

(** X14: the actions of a report are the recommendations of the kept
    responses, and none is invented or lost unnoticed.  Every action that
    [extract_actions] returns shows the text, priority and domain of an
    action extracted from a kept response; its source models are exactly the
    models from whose kept responses an action of the same key was extracted;
    and every action extracted from a kept response is covered by a returned
    action of its key that ranks at least as high, unless ten actions are
    returned that all rank at least as high as it. *)
Theorem extract_actions_come_from_responses :
  forall (so : set_order) (self : SynthesisEngine) (rs : list ModelResponse.t),
  exists actions,
    extract_actions so (add_responses self rs) = Ok actions
    /\ (forall u, In u actions ->
          (exists m best, extracted (filter kept rs) m best /\ shows u best)
          /\ (forall m, In m (ActionItem.source_models u)
                        <-> exists a, extracted (filter kept rs) m a
                                      /\ action_key a = action_key u))
    /\ (forall m a, extracted (filter kept rs) m a ->
          (exists u, In u actions /\ action_key u = action_key a /\ rank u <= rank a)
          \/ (List.length actions = 10
              /\ forall u, In u actions -> rank u <= rank a)).
Proof.
  intros so self rs. unfold extract_actions.
  change (responses (add_responses self rs)) with (filter kept rs).
  destruct (extendM_total _ _ _extract_actions_from_response (filter kept rs))
    as [found Hfound].
  { eapply Forall_impl; [|apply (kept_has_response self rs)].
    apply extract_actions_from_response_ok. }
  rewrite Hfound. cbn [bind].
  pose proof (extendM_In _ _ _ _ _ Hfound) as Hin_found.
  destruct (dedupe_actions_spec so found)
    as (unique & -> & Hnd & _ & Hcover & Hfrom).
  cbn [bind]. fold rank.
  change (fun a : ActionItem.t => priority_order (ActionItem.priority a)) with rank.
  set (ranked := sort_by rank Nat.leb unique).
  assert (Hperm : Permutation ranked unique) by apply sort_by_perm.
  assert (Hsorted : StronglySorted (fun a b => rank a <= rank b) ranked).
  { eapply StronglySorted_impl; [|apply (sort_by_sorted rank Nat.leb)].
    - intros a b H. now apply Nat.leb_le.
    - intros x y H. apply Nat.leb_gt in H. apply Nat.leb_le. lia.
    - intros x y z H1 H2. apply Nat.leb_le in H1, H2. apply Nat.leb_le. lia. }
  assert (Hsub : forall u, In u (firstn 10 ranked) -> In u unique).
  { intros u Hu. apply (Permutation_in _ Hperm).
    rewrite <- (firstn_skipn 10 ranked). apply in_or_app. now left. }
  assert (Hextracted : forall a, In a found <->
            exists m, extracted (filter kept rs) m a).
  { intros a. rewrite Hin_found. split.
    - intros (r & l & Hr & Hl & Ha). exists (ModelResponse.model r), r, l. tauto.
    - intros (m & r & l & Hr & _ & Hl & Ha). exists r, l. tauto. }
  exists (firstn 10 ranked). split; [reflexivity|]. split.
  - intros u Hu. apply Hsub in Hu.
    destruct (Hfrom u Hu) as (_ & (best & Hbest & Hshows & _) & Hmodels).
    split.
    + apply Hextracted in Hbest. destruct Hbest as (m & Hm). now exists m, best.
    + intros m. split.
      * intros Hm. destruct (Hmodels m Hm) as (a & Ha & Hkey & Hma).
        exists a. split; [|exact Hkey].
        apply Hin_found in Ha. destruct Ha as (r & l & Hr & Hl & Ha).
        rewrite (extracted_names_its_model r l a Hl Ha) in Hma.
        destruct Hma as [<-|[]]. exists r, l. tauto.
      * intros (a & (r & l & Hr & Hmodel & Hl & Ha) & Hkey).
        assert (Hfa : In a found) by (apply Hin_found; exists r, l; tauto).
        destruct (Hcover a Hfa) as (u' & Hu' & Hkey' & _ & Hincl).
        assert (u' = u).
        { apply (NoDup_map_inj _ _ action_key unique); try assumption. congruence. }
        subst u'. apply Hincl.
        rewrite (extracted_names_its_model r l a Hl Ha). left. exact Hmodel.
  - intros m a Ha.
    assert (Hfa : In a found) by (apply Hextracted; now exists m).
    destruct (Hcover a Hfa) as (u & Hu & Hkey & Hrank & _).
    apply (Permutation_in _ (Permutation_sym Hperm)) in Hu.
    rewrite <- (firstn_skipn 10 ranked) in Hu. apply in_app_or in Hu.
    destruct Hu as [Hu|Hu]; [left; now exists u|].
    right. split.
    + rewrite length_firstn. apply Nat.min_l.
      destruct (Nat.le_gt_cases 10 (List.length ranked)) as [H|H]; [exact H|].
      rewrite skipn_all2 in Hu by lia. destruct Hu.
    + intros u' Hu'. rewrite <- (firstn_skipn 10 ranked) in Hsorted.
      pose proof (StronglySorted_app_inv _ _ _ _ Hsorted u' u Hu' Hu) as Hle.
      cbv beta in Hle. lia.
Qed.

(** ** The shape of the conflicts *)

Lemma slice_to_length : forall n s, String.length (Py.slice_to n s) <= n.
Proof.
  induction n as [|n IH]; intros [|c s]; cbn; try lia.
  specialize (IH s). lia.
Qed.

Lemma append_length : forall s1 s2,
  String.length (s1 ++ s2) = String.length s1 + String.length s2.
Proof.
  induction s1 as [|c s1 IH]; intros s2; cbn; [reflexivity|]. now rewrite IH.
Qed.

Lemma extract_position_length : forall text topic,
  String.length (_extract_position text topic) <= 153.
Proof.
  intros text topic. unfold _extract_position.
  destruct (find _ (Py.re_split_sentences text)) as [sent|].
  - pose proof (slice_to_length 150 (Py.strip sent)). lia.
  - rewrite append_length. pose proof (slice_to_length 150 text) as H.
    change (String.length "...") with 3. lia.
Qed.

Lemma find_conflicts_between_shape : forall r1 r2 cs,
  _find_conflicts_between r1 r2 = Ok cs ->
  Forall (conflict_shape [r1; r2]) cs.
Proof.
  intros r1 r2 cs H. unfold _find_conflicts_between, response_or in H.
  destruct (ModelResponse.response r1) as [t1|]; [|discriminate].
  destruct (ModelResponse.response r2) as [t2|]; [|discriminate].
  cbn [bind] in H.
  assert (Hinj : forall l l' : list DetectedConflict.t, Ok l = Ok l' -> l = l')
    by (intros; congruence).
  destruct (find _ CONFLICT_INDICATORS) as [indicator|];
    [|apply Hinj in H; subst; constructor].
  destruct (_extract_conflict_topic t1 t2 indicator) as [topic|] eqn:Htopic;
    [|apply Hinj in H; subst; constructor].
  destruct (Py.truthy topic) eqn:Htruthy; [|apply Hinj in H; subst; constructor].
  apply Hinj in H. subst cs. constructor; [|constructor].
  unfold conflict_shape.
  cbn [DetectedConflict.topic DetectedConflict.severity DetectedConflict.positions
       DetectedConflict.resolution_hint].
  split; [intros ->; discriminate Htruthy|]. split.
  { unfold _extract_conflict_topic in Htopic.
    destruct (find _ (Py.re_split_sentences t1 ++ Py.re_split_sentences t2))
      as [sent|]; [|discriminate].
    assert (Heq : topic = Py.slice_to 100 (Py.strip sent)) by congruence.
    rewrite Heq. apply slice_to_length. }
  split; [reflexivity|]. split; [discriminate|].
  unfold dict_set. cbn [dict_update].
  destruct (String.eqb (ModelResponse.model r2) (ModelResponse.model r1)) eqn:E.
  - split; [discriminate|]. constructor; [|constructor]. cbn [fst snd]. split.
    + exists r1. split; [now left | reflexivity].
    + apply extract_position_length.
  - split; [discriminate|].
    constructor; [|constructor; [|constructor]]; cbn [fst snd];
      (split; [|apply extract_position_length]).
    + exists r1. split; [now left | reflexivity].
    + exists r2. split; [right; now left | reflexivity].
Qed.

Lemma conflict_shape_incl : forall rs rs' c,
  incl rs rs' -> conflict_shape rs c -> conflict_shape rs' c.
Proof.
  intros rs rs' c Hincl (H1 & H2 & H3 & H4 & H5 & H6).
  repeat (split; [assumption|]).
  eapply Forall_impl; [|exact H6]. intros kv [(r & Hr & Hm) Hlen].
  split; [|exact Hlen]. exists r. split; [now apply Hincl | exact Hm].
Qed.

Lemma conflicts_of_pairs_shape : forall rs cs,
  conflicts_of_pairs rs = Ok cs -> Forall (conflict_shape rs) cs.
Proof.
  induction rs as [|r1 rest IH]; intros cs H; cbn [conflicts_of_pairs] in H.
  - inversion H; subst. constructor.
  - destruct (extendM (fun r2 => _find_conflicts_between r1 r2) rest) as [row|] eqn:Hrow;
      [|discriminate].
    cbn [bind] in H.
    destruct (conflicts_of_pairs rest) as [ds|]; [|discriminate]. cbn [bind] in H.
    inversion H; subst. apply Forall_app. split.
    + apply Forall_forall. intros c Hc.
      apply (extendM_In _ _ _ _ _ Hrow) in Hc. destruct Hc as (r2 & bs & Hr2 & Hbs & Hc).
      apply find_conflicts_between_shape in Hbs. rewrite Forall_forall in Hbs.
      apply (conflict_shape_incl [r1; r2]); [|now apply Hbs].
      intros r [<-|[<-|[]]]; [now left | now right].
    + eapply Forall_impl; [|apply IH; reflexivity].
      intros c. apply conflict_shape_incl. intros r Hr. now right.
Qed.

(** X15: every conflict that [detect_conflicts] reports on the kept
    responses has a topic that is not empty and at most 100 characters long,
    the severity "medium" and a resolution hint, and positions that are not
    empty, each under the name of a kept response and at most 153 characters
    long. *)
Theorem detect_conflicts_are_well_formed :
  forall (self : SynthesisEngine) (rs : list ModelResponse.t),
  exists conflicts,
    detect_conflicts (add_responses self rs) = Ok conflicts
    /\ Forall (conflict_shape (filter kept rs)) conflicts.
Proof.
  intros self rs.
  destruct (detect_conflicts_ok (add_responses self rs) (kept_has_response self rs))
    as (conflicts & discovered & Hconflicts & Hdiscovered & Hsub & _).
  exists conflicts. split; [exact Hconflicts|].
  eapply subseq_Forall; [exact Hsub|].
  apply (conflicts_of_pairs_shape _ _ Hdiscovered).
Qed.

(** ** The shape of the actions *)

Lemma determine_priority_values : forall text,
  In (_determine_priority text) ["high"; "medium"; "low"].
Proof.
  intros text. unfold _determine_priority.
  destruct (existsb _ PRIORITY_HIGH); [now left|].
  destruct (existsb _ PRIORITY_MEDIUM); [right; now left | right; right; now left].
Qed.

Lemma extracted_shape : forall r found a,
  _extract_actions_from_response r = Ok found -> In a found ->
  String.length (ActionItem.action a) <= 200
  /\ In (ActionItem.priority a) ["high"; "medium"; "low"]
  /\ ActionItem.domain a = ModelResponse.domain r.
Proof.
  intros r found a H Ha. unfold _extract_actions_from_response, response_or in H.
  destruct (ModelResponse.response r) as [text|]; [|discriminate]. cbn [bind] in H.
  assert (Hinj : forall l l' : list ActionItem.t, Ok l = Ok l' -> l = l')
    by (intros; congruence).
  apply Hinj in H. subst found. apply in_flat_map in Ha.
  destruct Ha as (sent & _ & Ha).
  destruct (find _ ACTION_INDICATORS); [|destruct Ha].
  destruct Ha as [<-|[]].
  cbn [ActionItem.action ActionItem.priority ActionItem.domain].
  split; [apply slice_to_length|]. split; [apply determine_priority_values|].
  reflexivity.
Qed.

(** X16: every action that [extract_actions] returns on the kept responses
    has a text of at most 200 characters and one of the priorities high,
    medium and low, and carries the domain of a kept response whose model is
    among its source models. *)
Theorem extract_actions_are_well_formed :
  forall (so : set_order) (self : SynthesisEngine) (rs : list ModelResponse.t),
  exists actions,
    extract_actions so (add_responses self rs) = Ok actions
    /\ Forall (action_shape (filter kept rs)) actions.
Proof.
  intros so self rs. unfold extract_actions.
  change (responses (add_responses self rs)) with (filter kept rs).
  destruct (extendM_total _ _ _extract_actions_from_response (filter kept rs))
    as [found Hfound].
  { eapply Forall_impl; [|apply (kept_has_response self rs)].
    apply extract_actions_from_response_ok. }
  rewrite Hfound. cbn [bind].
  pose proof (extendM_In _ _ _ _ _ Hfound) as Hin_found.
  destruct (dedupe_actions_spec so found)
    as (unique & -> & Hnd & _ & Hcover & Hfrom).
  cbn [bind]. eexists. split; [reflexivity|].
  apply Forall_firstn, sort_by_Forall, Forall_forall. intros u Hu.
  destruct (Hfrom u Hu) as (_ & (best & Hbest & (Hact & Hprio & Hdom) & _) & _).
  pose proof Hbest as Hbest'. apply Hin_found in Hbest'.
  destruct Hbest' as (r & l & Hr & Hl & Hbl).
  destruct (extracted_shape r l best Hl Hbl) as (Hlen & Hp & Hd).
  unfold action_shape. rewrite Hact, Hprio, Hdom.
  split; [exact Hlen|]. split; [exact Hp|].
  exists r. split; [exact Hr|]. split; [exact Hd|].
  destruct (Hcover best Hbest) as (u' & Hu' & Hkey & _ & Hincl).
  assert (u' = u).
  { apply (NoDup_map_inj _ _ action_key unique); try assumption.
    rewrite Hkey. unfold action_key. now rewrite Hact. }
  subst u'. apply Hincl. rewrite (extracted_names_its_model r l best Hl Hbl).
  now left.
Qed.

(** ** The text of the themes *)

Lemma split_cons : forall c rest,
  Py.split (String c rest)
  = if Py.is_space c then Py.split rest
    else match rest with
         | EmptyString => [String c EmptyString]
         | String d _ =>
             if Py.is_space d then String c EmptyString :: Py.split rest
             else match Py.split rest with
                  | w :: ws' => String c w :: ws'
                  | [] => [String c EmptyString]
                  end
         end.
Proof. intros c rest. destruct rest; reflexivity. Qed.

Lemma split_chars : forall (P : ascii -> bool) s,
  all_chars P s = true -> Forall (fun w => all_chars P w = true) (Py.split s).
Proof.
  intros P. induction s as [|c rest IH]; intros H; [constructor|].
  cbn [all_chars] in H. apply andb_true_iff in H. destruct H as [Hc Hrest].
  specialize (IH Hrest). rewrite split_cons.
  assert (Hone : all_chars P (String c EmptyString) = true)
    by (cbn [all_chars]; now rewrite Hc).
  destruct (Py.is_space c); [exact IH|].
  destruct rest as [|d rest']; [now constructor|].
  destruct (Py.is_space d); [now constructor|].
  destruct (Py.split (String d rest')) as [|w ws']; [now constructor|].
  inversion IH as [|? ? Hw Hws]; subst. constructor; [|exact Hws].
  cbn [all_chars]. now rewrite Hc, Hw.
Qed.

Lemma split_wordlike : forall s, Forall wordlike (Py.split s).
Proof.
  induction s as [|c rest IH]; [constructor|]. rewrite split_cons.
  destruct (Py.is_space c) eqn:Hc; [exact IH|].
  assert (Hone : wordlike (String c EmptyString)).
  { split; [discriminate|]. cbn [all_chars]. unfold nonspace. now rewrite Hc. }
  destruct rest as [|d rest']; [now constructor|].
  destruct (Py.is_space d); [now constructor|].
  destruct (Py.split (String d rest')) as [|w ws']; [now constructor|].
  inversion IH as [|? ? [_ Hw] Hws]; subst. constructor; [|exact Hws].
  split; [discriminate|]. cbn [all_chars]. unfold nonspace at 1. now rewrite Hc, Hw.
Qed.

Lemma split_word : forall w, wordlike w -> Py.split w = [w].
Proof.
  induction w as [|c w IH]; intros [Hne Hw]; [congruence|].
  cbn [all_chars] in Hw. apply andb_true_iff in Hw. destruct Hw as [Hc Hw].
  unfold nonspace in Hc. apply negb_true_iff in Hc.
  rewrite split_cons, Hc. destruct w as [|d w']; [reflexivity|].
  assert (Hd : Py.is_space d = false).
  { cbn [all_chars] in Hw. apply andb_true_iff in Hw. destruct Hw as [Hd _].
    unfold nonspace in Hd. now apply negb_true_iff in Hd. }
  rewrite Hd, IH; [reflexivity|]. split; [discriminate | exact Hw].
Qed.

Lemma split_word_then : forall w s,
  wordlike w -> Py.split (w ++ String " " s) = w :: Py.split s.
Proof.
  induction w as [|c w IH]; intros s [Hne Hw]; [congruence|].
  cbn [all_chars] in Hw. apply andb_true_iff in Hw. destruct Hw as [Hc Hw].
  unfold nonspace in Hc. apply negb_true_iff in Hc.
  cbn [append]. rewrite split_cons, Hc. destruct w as [|d w'].
  - cbn [append]. change (Py.is_space " ") with true. cbv iota.
    rewrite (split_cons " " s). reflexivity.
  - assert (Hd : Py.is_space d = false).
    { cbn [all_chars] in Hw. apply andb_true_iff in Hw. destruct Hw as [Hd _].
      unfold nonspace in Hd. now apply negb_true_iff in Hd. }
    cbn [append]. rewrite Hd.
    change (String d (w' ++ String " " s)%string)
      with (String d w' ++ String " " s)%string.
    rewrite IH; [reflexivity|]. split; [discriminate | exact Hw].
Qed.

Lemma split_join_space : forall ws,
  Forall wordlike ws -> Py.split (Py.join_space ws) = ws.
Proof.
  induction ws as [|w ws IH]; intros H; [reflexivity|].
  inversion H as [|? ? Hw Hws]; subst. destruct ws as [|w2 ws'].
  - cbn [Py.join_space]. now apply split_word.
  - change (Py.join_space (w :: w2 :: ws'))
      with (w ++ String " " (Py.join_space (w2 :: ws')))%string.
    rewrite split_word_then by exact Hw. now rewrite IH.
Qed.

Lemma all_chars_append : forall P s1 s2,
  all_chars P (s1 ++ s2) = all_chars P s1 && all_chars P s2.
Proof.
  intros P. induction s1 as [|c s1 IH]; intros s2; cbn [append all_chars];
    [reflexivity|].
  now rewrite IH, andb_assoc.
Qed.

Lemma join_space_chars : forall (P : ascii -> bool) ws,
  P " "%char = true ->
  Forall (fun w => all_chars P w = true) ws ->
  all_chars P (Py.join_space ws) = true.
Proof.
  intros P ws Hsp H. induction H as [|w ws Hw Hws IH]; [reflexivity|].
  destruct ws as [|w2 ws']; [exact Hw|].
  change (Py.join_space (w :: w2 :: ws'))
    with (w ++ String " " (Py.join_space (w2 :: ws')))%string.
  rewrite all_chars_append. cbn [all_chars]. now rewrite Hw, Hsp, IH.
Qed.

Lemma re_split_from_chars : forall (P : ascii -> bool) s skip,
  all_chars P s = true ->
  Forall (fun piece => all_chars P piece = true) (Py.re_split_from skip s).
Proof.
  intros P. induction s as [|c rest IH]; intros skip H; cbn [Py.re_split_from].
  - constructor; [reflexivity | constructor].
  - cbn [all_chars] in H. apply andb_true_iff in H. destruct H as [Hc Hrest].
    destruct (skip && Py.is_space c); [now apply IH|].
    destruct (Py.is_terminator c && Py.starts_with_space rest).
    + constructor; [reflexivity | now apply IH].
    + specialize (IH false Hrest).
      destruct (Py.re_split_from false rest) as [|p ps].
      * constructor; [|constructor]. cbn [all_chars]. now rewrite Hc.
      * inversion IH as [|? ? Hp Hps]; subst. constructor; [|exact Hps].
        cbn [all_chars]. now rewrite Hc, Hp.
Qed.

Lemma re_split_sentences_chars : forall (P : ascii -> bool) s,
  all_chars P s = true ->
  Forall (fun piece => all_chars P piece = true) (Py.re_split_sentences s).
Proof.
  intros P s H. unfold Py.re_split_sentences.
  pose proof (re_split_from_chars P s false H) as Hp.
  destruct (Py.re_split_from false s); [|exact Hp].
  constructor; [reflexivity | constructor].
Qed.

Lemma re_sub_clean_chars : forall (P : ascii -> bool) s,
  all_chars P s = true -> all_chars P (Py.re_sub_clean s) = true.
Proof.
  intros P. induction s as [|c rest IH]; intros H; [reflexivity|].
  cbn [all_chars] in H. apply andb_true_iff in H. destruct H as [Hc Hrest].
  cbn [Py.re_sub_clean].
  destruct (Py.is_word c || Py.is_space c || (Py.ord c =? 45)%N); [|now apply IH].
  cbn [all_chars]. now rewrite Hc, IH.
Qed.

Lemma re_sub_clean_kept : forall s,
  all_chars (fun c => Py.is_word c || Py.is_space c || (Py.ord c =? 45)%N)
            (Py.re_sub_clean s) = true.
Proof.
  induction s as [|c rest IH]; [reflexivity|]. cbn [Py.re_sub_clean].
  destruct (Py.is_word c || Py.is_space c || (Py.ord c =? 45)%N) eqn:E; [|exact IH].
  cbn [all_chars]. now rewrite E, IH.
Qed.

Lemma lower_char_idempotent : forall c, is_lowered (Py.lower_char c) = true.
Proof.
  intros [[] [] [] [] [] [] [] []]; vm_compute; reflexivity.
Qed.

Lemma lower_is_lowered : forall s, all_chars is_lowered (Py.lower s) = true.
Proof.
  induction s as [|c rest IH]; [reflexivity|].
  cbn [Py.lower all_chars]. now rewrite lower_char_idempotent, IH.
Qed.

Lemma lowered_fixed : forall s, all_chars is_lowered s = true -> Py.lower s = s.
Proof.
  induction s as [|c rest IH]; intros H; [reflexivity|].
  cbn [all_chars] in H. apply andb_true_iff in H. destruct H as [Hc Hrest].
  cbn [Py.lower]. unfold is_lowered in Hc. apply Ascii.eqb_eq in Hc.
  now rewrite Hc, IH.
Qed.

Lemma all_chars_both : forall (P Q R : ascii -> bool) s,
  (forall c, P c = true -> Q c = true -> R c = true) ->
  all_chars P s = true -> all_chars Q s = true -> all_chars R s = true.
Proof.
  intros P Q R s HR. induction s as [|c rest IH]; intros HP HQ; [reflexivity|].
  cbn [all_chars] in *. apply andb_true_iff in HP, HQ.
  destruct HP as [Pc Prest], HQ as [Qc Qrest]. now rewrite (HR c Pc Qc), IH.
Qed.

Lemma key_phrase_shape : forall (so : set_order) (text p : string),
  In p (_extract_key_phrases so text) -> phrase_shape p.
Proof.
  intros so text p H. unfold _extract_key_phrases in H.
  apply set_list_In in H. apply in_flat_map in H.
  destruct H as (sentence & Hsentence & H).
  destruct (find _ ACTION_INDICATORS); [|destruct H].
  set (words := Py.split (Py.re_sub_clean sentence)) in *.
  destruct ((3 <=? List.length words) && (List.length words <=? 15)) eqn:Hlen;
    [|destruct H].
  destruct H as [<-|[]].
  apply andb_true_iff in Hlen. destruct Hlen as [H3 H15].
  apply Nat.leb_le in H3, H15.
  assert (Hwords : Forall wordlike words) by apply split_wordlike.
  assert (Hsplit : Py.split (Py.join_space words) = words)
    by now apply split_join_space.
  assert (Hlow : all_chars is_lowered sentence = true).
  { pose proof (re_split_sentences_chars is_lowered (Py.lower text)
                  (lower_is_lowered text)) as Hall.
    rewrite Forall_forall in Hall. now apply Hall. }
  unfold phrase_shape. rewrite Hsplit. split; [lia|]. split; [reflexivity|]. split.
  - apply lowered_fixed, join_space_chars; [reflexivity|].
    apply split_chars, re_sub_clean_chars, Hlow.
  - apply join_space_chars; [reflexivity|].
    pose proof (split_chars _ _ (re_sub_clean_kept sentence)) as Hkept.
    fold words in Hkept. rewrite Forall_forall in Hkept, Hwords |- *.
    intros w Hw. destruct (Hwords w Hw) as [_ Hns].
    apply (all_chars_both _ _ _ w) with (2 := Hkept w Hw) (3 := Hns).
    intros c Hc Hn. unfold phrase_char, nonspace in *. apply negb_true_iff in Hn.
    rewrite Hn, orb_false_r in Hc.
    apply orb_true_iff in Hc. destruct Hc as [-> | ->]; [reflexivity|].
    now rewrite orb_true_r.
Qed.

(** X17: every theme that [extract_themes] returns is a normalized phrase:
    three to fifteen words joined by single spaces, in lower case, made of
    word characters and hyphens only. *)
Theorem extract_themes_are_normalized_phrases :
  forall (so : set_order) (self : SynthesisEngine) (rs : list ModelResponse.t),
  exists themes,
    extract_themes so (add_responses self rs) = Ok themes
    /\ Forall (fun t => phrase_shape (ExtractedTheme.theme t)) themes.
Proof.
  intros so self rs.
  destruct (themes_said so self rs) as (themes & Hthemes & Hsaid).
  destruct (extract_themes_ok so (add_responses self rs) (kept_has_response self rs))
    as (themes' & Hthemes' & Hok & _).
  assert (themes' = themes) by congruence. subst themes'.
  exists themes. split; [exact Hthemes|].
  rewrite Forall_forall in Hsaid, Hok |- *. intros t Ht.
  destruct (Hok t Ht) as (_ & Htwo & _).
  destruct (ExtractedTheme.supporting_models t) as [|m ms] eqn:Hm;
    [cbn in Htwo; lia|].
  destruct (Hsaid t Ht m) as (r & _ & _ & text & _ & Hp);
    [rewrite Hm; now left|].
  eapply key_phrase_shape, Hp.
Qed.

(** ** The evidence of the themes *)

Lemma evidence_in_quotes : forall r phrase text sentences found,
  ModelResponse.response r = Some text ->
  incl sentences (Py.re_split_sentences text) ->
  evidence_in r (Py.split (Py.lower phrase)) sentences = Ok found ->
  Forall (quotes r phrase) found /\ List.length found <= 1.
Proof.
  intros r phrase text sentences. induction sentences as [|sent rest IH];
    intros found Htext Hincl H; cbn [evidence_in] in H.
  - inversion H; subst. split; [constructor | cbn; lia].
  - destruct (true_div _ _) as [overlap|] eqn:Hdiv; [|discriminate].
    cbn [bind] in H.
    destruct (Qltb (3 # 10) overlap && (String.length sent <? 300)) eqn:Hc.
    + apply andb_true_iff in Hc. destruct Hc as [Ho Hl].
      apply Qltb_lt in Ho. apply Nat.ltb_lt in Hl.
      assert (Heq : found
                    = [("[" ++ ModelResponse.model r ++ "] " ++ Py.strip sent)%string])
        by congruence.
      rewrite Heq. split; [|cbn; lia]. constructor; [|constructor].
      exists text, sent, overlap. repeat split; try assumption.
      apply Hincl. now left.
    + apply IH; [exact Htext | | exact H]. intros x Hx. apply Hincl. now right.
Qed.

Lemma find_evidence_quotes : forall self phrase models found,
  _find_evidence self phrase models = Ok found ->
  Forall (fun q => exists r, In r (responses self)
                             /\ In (ModelResponse.model r) models
                             /\ quotes r phrase q) found.
Proof.
  intros self phrase models found H. unfold _find_evidence in H.
  apply Forall_forall. intros q Hq.
  apply (extendM_In _ _ _ _ _ H) in Hq. destruct Hq as (r & qs & Hr & Hqs & Hq).
  destruct (Py.mem (ModelResponse.model r) models) eqn:Hmem.
  - unfold response_or in Hqs.
    destruct (ModelResponse.response r) as [text|] eqn:Htext; [|discriminate].
    cbn [bind] in Hqs.
    destruct (evidence_in_quotes r phrase text _ qs Htext (incl_refl _) Hqs)
      as [Hall _].
    rewrite Forall_forall in Hall. exists r. split; [exact Hr|].
    split; [now apply mem_true_In | now apply Hall].
  - assert (qs = []) by congruence. subst qs. destruct Hq.
Qed.

Lemma themes_of_evidence : forall self items themes,
  themes_of self items = Ok themes ->
  Forall (fun t => exists found,
            _find_evidence self (ExtractedTheme.theme t)
                           (ExtractedTheme.supporting_models t) = Ok found
            /\ ExtractedTheme.evidence t = firstn 3 found)
         themes.
Proof.
  intros self items. induction items as [|[phrase models] items IH]; intros themes H;
    cbn [themes_of] in H.
  - inversion H; subst. constructor.
  - destruct (2 <=? List.length models); [|now apply IH].
    destruct (true_div _ _) as [confidence|]; [|discriminate]. cbn [bind] in H.
    destruct (_find_evidence self phrase models) as [evidence|] eqn:Hev;
      [|discriminate].
    cbn [bind] in H.
    destruct (themes_of self items) as [rest|]; [|discriminate]. cbn [bind] in H.
    assert (Heq : themes
                  = ExtractedTheme.make phrase models confidence (firstn 3 evidence)
                    :: rest) by congruence.
    rewrite Heq. constructor; [|now apply IH].
    exists evidence. split; [exact Hev | reflexivity].
Qed.

(** X18: the evidence of a theme quotes its supporting models.  Every
    evidence string of a theme that [extract_themes] returns is the model's
    name in brackets followed by a stripped sentence, shorter than 300
    characters, of a kept response of one of the supporting models, a
    sentence that has more than three tenths of the theme's distinct words. *)
Theorem extract_themes_evidence_quotes_supporters :
  forall (so : set_order) (self : SynthesisEngine) (rs : list ModelResponse.t),
  exists themes,
    extract_themes so (add_responses self rs) = Ok themes
    /\ Forall (fun t =>
                 Forall (fun q =>
                           exists r, In r (filter kept rs)
                                     /\ In (ModelResponse.model r)
                                           (ExtractedTheme.supporting_models t)
                                     /\ quotes r (ExtractedTheme.theme t) q)
                        (ExtractedTheme.evidence t))
              themes.
Proof.
  intros so self rs.
  destruct (extract_themes_ok so (add_responses self rs) (kept_has_response self rs))
    as (themes & Hthemes & _).
  exists themes. split; [exact Hthemes|].
  unfold extract_themes in Hthemes.
  change (responses (add_responses self rs)) with (filter kept rs) in Hthemes.
  destruct (filter kept rs) as [|r0 rs0] eqn:Hkept.
  { assert (themes = []) by congruence. subst. constructor. }
  rewrite <- Hkept in *.
  destruct (response_phrases_from so [] (filter kept rs)) as [rp|]; [|discriminate].
  cbn [bind] in Hthemes.
  destruct (themes_of (add_responses self rs) (phrase_models_of rp)) as [found|] eqn:Hfound;
    [|discriminate].
  cbn [bind] in Hthemes.
  assert (Heq : themes = firstn 10 (sort_by Qneg_key Qle_bool found)) by congruence.
  rewrite Heq. clear Heq Hthemes.
  apply Forall_firstn, sort_by_Forall.
  eapply Forall_impl; [|apply (themes_of_evidence _ _ _ Hfound)].
  intros t (quoted & Hquoted & ->). apply Forall_firstn.
  apply (find_evidence_quotes _ _ _ _ Hquoted).
Qed.

(** ** The consensus of several responses *)

Lemma inject_nat_succ : forall n : nat,
  (inject_Z (Z.of_nat (S n)) == inject_Z (Z.of_nat n) + 1)%Q.
Proof.
  intros n. rewrite Nat2Z.inj_succ. unfold Z.succ. now rewrite inject_Z_plus.
Qed.

Lemma confidences_sum : forall cs : list Q,
  Forall (fun c => 0 < c /\ c <= 1)%Q cs ->
  (0 <= fold_right Qplus 0 cs)%Q
  /\ (fold_right Qplus 0 cs <= inject_Z (Z.of_nat (List.length cs)))%Q
  /\ (cs <> [] -> 0 < fold_right Qplus 0 cs)%Q.
Proof.
  intros cs H. induction H as [|c cs [Hc0 Hc1] _ (IH0 & IH1 & _)].
  - split; [apply Qle_refl|]. split; [apply Qle_refl | congruence].
  - cbn [fold_right List.length]. rewrite inject_nat_succ.
    split; [lra|]. split; [lra|]. intros _. lra.
Qed.

Lemma theme_confidence_bounds : forall n t,
  1 <= n -> theme_ok n t ->
  (0 < ExtractedTheme.confidence t /\ ExtractedTheme.confidence t <= 1)%Q.
Proof.
  intros n t Hn (_ & Ha & Hc & _ & Hle).
  set (a := List.length (ExtractedTheme.supporting_models t)) in *.
  assert (Hn0 : (0 < inject_Z (Z.of_nat n))%Q).
  { change 0%Q with (inject_Z 0). rewrite <- Zlt_Qlt. lia. }
  rewrite Hc. split.
  - apply Qlt_shift_div_l; [exact Hn0|]. rewrite Qmult_0_l.
    change 0%Q with (inject_Z 0). rewrite <- Zlt_Qlt. lia.
  - apply Qle_shift_div_r; [exact Hn0|]. rewrite Qmult_1_l.
    rewrite <- Zle_Qle. lia.
Qed.

Lemma clamp_unit : forall x : Q,
  ((x <= 0 -> clamp x 0 1 == 0)
   /\ (0 <= x -> x <= 1 -> clamp x 0 1 == x)
   /\ (forall b, 0 <= b -> x <= b -> b <= 1 -> clamp x 0 1 <= b))%Q.
Proof.
  intros x. unfold clamp.
  destruct (Qltb x 0) eqn:H0; [apply Qltb_lt in H0 | apply Qltb_ge in H0];
    (destruct (Qltb 1 x) eqn:H1; [apply Qltb_lt in H1 | apply Qltb_ge in H1]).
  - split; [reflexivity|]. split; [lra|]. intros b Hb _ _. exact Hb.
  - split; [reflexivity|]. split; [lra|]. intros b Hb _ _. exact Hb.
  - split; [lra|]. split; [lra|]. intros b Hb Hx Hb1. lra.
  - split; [lra|]. split; [reflexivity|]. intros b _ Hx _. exact Hx.
Qed.

(** X19: the consensus of two or more kept responses.  When the responses
    share no theme the score is 0, whether or not a conflict was found;
    every conflict costs a tenth, so the score is at most 1 less a tenth per
    conflict; and when themes are shared and no conflict was found, the score
    is the mean confidence of the themes, above 0. *)
Theorem consensus_of_several_responses :
  forall (so : set_order) (self : SynthesisEngine) (rs : list ModelResponse.t),
    2 <= List.length (filter kept rs) ->
    exists themes conflicts score,
      extract_themes so (add_responses self rs) = Ok themes
      /\ detect_conflicts (add_responses self rs) = Ok conflicts
      /\ calculate_consensus so (add_responses self rs) = Ok score
      /\ (themes = [] -> (score == 0)%Q)
      /\ (score <= 1 - (1 # 10) * inject_Z (Z.of_nat (List.length conflicts)))%Q
      /\ (conflicts = [] -> themes <> [] ->
          (score == spec_theme_score themes)%Q /\ (0 < score)%Q).
Proof.
  intros so self rs Htwo.
  pose proof (kept_has_response self rs) as Hrs.
  destruct (calculate_consensus_ok so (add_responses self rs) Hrs)
    as (themes & conflicts & score & Hthemes & Hconflicts & Hscore & _ & _ & Hspec).
  change (responses (add_responses self rs)) with (filter kept rs) in Hspec.
  specialize (Hspec Htwo).
  destruct (extract_themes_ok so (add_responses self rs) Hrs)
    as (themes' & Hthemes' & Hok & _).
  assert (themes' = themes) by congruence. subst themes'.
  destruct (detect_conflicts_ok (add_responses self rs) Hrs)
    as (conflicts' & discovered & Hconflicts' & _ & _ & _ & _ & Hfive).
  assert (conflicts' = conflicts) by congruence. subst conflicts'.
  change (responses (add_responses self rs)) with (filter kept rs) in Hok.
  exists themes, conflicts, score.
  split; [exact Hthemes|]. split; [exact Hconflicts|]. split; [exact Hscore|].
  assert (Hconf : Forall (fun c => 0 < c /\ c <= 1)%Q
                         (map ExtractedTheme.confidence themes)).
  { apply Forall_map. eapply Forall_impl; [|exact Hok].
    intros t Ht. apply (theme_confidence_bounds (List.length (filter kept rs))); [lia|].
    exact Ht. }
  destruct (confidences_sum _ Hconf) as (Hs0 & Hs1 & Hspos).
  rewrite length_map in Hs1.
  set (total := fold_right Qplus 0%Q (map ExtractedTheme.confidence themes)) in *.
  set (k := inject_Z (Z.of_nat (List.length conflicts))).
  assert (Hk0 : (0 <= k)%Q).
  { subst k. change 0%Q with (inject_Z 0). rewrite <- Zle_Qle. lia. }
  assert (Hk5 : (k <= 5)%Q).
  { subst k. change 5%Q with (inject_Z 5). rewrite <- Zle_Qle. lia. }
  set (d := inject_Z (Z.of_nat (Nat.max 1 (List.length themes)))).
  assert (Hd1 : (1 <= d)%Q).
  { subst d. change 1%Q with (inject_Z 1). rewrite <- Zle_Qle. lia. }
  assert (Hd : (inject_Z (Z.of_nat (List.length themes)) <= d)%Q).
  { subst d. rewrite <- Zle_Qle. lia. }
  assert (Hmean : (0 <= total / d /\ total / d <= 1)%Q).
  { split.
    - apply Qle_shift_div_l; [lra|]. lra.
    - apply Qle_shift_div_r; [lra|]. lra. }
  unfold spec_consensus in Hspec. fold total d k in Hspec.
  unfold spec_theme_score in Hspec |- *. fold total d in Hspec |- *.
  destruct (clamp_unit (total / d - (1 # 10) * k)) as (Hlow & Hmid & Hhigh).
  split; [|split].
  - intros Hnil. rewrite Hspec. apply Hlow.
    assert (Ht0 : (total == 0)%Q) by (subst total; rewrite Hnil; reflexivity).
    assert (Hz : (total / d == 0)%Q).
    { rewrite Ht0. unfold Qdiv. apply Qmult_0_l. }
    lra.
  - rewrite Hspec. apply Hhigh; lra.
  - intros Hnone Hsome.
    assert (Hkz : (k == 0)%Q) by (subst k; rewrite Hnone; reflexivity).
    assert (Hpos : (0 < total / d)%Q).
    { apply Qlt_shift_div_l; [lra|].
      assert (0 < total)%Q; [|lra]. apply Hspos.
      destruct themes; [congruence | discriminate]. }
    assert (Hx : (total / d - (1 # 10) * k == total / d)%Q) by lra.
    split.
    + rewrite Hspec. rewrite Hmid; lra.
    + rewrite Hspec. rewrite Hmid; lra.
Qed.

Lemma consensus_of_several_responses_witness :
  2 <= List.length (filter kept two_agreeing)
  /\ exists themes conflicts score,
       extract_themes first_seen_order (add_responses init two_agreeing) = Ok themes
       /\ detect_conflicts (add_responses init two_agreeing) = Ok conflicts
       /\ calculate_consensus first_seen_order (add_responses init two_agreeing)
          = Ok score
       /\ (score <= 1 - (1 # 10) * inject_Z (Z.of_nat (List.length conflicts)))%Q.
Proof.
  assert (Htwo : 2 <= List.length (filter kept two_agreeing))
    by (vm_compute; lia).
  split; [exact Htwo|].
  destruct (consensus_of_several_responses first_seen_order init two_agreeing Htwo)
    as (themes & conflicts & score & Ht & Hc & Hs & _ & Hle & _).
  exists themes, conflicts, score. tauto.
Defined.

(** ** The order of Python's sets *)

Lemma key_phrases_perm : forall (so1 so2 : set_order) (text : string),
  Permutation (_extract_key_phrases so1 text) (_extract_key_phrases so2 text).
Proof.
  intros so1 so2 text. unfold _extract_key_phrases.
  apply NoDup_Permutation; try apply set_list_NoDup.
  intros x. now rewrite !set_list_In.
Qed.

Lemma dict_set_same_phrases : forall d1 d2 k v1 v2,
  Forall2 same_phrases d1 d2 -> same_phrases (k, v1) (k, v2) ->
  Forall2 same_phrases (dict_set d1 k v1) (dict_set d2 k v2).
Proof.
  intros d1 d2 k v1 v2 H Hk. unfold dict_set.
  induction H as [|[k1 x1] [k2 x2] d1 d2 Hx Hrest IH]; cbn [dict_update].
  - constructor; [exact Hk | constructor].
  - pose proof Hx as (Hfst & _). cbn [fst] in Hfst. subst k2.
    destruct (String.eqb k k1) eqn:E.
    + apply String.eqb_eq in E. subst k1. constructor; [exact Hk | exact Hrest].
    + constructor; [exact Hx | exact IH].
Qed.

Lemma response_phrases_same : forall (so1 so2 : set_order) rs d1 d2 rp1 rp2,
  Forall2 same_phrases d1 d2 ->
  response_phrases_from so1 d1 rs = Ok rp1 ->
  response_phrases_from so2 d2 rs = Ok rp2 ->
  Forall2 same_phrases rp1 rp2.
Proof.
  intros so1 so2. induction rs as [|r rs IH]; intros d1 d2 rp1 rp2 Hd H1 H2;
    cbn [response_phrases_from] in H1, H2.
  - assert (rp1 = d1) by congruence. assert (rp2 = d2) by congruence. now subst.
  - unfold response_or in H1, H2.
    destruct (ModelResponse.response r) as [text|]; [|discriminate].
    cbn [bind] in H1, H2. eapply IH; [|exact H1 | exact H2].
    apply dict_set_same_phrases; [exact Hd|].
    split; [reflexivity|]. split; [apply key_phrases_perm|].
    unfold _extract_key_phrases. cbn [snd]. split; apply set_list_NoDup.
Qed.

Lemma mem_perm : forall x l1 l2, Permutation l1 l2 -> Py.mem x l1 = Py.mem x l2.
Proof.
  intros x l1 l2 H.
  destruct (Py.mem x l1) eqn:E1; destruct (Py.mem x l2) eqn:E2; try reflexivity.
  - apply mem_true_In in E1. apply (Permutation_in _ H) in E1.
    apply mem_true_In in E1. congruence.
  - apply mem_true_In in E2. apply (Permutation_in _ (Permutation_sym H)) in E2.
    apply mem_true_In in E2. congruence.
Qed.

Lemma add_phrases_lookup : forall (model : string) (phrases : list string)
    (pm : list (string * list string)) (p : string),
  NoDup phrases ->
  lookup p (fold_left (fun pm phrase => dict_append pm phrase model) phrases pm)
  = if Py.mem p phrases
    then Some (match lookup p pm with
               | Some l => l ++ [model]
               | None => [model]
               end)
    else lookup p pm.
Proof.
  intros model phrases. induction phrases as [|q qs IH]; intros pm p Hnd;
    cbn [fold_left]; [reflexivity|].
  inversion Hnd as [|? ? Hq Hqs]; subst. rewrite (IH _ _ Hqs).
  unfold dict_append. rewrite dict_update_lookup.
  unfold Py.mem. cbn [existsb]. fold (Py.mem p qs).
  destruct (String.eqb p q) eqn:E; cbn [orb]; [|reflexivity].
  apply String.eqb_eq in E. subst q.
  destruct (Py.mem p qs) eqn:Em; [|reflexivity].
  apply mem_true_In in Em. contradiction.
Qed.

Lemma add_phrases_keys : forall (model : string) (phrases : list string)
    (pm : list (string * list string)),
  NoDup (keys pm) ->
  NoDup (keys (fold_left (fun pm phrase => dict_append pm phrase model) phrases pm)).
Proof.
  intros model phrases. induction phrases as [|q qs IH]; intros pm H; cbn [fold_left];
    [exact H|].
  apply IH. unfold dict_append. now apply dict_update_keys_NoDup.
Qed.

Lemma phrase_models_same : forall (rp1 rp2 pm1 pm2 : list (string * list string)),
  Forall2 same_phrases rp1 rp2 ->
  NoDup (keys pm1) -> NoDup (keys pm2) ->
  (forall p, lookup p pm1 = lookup p pm2) ->
  let fill := fold_left (fun pm '(model, phrases) =>
                fold_left (fun pm phrase => dict_append pm phrase model) phrases pm) in
  NoDup (keys (fill rp1 pm1)) /\ NoDup (keys (fill rp2 pm2))
  /\ forall p, lookup p (fill rp1 pm1) = lookup p (fill rp2 pm2).
Proof.
  intros rp1 rp2 pm1 pm2 H. revert pm1 pm2.
  induction H as [|[m1 ps1] [m2 ps2] rp1 rp2 (Hm & Hp & Hn1 & Hn2) _ IH];
    intros pm1 pm2 Hk1 Hk2 Hsame fill.
  - now repeat split.
  - cbn [fst snd] in *. subst m2. subst fill. cbn [fold_left].
    apply IH; try now apply add_phrases_keys.
    intros p. rewrite !add_phrases_lookup by assumption.
    now rewrite (mem_perm p ps1 ps2 Hp), Hsame.
Qed.

Lemma dict_perm : forall (V : Type) (d1 d2 : list (string * V)),
  NoDup (keys d1) -> NoDup (keys d2) ->
  (forall k, lookup k d1 = lookup k d2) ->
  Permutation d1 d2.
Proof.
  intros V d1 d2 H1 H2 Hsame.
  apply NoDup_Permutation.
  - unfold keys in H1. now apply NoDup_map_inv in H1.
  - unfold keys in H2. now apply NoDup_map_inv in H2.
  - intros [k v]. split; intros Hin.
    + apply lookup_In. rewrite <- Hsame. now apply In_lookup.
    + apply lookup_In. rewrite Hsame. now apply In_lookup.
Qed.

Lemma themes_of_perm : forall self items items' themes,
  Permutation items items' ->
  themes_of self items = Ok themes ->
  exists themes', themes_of self items' = Ok themes' /\ Permutation themes themes'.
Proof.
  intros self items items' themes Hp. revert themes.
  induction Hp as [|[p ms] l l' Hp IH|[p ms] [q ns] l|l l' l'' Hp1 IH1 Hp2 IH2];
    intros themes H.
  - exists themes. split; [exact H | apply Permutation_refl].
  - cbn [themes_of] in *. destruct (2 <=? List.length ms).
    + destruct (true_div _ _) as [c|]; [|discriminate]. cbn [bind] in *.
      destruct (_find_evidence self p ms) as [ev|]; [|discriminate]. cbn [bind] in *.
      destruct (themes_of self l) as [ts|]; [|discriminate]. cbn [bind] in H.
      destruct (IH ts eq_refl) as (ts' & -> & Hts). cbn [bind].
      eexists. split; [reflexivity|].
      assert (Heq : themes = ExtractedTheme.make p ms c (firstn 3 ev) :: ts)
        by congruence.
      rewrite Heq. now apply perm_skip.
    + now apply IH.
  - cbn [themes_of] in *.
    destruct (2 <=? List.length ns); destruct (2 <=? List.length ms).
    + destruct (true_div (List.length ns) _) as [cq|]; [|discriminate].
      cbn [bind] in *.
      destruct (_find_evidence self q ns) as [eq|]; [|discriminate]. cbn [bind] in *.
      destruct (true_div (List.length ms) _) as [cp|]; [|discriminate].
      cbn [bind] in *.
      destruct (_find_evidence self p ms) as [ep|]; [|discriminate]. cbn [bind] in *.
      destruct (themes_of self l) as [ts|]; [|discriminate]. cbn [bind] in *.
      eexists. split; [reflexivity|].
      assert (Heq : themes = ExtractedTheme.make q ns cq (firstn 3 eq)
                             :: ExtractedTheme.make p ms cp (firstn 3 ep) :: ts)
        by congruence.
      rewrite Heq. apply perm_swap.
    + exists themes. split; [exact H | apply Permutation_refl].
    + exists themes. split; [exact H | apply Permutation_refl].
    + exists themes. split; [exact H | apply Permutation_refl].
  - destruct (IH1 themes H) as (ts' & H' & Hp').
    destruct (IH2 ts' H') as (ts'' & H'' & Hp'').
    exists ts''. split; [exact H'' | eapply Permutation_trans; eassumption].
Qed.

Lemma descending_perm_unique : forall l1 l2 : list nat,
  StronglySorted ge l1 -> StronglySorted ge l2 -> Permutation l1 l2 -> l1 = l2.
Proof.
  intros l1 l2 H1. revert l2. induction H1 as [|a l1 Hs1 IH Ha]; intros l2 H2 Hp.
  - apply Permutation_nil in Hp. now subst.
  - destruct l2 as [|b l2]; [apply Permutation_sym, Permutation_nil in Hp; discriminate|].
    inversion H2 as [|? ? Hs2 Hb]; subst.
    assert (Hab : a = b).
    { assert (Hin1 : In a (b :: l2)) by (eapply Permutation_in; [exact Hp | now left]).
      assert (Hin2 : In b (a :: l1))
        by (eapply Permutation_in; [apply Permutation_sym, Hp | now left]).
      rewrite Forall_forall in Ha, Hb.
      destruct Hin1 as [->|Hin1]; [reflexivity|].
      destruct Hin2 as [->|Hin2]; [reflexivity|].
      specialize (Ha _ Hin2). specialize (Hb _ Hin1). unfold ge in *. lia. }
    subst b. f_equal. apply IH; [exact Hs2|]. eapply Permutation_cons_inv, Hp.
Qed.

Lemma confidence_by_support : forall n a b,
  1 <= n -> theme_ok n a -> theme_ok n b ->
  by_descending_confidence a b -> support a >= support b.
Proof.
  intros n a b Hn (_ & _ & Ha & _) (_ & _ & Hb & _) H.
  unfold by_descending_confidence in H. rewrite Ha, Hb in H. unfold support, ge.
  assert (Hn0 : (0 < inject_Z (Z.of_nat n))%Q).
  { change 0%Q with (inject_Z 0). rewrite <- Zlt_Qlt. lia. }
  assert (Hne : ~ (inject_Z (Z.of_nat n) == 0)%Q) by lra.
  apply (Qmult_le_compat_r _ _ (inject_Z (Z.of_nat n))) in H; [|lra].
  rewrite !Qmult_comm with (y := inject_Z (Z.of_nat n)) in H.
  rewrite !Qmult_div_r in H by exact Hne.
  rewrite <- Zle_Qle in H. lia.
Qed.

Lemma StronglySorted_map_in : forall (A B : Type) (R : A -> A -> Prop)
    (R' : B -> B -> Prop) (P : A -> Prop) (f : A -> B) (l : list A),
  (forall a b, P a -> P b -> R a b -> R' (f a) (f b)) ->
  Forall P l -> StronglySorted R l -> StronglySorted R' (map f l).
Proof.
  intros A B R R' P f l HR HP Hs.
  induction Hs as [|a l Hl IH Ha]; cbn [map]; constructor.
  - apply IH. now inversion HP.
  - inversion HP as [|? ? Pa Pl]; subst. apply Forall_map.
    rewrite Forall_forall in Ha, Pl |- *. intros b Hb.
    apply HR; [exact Pa | now apply Pl | now apply Ha].
Qed.

(** The passes of [extract_themes] on responses that are there. *)
Lemma extract_themes_steps : forall (so : set_order) (self : SynthesisEngine),
  Forall has_response (responses self) -> responses self <> [] ->
  exists rp found,
    response_phrases_from so [] (responses self) = Ok rp
    /\ themes_of self (phrase_models_of rp) = Ok found
    /\ Forall (theme_ok (List.length (responses self))) found
    /\ extract_themes so self = Ok (firstn 10 (sort_by Qneg_key Qle_bool found)).
Proof.
  intros so self Hrs Hne. unfold extract_themes.
  destruct (responses self) as [|r0 rs0] eqn:Hresp; [congruence|].
  rewrite <- Hresp in *.
  destruct (response_phrases_ok so (responses self) [] Hrs)
    as [rp (Hrp & Hnd & Hok & Hlen)]; [constructor | constructor |].
  destruct (themes_of_ok self (rev (keys rp)) (phrase_models_of rp))
    as [found [Hfound Hthemes]].
  - exact Hne.
  - exact Hrs.
  - unfold keys. rewrite length_rev, length_map. cbn [List.length] in Hlen. exact Hlen.
  - apply phrase_models_supported; assumption.
  - exists rp, found. rewrite Hrp. cbn [bind]. rewrite Hfound. cbn [bind].
    repeat split; assumption || reflexivity.
Qed.

(** X20: what the themes and the consensus owe to the order in which Python
    enumerates a set.  Whatever the two orders, [extract_themes] returns
    themes of the same confidences, in the same places; when fewer than ten
    themes are returned, the same themes up to their order; and
    [calculate_consensus] returns the same score. *)
Theorem themes_and_consensus_ignore_set_order :
  forall (so1 so2 : set_order) (self : SynthesisEngine) (rs : list ModelResponse.t),
  exists themes1 themes2 score,
    extract_themes so1 (add_responses self rs) = Ok themes1
    /\ extract_themes so2 (add_responses self rs) = Ok themes2
    /\ map ExtractedTheme.confidence themes1 = map ExtractedTheme.confidence themes2
    /\ map support themes1 = map support themes2
    /\ (List.length themes1 < 10 -> Permutation themes1 themes2)
    /\ calculate_consensus so1 (add_responses self rs) = Ok score
    /\ calculate_consensus so2 (add_responses self rs) = Ok score.
Proof.
  intros so1 so2 self rs.
  pose proof (kept_has_response self rs) as Hrs.
  set (engine := add_responses self rs) in *.
  destruct (detect_conflicts_ok engine Hrs) as (conflicts & _ & Hconflicts & _).
  destruct (responses engine) as [|r0 rs0] eqn:Hresp.
  { exists [], [], 1%Q. unfold extract_themes, calculate_consensus. rewrite Hresp.
    repeat split; reflexivity || (intros; constructor). }
  assert (Hne : responses engine <> []) by (rewrite Hresp; discriminate).
  rewrite <- Hresp in *. clear Hresp r0 rs0.
  destruct (extract_themes_steps so1 engine Hrs Hne)
    as (rp1 & found1 & Hrp1 & Hfound1 & Hok1 & Hthemes1).
  destruct (extract_themes_steps so2 engine Hrs Hne)
    as (rp2 & found2 & Hrp2 & Hfound2 & Hok2 & Hthemes2).
  set (n := List.length (responses engine)) in *.
  assert (Hn : 1 <= n).
  { subst n. destruct (responses engine); [congruence | cbn; lia]. }
  assert (Hrp : Forall2 same_phrases rp1 rp2).
  { apply (response_phrases_same so1 so2 (responses engine) [] []);
      [constructor | exact Hrp1 | exact Hrp2]. }
  destruct (phrase_models_same rp1 rp2 [] [] Hrp) as (Hk1 & Hk2 & Hsame);
    [constructor | constructor | reflexivity |].
  cbv zeta in Hk1, Hk2, Hsame.
  fold (phrase_models_of rp1) in Hk1, Hsame. fold (phrase_models_of rp2) in Hk2, Hsame.
  pose proof (dict_perm _ _ _ Hk1 Hk2 Hsame) as Hitems.
  destruct (themes_of_perm engine _ _ _ Hitems Hfound1) as (found2' & Hfound2' & Hfound).
  assert (found2' = found2) by congruence. subst found2'.
  set (sorted1 := sort_by Qneg_key Qle_bool found1) in *.
  set (sorted2 := sort_by Qneg_key Qle_bool found2) in *.
  assert (Hsorted : Permutation sorted1 sorted2).
  { eapply Permutation_trans; [apply sort_by_perm|].
    eapply Permutation_trans; [exact Hfound | apply Permutation_sym, sort_by_perm]. }
  assert (Hdesc : forall found,
            Forall (theme_ok n) found ->
            StronglySorted ge (map support (sort_by Qneg_key Qle_bool found))).
  { intros found Hok.
    apply (StronglySorted_map_in _ _
             (fun a b => Qle_bool (Qneg_key a) (Qneg_key b) = true) ge (theme_ok n)).
    - intros a b Ha Hb H. apply (confidence_by_support n); try assumption.
      unfold by_descending_confidence. apply Qle_bool_iff in H. unfold Qneg_key in H.
      apply Qopp_le_compat in H. now rewrite !Qopp_involutive in H.
    - now apply sort_by_Forall.
    - apply (sort_by_sorted Qneg_key Qle_bool Qle_bool_total Qle_bool_trans). }
  assert (Hsupport : map support sorted1 = map support sorted2).
  { apply descending_perm_unique; [now apply Hdesc | now apply Hdesc |].
    now apply Permutation_map. }
  assert (Hsupport10 : map support (firstn 10 sorted1) = map support (firstn 10 sorted2)).
  { now rewrite <- !firstn_map, Hsupport. }
  assert (Hconf : forall found,
            Forall (theme_ok n) found ->
            map ExtractedTheme.confidence (firstn 10 (sort_by Qneg_key Qle_bool found))
            = map (fun a => (inject_Z (Z.of_nat a) / inject_Z (Z.of_nat n))%Q)
                  (map support (firstn 10 (sort_by Qneg_key Qle_bool found)))).
  { intros found Hok. rewrite map_map. apply map_ext_in. intros t Ht.
    assert (Hall : Forall (theme_ok n) (firstn 10 (sort_by Qneg_key Qle_bool found)))
      by now apply Forall_firstn, sort_by_Forall.
    rewrite Forall_forall in Hall. destruct (Hall t Ht) as (_ & _ & Hc & _).
    exact Hc. }
  assert (Hconfidence : map ExtractedTheme.confidence (firstn 10 sorted1)
                        = map ExtractedTheme.confidence (firstn 10 sorted2)).
  { subst sorted1 sorted2. rewrite (Hconf found1 Hok1), (Hconf found2 Hok2).
    now rewrite Hsupport10. }
  assert (Hlength : List.length (firstn 10 sorted1) = List.length (firstn 10 sorted2)).
  { rewrite <- (length_map support (firstn 10 sorted1)), Hsupport10.
    apply length_map. }
  eexists (firstn 10 sorted1), (firstn 10 sorted2),
          (if List.length (responses engine) <? 2 then _ else _).
  split; [exact Hthemes1|]. split; [exact Hthemes2|]. split; [exact Hconfidence|].
  split; [exact Hsupport10|]. split.
  { intros Hfew. rewrite length_firstn in Hfew.
    assert (Hl1 : List.length sorted1 < 10) by lia.
    assert (Hl2 : List.length sorted2 < 10)
      by (rewrite <- (Permutation_length Hsorted); exact Hl1).
    rewrite !firstn_all2 by lia. exact Hsorted. }
  unfold calculate_consensus. rewrite Hthemes1, Hthemes2, Hconflicts. cbn [bind].
  destruct (List.length (responses engine) <? 2); [split; reflexivity|].
  rewrite Hconfidence, Hlength. split; reflexivity.
Qed.

Lemma mapM_related : forall (A B : Type) (f1 f2 : A -> res B) (R : B -> B -> Prop)
    (l : list A),
  Forall (fun a => exists b1 b2, f1 a = Ok b1 /\ f2 a = Ok b2 /\ R b1 b2) l ->
  exists bs1 bs2, mapM f1 l = Ok bs1 /\ mapM f2 l = Ok bs2 /\ Forall2 R bs1 bs2.
Proof.
  intros A B f1 f2 R l H.
  induction H as [|a l (b1 & b2 & H1 & H2 & Hr) _ (bs1 & bs2 & IH1 & IH2 & IHr)];
    cbn [mapM].
  - exists [], []. repeat split. constructor.
  - rewrite H1, H2, IH1, IH2. cbn [bind]. exists (b1 :: bs1), (b2 :: bs2).
    repeat split. now constructor.
Qed.

Section SortRelated.
Context {A K : Type} (key : A -> K) (leb : K -> K -> bool) (R : A -> A -> Prop).
Hypothesis same_key : forall a b, R a b -> key a = key b.

Lemma insert_by_related : forall x y l1 l2,
  R x y -> Forall2 R l1 l2 ->
  Forall2 R (insert_by key leb x l1) (insert_by key leb y l2).
Proof.
  intros x y l1 l2 Hxy H. induction H as [|a b l1 l2 Hab Hl IH]; cbn [insert_by].
  - constructor; [exact Hxy | constructor].
  - rewrite (same_key _ _ Hxy), (same_key _ _ Hab).
    destruct (leb (key y) (key b)).
    + constructor; [exact Hxy|]. now constructor.
    + constructor; [exact Hab | exact IH].
Qed.

Lemma sort_by_related : forall l1 l2,
  Forall2 R l1 l2 -> Forall2 R (sort_by key leb l1) (sort_by key leb l2).
Proof.
  intros l1 l2 H. induction H as [|a b l1 l2 Hab _ IH]; cbn [sort_by fold_right].
  - constructor.
  - now apply insert_by_related.
Qed.
End SortRelated.

Lemma Forall2_firstn : forall (A B : Type) (R : A -> B -> Prop) (n : nat)
    (l1 : list A) (l2 : list B),
  Forall2 R l1 l2 -> Forall2 R (firstn n l1) (firstn n l2).
Proof.
  intros A B R n l1 l2 H. revert n.
  induction H as [|a b l1 l2 Hab _ IH]; intros [|n]; cbn [firstn]; constructor;
    [exact Hab | apply IH].
Qed.

Lemma dedupe_actions_same : forall (so1 so2 : set_order) (actions : list ActionItem.t),
  exists unique1 unique2,
    _dedupe_actions so1 actions = Ok unique1
    /\ _dedupe_actions so2 actions = Ok unique2
    /\ Forall2 same_action unique1 unique2.
Proof.
  intros so1 so2 actions. unfold _dedupe_actions.
  destruct actions as [|a0 actions0] eqn:Hactions.
  { exists [], []. repeat split. constructor. }
  rewrite <- Hactions. clear Hactions a0 actions0.
  apply mapM_related. unfold values. apply Forall_map.
  eapply Forall_impl;
    [|apply (groups_nonempty _
               (fun a => Py.lower (Py.slice_to 50 (ActionItem.action a)))
               actions []); constructor].
  intros [k group] Hne. cbn [snd] in *. destruct group as [|a rest]; [congruence|].
  eexists. eexists. split; [reflexivity|]. split; [reflexivity|].
  assert (Hperm : Permutation
                    (set_list so1 (flat_map ActionItem.source_models (a :: rest)))
                    (set_list so2 (flat_map ActionItem.source_models (a :: rest)))).
  { apply NoDup_Permutation; try apply set_list_NoDup.
    intros x. now rewrite !set_list_In. }
  unfold same_action.
  cbn [ActionItem.action ActionItem.priority ActionItem.domain ActionItem.rationale
       ActionItem.source_models].
  split; [reflexivity|]. split; [reflexivity|]. split; [reflexivity|].
  split; [|exact Hperm]. now rewrite (Permutation_length Hperm).
Qed.

(** X21: the actions do not depend on the order in which Python enumerates
    a set either.  Whatever the two orders, [extract_actions] returns the
    same number of actions, with the same texts, priorities, domains and
    rationales in the same places, and the same source models for each, up to
    their order. *)
Theorem actions_ignore_set_order :
  forall (so1 so2 : set_order) (self : SynthesisEngine) (rs : list ModelResponse.t),
  exists actions1 actions2,
    extract_actions so1 (add_responses self rs) = Ok actions1
    /\ extract_actions so2 (add_responses self rs) = Ok actions2
    /\ Forall2 same_action actions1 actions2.
Proof.
  intros so1 so2 self rs. unfold extract_actions.
  destruct (extendM_total _ _ _extract_actions_from_response
              (responses (add_responses self rs))) as [found ->].
  { eapply Forall_impl; [|apply kept_has_response].
    apply extract_actions_from_response_ok. }
  cbn [bind].
  destruct (dedupe_actions_same so1 so2 found) as (unique1 & unique2 & -> & -> & Hsame).
  cbn [bind]. eexists. eexists. split; [reflexivity|]. split; [reflexivity|].
  apply Forall2_firstn, sort_by_related; [|exact Hsame].
  intros a b (_ & Hp & _). now rewrite Hp.
Qed.

(** ** Dispatch without a slot *)

Lemma gate_without_slots : forall (tasks : list task) (g : gate),
  gate_reach (gate_init 0 tasks) g -> g = gate_init 0 tasks.
Proof.
  intros tasks g H. induction H as [|g g' _ IH Hstep]; [reflexivity|].
  subst g. exfalso. exact (gate_stuck_without_slots tasks g' Hstep).
Qed.

Lemma gate_reach_trans : forall g0 g1 g2 : gate,
  gate_reach g0 g1 -> gate_reach g1 g2 -> gate_reach g0 g2.
Proof.
  intros g0 g1 g2 H01 H12. induction H12 as [|g g' _ IH Hstep]; [exact H01|].
  eapply reach_step; [exact IH | exact Hstep].
Qed.

(** The calls in flight can all leave, in the order of the list. *)
Lemma gate_release_all : forall (fl : list task) (v : nat) (w done : list task),
  gate_reach {| value := v; waiting := w; in_flight := fl; finished := done |}
             {| value := v + List.length fl; waiting := w; in_flight := [];
                finished := done ++ fl |}.
Proof.
  induction fl as [|t fl IH]; intros v w done.
  - cbn [List.length]. rewrite Nat.add_0_r, app_nil_r. apply reach_here.
  - eapply gate_reach_trans.
    + eapply reach_step; [apply reach_here|].
      apply (step_release v w [] t fl done).
    + cbn [app List.length].
      replace (v + S (List.length fl)) with (S v + List.length fl) by lia.
      replace (done ++ t :: fl) with ((done ++ [t]) ++ fl)
        by (rewrite <- app_assoc; reflexivity).
      apply IH.
Qed.

(** With a free slot the waiting calls can be admitted and leave one by one. *)
Lemma gate_serve_all : forall (w : list task) (v : nat) (done : list task),
  gate_reach {| value := S v; waiting := w; in_flight := []; finished := done |}
             {| value := S v; waiting := []; in_flight := []; finished := done ++ w |}.
Proof.
  induction w as [|t w IH]; intros v done.
  - rewrite app_nil_r. apply reach_here.
  - eapply gate_reach_trans.
    + eapply reach_step; [eapply reach_step; [apply reach_here|]|].
      * apply (step_acquire v [] t w [] done).
      * apply (step_release v w [] t [] done).
    + cbn [app].
      replace (done ++ t :: w) with ((done ++ [t]) ++ w)
        by (rewrite <- app_assoc; reflexivity).
      apply IH.
Qed.

(** X22: the admission gate with and without a slot.  With
    [max_concurrent = 0] the semaphore admits no call: the gate stays in its
    first state, where every call waits and no step is possible, so with a
    call to make the calls are never all finished.  With a cap of at least
    one, from every state the gate reaches it can still reach the state in
    which every call has finished. *)
Theorem gate_never_moves_without_a_slot :
  forall tasks : list task,
    (forall g, gate_reach (gate_init 0 tasks) g ->
               g = gate_init 0 tasks /\ forall g', ~ gate_step g g')
    /\ (tasks <> [] -> forall g, gate_reach (gate_init 0 tasks) g -> ~ gate_final g)
    /\ (forall (k : nat) (g : gate),
          1 <= k -> gate_reach (gate_init k tasks) g ->
          exists g', gate_reach g g' /\ gate_final g'
                     /\ Permutation (finished g') tasks).
Proof.
  intros tasks. split; [|split].
  - intros g Hg. rewrite (gate_without_slots tasks g Hg). split; [reflexivity|].
    intros g' Hstep. exact (gate_stuck_without_slots tasks g' Hstep).
  - intros Hne g Hg. rewrite (gate_without_slots tasks g Hg).
    unfold gate_final, gate_init. cbn [waiting in_flight]. tauto.
  - intros k g Hk Hg. destruct (gate_reach_inv k tasks g Hg) as [Hv Hp].
    destruct g as [v w fl done]. cbn [value waiting in_flight finished] in *.
    destruct k as [|k]; [lia|].
    exists {| value := S k; waiting := []; in_flight := [];
              finished := (done ++ fl) ++ w |}.
    split; [|split].
    + eapply gate_reach_trans; [apply gate_release_all|].
      rewrite Hv. apply gate_serve_all.
    + split; reflexivity.
    + cbn [finished]. eapply Permutation_trans; [|exact Hp].
      eapply Permutation_trans; [apply Permutation_app_comm|].
      apply Permutation_app_head, Permutation_app_comm.
Qed.

(** An instance: three calls, without a slot and from two admissions under
    a cap of two. *)
Lemma gate_never_moves_without_a_slot_witness :
  three_calls <> []
  /\ ~ gate_final (gate_init 0 three_calls)
  /\ exists g', gate_reach (gate_init 2 three_calls) g' /\ gate_final g'
                /\ List.length (finished g') = 3.
Proof.
  assert (Hne : three_calls <> []) by (vm_compute; discriminate).
  destruct (gate_never_moves_without_a_slot three_calls) as (_ & H2 & H3).
  split; [exact Hne|]. split; [apply (H2 Hne), reach_here|].
  destruct (H3 2 (gate_init 2 three_calls)) as (g' & Hreach & Hfinal & Hperm);
    [lia | apply reach_here|].
  exists g'. split; [exact Hreach|]. split; [exact Hfinal|].
  rewrite (Permutation_length Hperm). reflexivity.
Defined.


(** * Properties of the feedback capture *)

Lemma update_get : forall (e : Feedback.entry) k v k',
  Feedback.get (Feedback.update e [(k, v)]) k'
  = if String.eqb k' k then v else Feedback.get e k'.
Proof.
  intros e k v k'. unfold Feedback.get, Feedback.update, dict_set. cbn [fold_left].
  rewrite dict_update_lookup. destruct (String.eqb k' k); reflexivity.
Qed.

Lemma readable_lines : forall lines,
  Forall (fun l => exists e, l = Feedback.dumps e) lines ->
  lines = map Feedback.dumps (objects lines).
Proof.
  intros lines H. induction H as [|l lines [e ->] _ IH]; [reflexivity|].
  unfold objects in *. cbn [flat_map Feedback.dumps app map]. cbn [Feedback.dumps] in IH.
  now rewrite <- IH.
Qed.

Lemma objects_dumps : forall es, objects (map Feedback.dumps es) = es.
Proof.
  induction es as [|e es IH]; [reflexivity|].
  unfold objects in *. cbn [map flat_map Feedback.dumps app]. cbn [Feedback.dumps] in IH.
  now rewrite IH.
Qed.

Lemma update_entries : forall query_hash updates es,
  mapM (fun l =>
          j <- Feedback.loads l ;;
          match j with
          | Feedback.JObject e =>
              Ok (if Feedback.is_str (Feedback.get e "query_hash") query_hash
                  then Feedback.update e updates else e)
          | Feedback.JOther => Raise AttributeError
          end) (map Feedback.dumps es)
  = Ok (map (fun e => if about query_hash e then Feedback.update e updates else e) es).
Proof.
  intros query_hash updates es. induction es as [|e es IH]; [reflexivity|].
  cbn [map mapM Feedback.dumps Feedback.loads bind]. cbn [Feedback.dumps] in IH.
  rewrite IH. reflexivity.
Qed.

(** What [_update_feedback] does to a log that can be read. *)
Lemma update_feedback_spec : forall self query_hash updates,
  readable_log self ->
  exists after,
    Feedback._update_feedback self query_hash updates = Ok after
    /\ Feedback.stats_file after = Feedback.stats_file self
    /\ (Feedback.feedback_file self = None <-> Feedback.feedback_file after = None)
    /\ readable_log after
    /\ log_entries after
       = map (fun e => if about query_hash e then Feedback.update e updates else e)
             (log_entries self)
    /\ ((forall e, In e (log_entries self) -> about query_hash e = false) ->
        after = self).
Proof.
  intros [fb st] query_hash updates Hread. unfold Feedback._update_feedback.
  unfold readable_log, log_entries in *.
  cbn [Feedback.feedback_file Feedback.stats_file] in *.
  destruct fb as [lines|].
  - specialize (Hread lines eq_refl).
    pose proof (readable_lines lines Hread) as Hl.
    set (es := objects lines) in *. clearbody es. subst lines.
    rewrite update_entries. cbn [bind]. eexists. split; [reflexivity|].
    cbn [Feedback.feedback_file Feedback.stats_file].
    split; [reflexivity|]. split; [split; discriminate|]. split; [|split].
    + intros lines' H. inversion H; subst. apply Forall_map, Forall_forall.
      intros e _. now exists e.
    + now rewrite !objects_dumps.
    + intros Hnone. f_equal. f_equal. f_equal.
      rewrite <- (map_id es) at 2. apply map_ext_in.
      intros e He. now rewrite (Hnone e He).
  - exists {| Feedback.feedback_file := None; Feedback.stats_file := st |}.
    split; [reflexivity|]. cbn [Feedback.feedback_file Feedback.stats_file].
    split; [reflexivity|]. split; [tauto|]. split; [intros lines H; discriminate|].
    split; reflexivity.
Qed.

(** X23: feedback on a query changes the entries of that query and nothing
    else.  On a log whose lines are all JSON objects, [_update_feedback] with
    one member to set (as [rate_synthesis], [log_action] and [add_notes] call
    it) returns without an exception; it leaves the statistics file alone and
    creates no log when there is none; the log keeps its entries in number
    and order; an entry of another query is unchanged; an entry of the query
    has the member set and every other member as before; and when no entry
    is of the query, the files are exactly as before. *)
Theorem update_feedback_touches_only_its_query :
  forall (self : Feedback.files) (query_hash member : string) (v : Feedback.value),
    readable_log self ->
    exists after,
      Feedback._update_feedback self query_hash [(member, v)] = Ok after
      /\ Feedback.stats_file after = Feedback.stats_file self
      /\ (Feedback.feedback_file self = None <-> Feedback.feedback_file after = None)
      /\ readable_log after
      /\ Forall2 (fun e e' =>
                    if about query_hash e
                    then forall k, Feedback.get e' k
                                   = if String.eqb k member then v else Feedback.get e k
                    else e' = e)
                 (log_entries self) (log_entries after)
      /\ ((forall e, In e (log_entries self) -> about query_hash e = false) ->
          after = self).
Proof.
  intros self query_hash member v Hread.
  destruct (update_feedback_spec self query_hash [(member, v)] Hread)
    as (after & Hafter & Hstats & Hnone & Hread' & Hentries & Hsame).
  exists after. split; [exact Hafter|]. split; [exact Hstats|].
  split; [exact Hnone|]. split; [exact Hread'|]. split; [|exact Hsame].
  rewrite Hentries. clear. induction (log_entries self) as [|e es IH];
    cbn [map]; constructor; [|exact IH].
  destruct (about query_hash e); [|reflexivity].
  intros k. apply update_get.
Qed.

Lemma update_feedback_touches_only_its_query_witness :
  readable_log two_logged
  /\ exists after,
       Feedback.rate_synthesis two_logged "99887766aabb" true = Ok after
       /\ map (fun e => Feedback.get e "synthesis_helpful") (log_entries after)
          = [Feedback.VNone; Feedback.VBool true].
Proof.
  assert (Hread : readable_log two_logged).
  { intros lines H. inversion H; subst. repeat constructor; eexists; reflexivity. }
  split; [exact Hread|].
  destruct (update_feedback_touches_only_its_query two_logged "99887766aabb"
              "synthesis_helpful" (Feedback.VBool true) Hread)
    as (after & Hafter & _).
  exists after. split; [exact Hafter|].
  vm_compute in Hafter. inversion Hafter. reflexivity.
Defined.

(** X24: one line of the log that is not a JSON object blocks the feedback
    on every query.  [_update_feedback] then ends by an exception, whatever
    the query and the update; so does [rate_model], which then counts
    nothing; and when the line is not JSON at all, [get_recent_feedback]
    ends by an exception too, whatever the limit. *)
Theorem feedback_blocked_by_unreadable_line :
  forall (self : Feedback.files) (lines : list Feedback.line) (l : Feedback.line),
    Feedback.feedback_file self = Some lines ->
    In l lines ->
    (forall e, l <> Feedback.dumps e) ->
    (forall query_hash updates,
       exists exc, Feedback._update_feedback self query_hash updates = Raise exc)
    /\ (forall query_hash model is_best,
          exists exc, Feedback.rate_model self query_hash model is_best = Raise exc)
    /\ (l = Feedback.Garbled ->
        forall limit, exists exc, Feedback.get_recent_feedback self limit = Raise exc).
Proof.
  intros self lines l Hfile Hin Hbad.
  assert (Hupdate : forall query_hash updates,
            exists exc, Feedback._update_feedback self query_hash updates = Raise exc).
  { intros query_hash updates. unfold Feedback._update_feedback. rewrite Hfile.
    match goal with
    | |- context [mapM ?f lines] => destruct (mapM_raises _ _ f lines l Hin) as [exc ->]
    end.
    - destruct l as [[e|]|]; cbn [Feedback.loads bind].
      + exfalso. apply (Hbad e). reflexivity.
      + eexists. reflexivity.
      + eexists. reflexivity.
    - cbn [bind]. eexists. reflexivity. }
  split; [exact Hupdate|]. split.
  - intros query_hash model is_best. unfold Feedback.rate_model.
    destruct (Hupdate query_hash
                [(if is_best then "best_model" else "worst_model", Feedback.VStr model)])
      as [exc ->].
    cbn [bind]. eexists. reflexivity.
  - intros -> limit. unfold Feedback.get_recent_feedback. rewrite Hfile.
    destruct (mapM_raises _ _ Feedback.loads lines Feedback.Garbled Hin) as [exc ->].
    + eexists. reflexivity.
    + cbn [bind]. eexists. reflexivity.
Qed.

Lemma feedback_blocked_by_unreadable_line_witness :
  (exists exc, Feedback.log_action torn_log "0a1b2c3d4e5f" "Registered the company"
               = Raise exc)
  /\ (exists exc, Feedback.rate_model torn_log "0a1b2c3d4e5f" "skill-stacker" true
                  = Raise exc)
  /\ (exists exc, Feedback.get_recent_feedback torn_log 10 = Raise exc).
Proof.
  destruct (feedback_blocked_by_unreadable_line torn_log
              [Feedback.dumps (Feedback.FeedbackEntry "0a1b2c3d4e5f" "Where do I start?"
                                 ["skill-stacker"] "2025-01-05T10:00:00");
               Feedback.Garbled]
              Feedback.Garbled eq_refl (or_intror (or_introl eq_refl)))
    as (Hupdate & Hrate & Hrecent).
  { intros e H. discriminate H. }
  split; [apply Hupdate|]. split; [apply Hrate | apply Hrecent; reflexivity].
Defined.

(** ** The statistics *)

Lemma increment_spec : forall (members : list (string * Feedback.member)) field,
  countable members field = true ->
  exists members',
    Feedback.increment members field = Ok members'
    /\ (forall f, f <> field -> lookup f members' = lookup f members)
    /\ (forall n, int_member members field = Some n ->
                  int_member members' field = Some (n + 1)%Z).
Proof.
  intros members field H. unfold countable in H. unfold Feedback.increment.
  destruct (lookup field members) as [[n|b| |]|] eqn:E; try discriminate;
    (eexists; split; [reflexivity|]; split;
     [intros f Hf; unfold dict_set; rewrite dict_update_lookup;
      apply String.eqb_neq in Hf; now rewrite Hf
     |intros n0; unfold int_member, dict_set;
      rewrite dict_update_lookup, String.eqb_refl, E; intros H0;
      try discriminate H0; congruence]).
Qed.

Lemma increment_raises : forall (members : list (string * Feedback.member)) field,
  countable members field = false ->
  exists exc, Feedback.increment members field = Raise exc.
Proof.
  intros members field H. unfold countable in H. unfold Feedback.increment.
  destruct (lookup field members) as [[n|b| |]|]; try discriminate;
    eexists; reflexivity.
Qed.

Lemma same_lookup_same_member : forall (ms ms' : list (string * Feedback.member)) f,
  lookup f ms' = lookup f ms ->
  int_member ms' f = int_member ms f /\ countable ms' f = countable ms f.
Proof. intros ms ms' f H. unfold int_member, countable. now rewrite H. Qed.

(** The tables after [if model not in stats: stats[model] = {...}]. *)
Lemma ensure_table : forall (tables : list (string * Feedback.table)) model,
  let tables1 := if Py.mem model (keys tables) then tables
                 else dict_set tables model Feedback.no_ratings in
  lookup model tables1
  = Some (match lookup model tables with
          | Some t => t
          | None => Feedback.no_ratings
          end)
  /\ (forall m, m <> model -> lookup m tables1 = lookup m tables).
Proof.
  intros tables model tables1. subst tables1.
  destruct (Py.mem model (keys tables)) eqn:E.
  - split; [|reflexivity]. apply mem_true_In in E.
    destruct (lookup model tables) eqn:El; [reflexivity|].
    apply lookup_None_iff in El. contradiction.
  - assert (El : lookup model tables = None).
    { apply lookup_None_iff. rewrite <- mem_true_In. congruence. }
    rewrite El. unfold dict_set. split.
    + rewrite dict_update_lookup. now rewrite String.eqb_refl.
    + intros m Hm. rewrite dict_update_lookup.
      apply String.eqb_neq in Hm. now rewrite Hm.
Qed.

(** What [_update_model_stats] does to a file that takes the rating. *)
Lemma update_model_stats_spec : forall self model is_positive,
  takes_rating self model is_positive = true ->
  exists after tables tables',
    Feedback._update_model_stats self model is_positive = Ok after
    /\ Feedback.feedback_file after = Feedback.feedback_file self
    /\ tables_of self = Some tables
    /\ tables_of after = Some tables'
    /\ lookup model tables' <> None
    /\ (forall m, m <> model -> lookup m tables' = lookup m tables)
    /\ (forall before, stats_of self model = Some before ->
          stats_of after model
          = Some {| positive := positive before + (if is_positive then 1 else 0);
                    negative := negative before + (if is_positive then 0 else 1);
                    total := total before + 1 |}).
Proof.
  intros self model is_positive Htakes.
  unfold takes_rating, stats_of, tables_of in *. unfold Feedback._update_model_stats.
  destruct (Feedback.get_model_stats self) as [[tables|]|exc]; try discriminate.
  cbn [bind].
  destruct (ensure_table tables model) as [Hmodel Hother].
  cbv zeta in Hmodel, Hother.
  set (tables1 := if Py.mem model (keys tables) then tables
                  else dict_set tables model Feedback.no_ratings) in *.
  rewrite Hmodel.
  set (rated := if is_positive then "positive" else "negative") in *.
  assert (Hmembers : exists members,
            match lookup model tables with
            | Some t => t
            | None => Feedback.no_ratings
            end = Feedback.TObject members
            /\ countable members "total" = true
            /\ countable members rated = true).
  { destruct (lookup model tables) as [[members|]|]; try discriminate.
    - apply andb_true_iff in Htakes. now exists members.
    - eexists. split; [reflexivity|].
      split; [reflexivity | subst rated; destruct is_positive; reflexivity]. }
  destruct Hmembers as (members & Ht & Htotal & Hrated). rewrite Ht.
  destruct (increment_spec members "total" Htotal) as (members1 & -> & Hkeep1 & Hup1).
  cbn [bind].
  assert (Hne : rated <> "total") by (subst rated; destruct is_positive; discriminate).
  assert (Hrated1 : countable members1 rated = true).
  { rewrite (proj2 (same_lookup_same_member members members1 rated (Hkeep1 rated Hne))).
    exact Hrated. }
  destruct (increment_spec members1 rated Hrated1) as (members2 & -> & Hkeep2 & Hup2).
  cbn [bind].
  eexists. exists tables. eexists.
  split; [reflexivity|]. cbn [Feedback.feedback_file Feedback.stats_file
                                 Feedback.get_model_stats].
  split; [reflexivity|]. split; [reflexivity|]. split; [reflexivity|].
  assert (Hset : forall (t : Feedback.table) m,
            lookup m (dict_set tables1 model t)
            = if String.eqb m model then Some t else lookup m tables1).
  { intros t m. unfold dict_set. apply dict_update_lookup. }
  rewrite !Hset, String.eqb_refl.
  split; [discriminate|]. split.
  - intros m Hm. pose proof Hm as Hm'. apply String.eqb_neq in Hm'.
    rewrite Hset, Hm'. now apply Hother.
  - intros before Hbefore. unfold counts_of.
    assert (Hcounts : counts_of (Feedback.TObject members) = Some before).
    { rewrite <- Ht. destruct (lookup model tables); [exact Hbefore|].
      inversion Hbefore. reflexivity. }
    unfold counts_of in Hcounts.
    destruct (int_member members "positive") as [p|] eqn:Ep; [|discriminate].
    destruct (int_member members "negative") as [n|] eqn:En; [|discriminate].
    destruct (int_member members "total") as [t|] eqn:Et; [|discriminate].
    inversion Hcounts; subst before. cbn [positive negative total].
    assert (Htotal2 : int_member members2 "total" = Some (t + 1)%Z).
    { rewrite (proj1 (same_lookup_same_member members1 members2 "total"
                        (Hkeep2 "total" (not_eq_sym Hne)))).
      now apply Hup1. }
    rewrite Htotal2. subst rated. destruct is_positive.
    + rewrite (Hup2 p).
      * rewrite (proj1 (same_lookup_same_member members1 members2 "negative"
                          (Hkeep2 "negative" ltac:(discriminate)))).
        rewrite (proj1 (same_lookup_same_member members members1 "negative"
                          (Hkeep1 "negative" ltac:(discriminate)))).
        rewrite En. f_equal. f_equal; lia.
      * rewrite (proj1 (same_lookup_same_member members members1 "positive"
                          (Hkeep1 "positive" ltac:(discriminate)))).
        exact Ep.
    + rewrite (proj1 (same_lookup_same_member members1 members2 "positive"
                        (Hkeep2 "positive" ltac:(discriminate)))).
      rewrite (proj1 (same_lookup_same_member members members1 "positive"
                        (Hkeep1 "positive" ltac:(discriminate)))).
      rewrite Ep. rewrite (Hup2 n).
      * f_equal. f_equal; lia.
      * rewrite (proj1 (same_lookup_same_member members members1 "negative"
                          (Hkeep1 "negative" ltac:(discriminate)))).
        exact En.
Qed.

(** A file that does not take the rating makes [_update_model_stats] end by
    an exception. *)
Lemma update_model_stats_raises : forall self model is_positive,
  takes_rating self model is_positive = false ->
  exists exc, Feedback._update_model_stats self model is_positive = Raise exc.
Proof.
  intros self model is_positive Htakes.
  unfold takes_rating, tables_of in Htakes. unfold Feedback._update_model_stats.
  destruct (Feedback.get_model_stats self) as [[tables|]|exc]; cbn [bind];
    [|eexists; reflexivity|eexists; reflexivity].
  destruct (ensure_table tables model) as [Hmodel _]. cbv zeta in Hmodel.
  rewrite Hmodel.
  destruct (lookup model tables) as [[members|]|]; try discriminate;
    [|eexists; reflexivity].
  apply andb_false_iff in Htakes.
  destruct (countable members "total") eqn:Htotal.
  - destruct Htakes as [Htakes|Htakes]; [discriminate|].
    destruct (increment_spec members "total" Htotal) as (members1 & -> & Hkeep1 & _).
    cbn [bind].
    assert (Hne : (if is_positive then "positive" else "negative") <> "total")
      by (destruct is_positive; discriminate).
    destruct (increment_raises members1 (if is_positive then "positive" else "negative"))
      as [exc ->].
    + rewrite (proj2 (same_lookup_same_member members members1 _ (Hkeep1 _ Hne))).
      exact Htakes.
    + cbn [bind]. eexists. reflexivity.
  - destruct (increment_raises members "total" Htotal) as [exc ->].
    cbn [bind]. eexists. reflexivity.
Qed.

(** X25: [rate_model] counts every rating that the statistics file takes,
    also one for a query that the log does not have, and is stopped by a
    statistics file that does not take it only after the log was rewritten.
    The log is one whose lines are all JSON objects.  When the statistics
    file is absent, or is a JSON object in which the model has no table or
    a table whose [total] and whose count for the rating are numbers,
    [rate_model] returns without an exception; the file is then a JSON
    object with a table for the model; the tables of the other models are
    as before; integer counts of the model have [total] one more than
    before and [positive] (for a best rating) or [negative] (for a worst
    one) one more, counted from zero when the model had no table; and when
    no entry of the log is of the query, the log is left as it was although
    the rating was counted.  With any other statistics file, such as an
    empty one, the update of the log succeeds and [rate_model] then ends by
    the exception of [_update_model_stats], which writes nothing. *)
Theorem rate_model_counts_every_rating :
  forall (self : Feedback.files) (query_hash model : string) (is_best : bool),
    readable_log self ->
    (takes_rating self model is_best = true ->
     exists after tables tables',
       Feedback.rate_model self query_hash model is_best = Ok after
       /\ tables_of self = Some tables
       /\ tables_of after = Some tables'
       /\ lookup model tables' <> None
       /\ (forall m, m <> model -> lookup m tables' = lookup m tables)
       /\ (forall before, stats_of self model = Some before ->
             stats_of after model
             = Some {| positive := positive before + (if is_best then 1 else 0);
                       negative := negative before + (if is_best then 0 else 1);
                       total := total before + 1 |})
       /\ ((forall e, In e (log_entries self) -> about query_hash e = false) ->
           Feedback.feedback_file after = Feedback.feedback_file self))
    /\ (takes_rating self model is_best = false ->
        exists updated exc,
          Feedback._update_feedback self query_hash
            [(if is_best then "best_model" else "worst_model", Feedback.VStr model)]
          = Ok updated
          /\ Feedback.stats_file updated = Feedback.stats_file self
          /\ Feedback._update_model_stats updated model is_best = Raise exc
          /\ Feedback.rate_model self query_hash model is_best = Raise exc).
Proof.
  intros self query_hash model is_best Hread. unfold Feedback.rate_model.
  destruct (update_feedback_spec self query_hash
              [(if is_best then "best_model" else "worst_model", Feedback.VStr model)]
              Hread)
    as (updated & -> & Hstats & _ & _ & _ & Hsame).
  cbn [bind].
  assert (Htables : tables_of updated = tables_of self).
  { unfold tables_of, Feedback.get_model_stats. now rewrite Hstats. }
  assert (Hof : stats_of updated model = stats_of self model).
  { unfold stats_of. now rewrite Htables. }
  assert (Htakes : takes_rating updated model is_best = takes_rating self model is_best).
  { unfold takes_rating. now rewrite Htables. }
  split.
  - intros H. rewrite <- Htakes in H.
    destruct (update_model_stats_spec updated model is_best H)
      as (after & tables & tables' & -> & Hfile & Hbefore & Hafter & Hhas & Hother
          & Hcounted).
    exists after, tables, tables'. split; [reflexivity|].
    split; [now rewrite <- Htables|]. split; [exact Hafter|]. split; [exact Hhas|].
    split; [exact Hother|]. split.
    + intros before Hb. apply Hcounted. now rewrite Hof.
    + intros Hnone. rewrite Hfile. now rewrite (Hsame Hnone).
  - intros H. rewrite <- Htakes in H.
    destruct (update_model_stats_raises updated model is_best H) as [exc Hexc].
    exists updated, exc. split; [reflexivity|]. split; [exact Hstats|].
    split; exact Hexc.
Qed.

(** An instance: a worst rating for a query that the log does not have,
    without a statistics file and beside an empty one. *)
Lemma rate_model_counts_every_rating_witness :
  readable_log two_logged
  /\ takes_rating two_logged "skill-stacker" false = true
  /\ (exists after,
        Feedback.rate_model two_logged "ffffffffffff" "skill-stacker" false = Ok after
        /\ stats_of after "skill-stacker"
           = Some {| positive := 0; negative := 1; total := 1 |}
        /\ Feedback.feedback_file after = Feedback.feedback_file two_logged)
  /\ readable_log empty_stats
  /\ takes_rating empty_stats "skill-stacker" false = false
  /\ Feedback.rate_model empty_stats "ffffffffffff" "skill-stacker" false
     = Raise JSONDecodeError.
Proof.
  assert (Hread : readable_log two_logged).
  { intros lines H. inversion H; subst. repeat constructor; eexists; reflexivity. }
  assert (Hread' : readable_log empty_stats).
  { intros lines H. inversion H; subst. repeat constructor; eexists; reflexivity. }
  split; [exact Hread|]. split; [reflexivity|]. split.
  - destruct (rate_model_counts_every_rating two_logged "ffffffffffff" "skill-stacker"
                false Hread)
      as (Hcounts & _).
    destruct (Hcounts eq_refl) as (after & tables & tables' & Hafter & _).
    exists after. split; [exact Hafter|].
    vm_compute in Hafter. inversion Hafter. split; reflexivity.
  - split; [exact Hread'|]. split; [reflexivity|].
    destruct (rate_model_counts_every_rating empty_stats "ffffffffffff" "skill-stacker"
                false Hread')
      as (_ & Hraises).
    destruct (Hraises eq_refl) as (updated & exc & _ & _ & _ & Hexc).
    rewrite Hexc. vm_compute in Hexc. congruence.
Defined.

(** ** Reading the log *)

Lemma loads_all : forall lines,
  Forall (fun l => l <> Feedback.Garbled) lines ->
  exists all, mapM Feedback.loads lines = Ok all
              /\ List.length all = List.length lines
              /\ map Feedback.Line all = lines.
Proof.
  intros lines H. induction H as [|l lines Hl _ (all & IH & Hlen & Hmap)].
  - exists []. repeat split.
  - destruct l as [j|]; [|congruence]. exists (j :: all).
    cbn [mapM Feedback.loads bind]. rewrite IH. cbn [bind List.length map].
    split; [reflexivity|]. split; [now rewrite Hlen | now rewrite Hmap].
Qed.

(** X26: [get_recent_feedback] returns the end of the log, and everything
    for a limit of 0.  On a log whose lines are all JSON it returns without
    an exception: nothing when there is no log; for a limit of at least 1 the
    last [limit] lines as read, in their order, or all of them when they are
    fewer; for the limit 0 every line, since [entries[-0:]] is the whole
    list; and for a negative limit all but the first [-limit] lines. *)
Theorem get_recent_feedback_returns_the_tail :
  forall (self : Feedback.files) (limit : Z),
    json_log self ->
    exists recent all,
      Feedback.get_recent_feedback self limit = Ok recent
      /\ Feedback.get_recent_feedback self 0 = Ok all
      /\ (forall lines, Feedback.feedback_file self = Some lines ->
                        lines = map Feedback.Line all)
      /\ (Feedback.feedback_file self = None -> all = [])
      /\ ((1 <= limit)%Z ->
          recent = last_n (Z.to_nat limit) all
          /\ List.length recent = Nat.min (Z.to_nat limit) (List.length all))
      /\ (limit = 0%Z -> recent = all)
      /\ ((limit < 0)%Z -> recent = skipn (Z.to_nat (- limit)) all).
Proof.
  intros self limit Hjson. unfold Feedback.get_recent_feedback.
  assert (Hall : exists all,
            match Feedback.feedback_file self with
            | Some lines => mapM Feedback.loads lines
            | None => Ok []
            end = Ok all
            /\ (forall lines, Feedback.feedback_file self = Some lines ->
                              lines = map Feedback.Line all)
            /\ (Feedback.feedback_file self = None -> all = [])).
  { unfold json_log in Hjson. destruct (Feedback.feedback_file self) as [lines|].
    - destruct (loads_all lines (Hjson lines eq_refl)) as (all & Hall & _ & Hmap).
      exists all. split; [exact Hall|]. split; [|discriminate].
      intros lines' H. inversion H; subst. now symmetry.
    - exists []. split; [reflexivity|]. split; [discriminate | reflexivity]. }
  destruct Hall as (all & -> & Hfile & Hnone). cbn [bind].
  exists (Feedback.slice_from (- limit) all), all.
  split; [reflexivity|]. split; [reflexivity|]. split; [exact Hfile|].
  split; [exact Hnone|]. unfold Feedback.slice_from, last_n. split; [|split].
  - intros Hpos. destruct (- limit <? 0)%Z eqn:E; [|apply Z.ltb_ge in E; lia].
    rewrite Z.opp_involutive. split; [reflexivity|]. rewrite length_skipn. lia.
  - intros ->. reflexivity.
  - intros Hneg. destruct (- limit <? 0)%Z eqn:E; [apply Z.ltb_lt in E; lia|].
    reflexivity.
Qed.

Lemma get_recent_feedback_returns_the_tail_witness :
  json_log two_logged
  /\ exists recent all,
       Feedback.get_recent_feedback two_logged 1 = Ok recent
       /\ Feedback.get_recent_feedback two_logged 0 = Ok all
       /\ List.length recent = 1 /\ List.length all = 2.
Proof.
  assert (Hjson : json_log two_logged).
  { intros lines H. inversion H; subst. repeat constructor; discriminate. }
  split; [exact Hjson|].
  destruct (get_recent_feedback_returns_the_tail two_logged 1 Hjson)
    as (recent & all & Hrecent & Hall & _).
  exists recent, all. split; [exact Hrecent|]. split; [exact Hall|].
  vm_compute in Hrecent, Hall. inversion Hrecent. inversion Hall. split; reflexivity.
Defined.

Lemma log_query_appends : forall digest tail self question models now timestamp,
  ends_in_newline tail self ->
  let logged := fst (Feedback.log_query digest tail self question models now timestamp) in
  let query_hash :=
    snd (Feedback.log_query digest tail self question models now timestamp) in
  query_hash = Py.slice_to 12 (digest (question ++ now)%string)
  /\ Feedback.stats_file logged = Feedback.stats_file self
  /\ Feedback.feedback_file logged
     = Some (match Feedback.feedback_file self with
             | Some lines => lines
             | None => []
             end
             ++ [Feedback.dumps
                   (Feedback.FeedbackEntry query_hash question models timestamp)]).
Proof.
  intros digest tail self question models now timestamp Hends.
  unfold Feedback.log_query, Feedback._append_feedback.
  cbn [fst snd Feedback.feedback_file Feedback.stats_file].
  split; [reflexivity|]. split; [reflexivity|].
  destruct Hends as [->|[->| ->]]; [reflexivity| |]; destruct tail; reflexivity.
Qed.

(** The entry lands in a last line that has no newline. *)
Lemma log_query_glues : forall digest blank self question models now timestamp lines,
  Feedback.feedback_file self = Some lines ->
  lines <> [] ->
  (forall l, In l lines -> l <> Feedback.Garbled) ->
  Feedback.feedback_file
    (fst (Feedback.log_query digest (Feedback.Open blank) self question models
            now timestamp))
  = Some (removelast lines ++ [Feedback.Garbled]).
Proof.
  intros digest blank self question models now timestamp lines Hfile Hne Hjson.
  unfold Feedback.log_query, Feedback._append_feedback.
  cbn [fst Feedback.feedback_file]. rewrite Hfile.
  destruct lines as [|l lines']; [congruence|].
  destruct (last (l :: lines') Feedback.Garbled) as [j|] eqn:Hlast; [reflexivity|].
  exfalso. destruct (exists_last Hne) as (front & l' & Heq).
  rewrite Heq, last_last in Hlast. apply (Hjson l'); [|exact Hlast].
  rewrite Heq. apply in_or_app. right. now left.
Qed.

Lemma objects_app : forall l1 l2, objects (l1 ++ l2) = objects l1 ++ objects l2.
Proof. intros l1 l2. unfold objects. apply flat_map_app. Qed.

(** X27: feedback given on a logged query is found again when the log ends
    with a newline, and the log is lost to feedback when it does not.  The
    log is one whose lines are all JSON objects.  When its text ends with a
    newline or is empty or absent, [rate_synthesis] after [log_query], with
    the hash that [log_query] returned, succeeds, and
    [get_recent_feedback(1)] then returns the one entry of that query, with
    its question, its models and the rating given; the log has one entry
    more than before; and the older entries are what they were, provided
    none of them has the same hash.  When its last line has no newline, the
    entry is written onto that line, which is then no JSON:
    [rate_synthesis] and [get_recent_feedback] both end by an exception. *)
Theorem logged_query_can_be_rated :
  forall (digest : string -> string) (tail : Feedback.ending) (self : Feedback.files)
         (question : string) (models : list string) (now timestamp : string)
         (helpful : bool),
    readable_log self ->
    (ends_in_newline tail self ->
     exists rated e,
       Feedback.rate_synthesis
         (fst (Feedback.log_query digest tail self question models now timestamp))
         (snd (Feedback.log_query digest tail self question models now timestamp))
         helpful
       = Ok rated
       /\ Feedback.get_recent_feedback rated 1 = Ok [Feedback.JObject e]
       /\ Feedback.get e "query_hash"
          = Feedback.VStr (snd (Feedback.log_query digest tail self question models
                                  now timestamp))
       /\ Feedback.get e "question" = Feedback.VStr question
       /\ Feedback.get e "models_used" = Feedback.VList models
       /\ Feedback.get e "synthesis_helpful" = Feedback.VBool helpful
       /\ List.length (log_entries rated) = S (List.length (log_entries self))
       /\ ((forall old, In old (log_entries self) ->
              about (snd (Feedback.log_query digest tail self question models
                            now timestamp)) old = false) ->
           log_entries rated = log_entries self ++ [e]))
    /\ (~ ends_in_newline tail self ->
        (exists exc,
           Feedback.rate_synthesis
             (fst (Feedback.log_query digest tail self question models now timestamp))
             (snd (Feedback.log_query digest tail self question models now timestamp))
             helpful
           = Raise exc)
        /\ (forall limit, exists exc,
              Feedback.get_recent_feedback
                (fst (Feedback.log_query digest tail self question models now timestamp))
                limit
              = Raise exc)).
Proof.
  intros digest tail self question models now timestamp helpful Hread. split.
  - intros Hends.
    destruct (log_query_appends digest tail self question models now timestamp Hends)
      as (Hhash & Hstats & Hfile).
    cbv zeta in Hhash, Hstats, Hfile.
    set (logged := fst (Feedback.log_query digest tail self question models now
                          timestamp)) in *.
    set (query_hash := snd (Feedback.log_query digest tail self question models now
                              timestamp)) in *.
    clearbody logged query_hash.
    set (fresh := Feedback.FeedbackEntry query_hash question models timestamp) in *.
    set (before := match Feedback.feedback_file self with
                   | Some lines => lines
                   | None => []
                   end) in *.
    assert (Hbefore : Forall (fun l => exists e, l = Feedback.dumps e) before).
    { subst before. unfold readable_log in Hread.
      destruct (Feedback.feedback_file self) as [lines|];
        [now apply Hread | constructor]. }
    assert (Hentries : log_entries self = objects before).
    { subst before. unfold log_entries.
      destruct (Feedback.feedback_file self); reflexivity. }
    assert (Hread' : readable_log logged).
    { intros lines H. rewrite Hfile in H. inversion H; subst.
      apply Forall_app. split; [exact Hbefore|]. constructor; [|constructor].
      now exists fresh. }
    assert (Hlogged : log_entries logged = objects before ++ [fresh]).
    { unfold log_entries. rewrite Hfile, objects_app. reflexivity. }
    unfold Feedback.rate_synthesis.
    destruct (update_feedback_spec logged query_hash
                [("synthesis_helpful", Feedback.VBool helpful)] Hread')
      as (rated & -> & _ & Hsome & Hread'' & Hrated & _).
    assert (Habout : about query_hash fresh = true).
    { unfold about, fresh, Feedback.get, Feedback.FeedbackEntry. cbn.
      apply String.eqb_refl. }
    rewrite Hlogged, map_app in Hrated. cbn [map] in Hrated. rewrite Habout in Hrated.
    set (e := Feedback.update fresh [("synthesis_helpful", Feedback.VBool helpful)]) in *.
    set (older := map (fun e0 => if about query_hash e0
                                 then Feedback.update e0
                                        [("synthesis_helpful", Feedback.VBool helpful)]
                                 else e0) (objects before)) in *.
    exists rated, e. split; [reflexivity|].
    assert (Hget : forall k, Feedback.get e k
                             = if String.eqb k "synthesis_helpful"
                               then Feedback.VBool helpful else Feedback.get fresh k).
    { intros k. apply update_get. }
    split.
    { unfold Feedback.get_recent_feedback.
      destruct (Feedback.feedback_file rated) as [lines|] eqn:Hlines.
      - pose proof (readable_lines lines (Hread'' lines Hlines)) as Hl.
        unfold log_entries in Hrated. rewrite Hlines in Hrated.
        rewrite Hrated in Hl. rewrite Hl, map_app. cbn [map].
        assert (Hloads : forall es, mapM Feedback.loads (map Feedback.dumps es)
                                    = Ok (map Feedback.JObject es)).
        { induction es as [|x es IH]; [reflexivity|].
          cbn [map mapM Feedback.dumps Feedback.loads bind]. cbn [Feedback.dumps] in IH.
          now rewrite IH. }
        change (map Feedback.dumps older ++ [Feedback.dumps e])
          with (map Feedback.dumps older ++ map Feedback.dumps [e]).
        rewrite <- map_app, Hloads. cbn [bind]. f_equal.
        unfold Feedback.slice_from.
        change (- (1) <? 0)%Z with true. cbv iota.
        change (Z.to_nat (- - (1))) with 1.
        rewrite map_app, length_app, length_map. cbn [map List.length].
        replace (List.length older + 1 - 1)
          with (List.length (map Feedback.JObject older))
          by (rewrite length_map; lia).
        now rewrite skipn_app, skipn_all, Nat.sub_diag.
      - exfalso. destruct Hsome as [_ Hsome]. specialize (Hsome eq_refl).
        rewrite Hfile in Hsome. discriminate. }
    split; [rewrite Hget; reflexivity|]. split; [rewrite Hget; reflexivity|].
    split; [rewrite Hget; reflexivity|]. split; [rewrite Hget; reflexivity|].
    split.
    { rewrite Hrated, Hentries, length_app. subst older. rewrite length_map.
      cbn [List.length]. lia. }
    intros Hfresh. rewrite Hrated, Hentries. f_equal. subst older.
    rewrite <- (map_id (objects before)) at 2. apply map_ext_in.
    intros old Hold. rewrite Hentries in Hfresh. now rewrite (Hfresh old Hold).
  - intros Hopen.
    assert (Hlines : exists blank lines,
              tail = Feedback.Open blank
              /\ Feedback.feedback_file self = Some lines /\ lines <> []).
    { unfold ends_in_newline in Hopen. destruct tail as [|blank]; [tauto|].
      destruct (Feedback.feedback_file self) as [[|l lines]|]; [tauto| |tauto].
      exists blank, (l :: lines). split; [reflexivity|]. split; [reflexivity|].
      discriminate. }
    destruct Hlines as (blank & lines & -> & Hfile & Hne).
    assert (Hglued : Feedback.feedback_file
                       (fst (Feedback.log_query digest (Feedback.Open blank) self
                               question models now timestamp))
                     = Some (removelast lines ++ [Feedback.Garbled])).
    { apply log_query_glues; [exact Hfile | exact Hne|].
      intros l Hl ->. pose proof (Hread lines Hfile) as Hall.
      rewrite Forall_forall in Hall. destruct (Hall _ Hl) as [e He]. discriminate He. }
    assert (Hin : In Feedback.Garbled (removelast lines ++ [Feedback.Garbled]))
      by (apply in_or_app; right; now left).
    split.
    + unfold Feedback.rate_synthesis, Feedback._update_feedback. rewrite Hglued.
      match goal with
      | |- context [mapM ?f ?ls] =>
          destruct (mapM_raises _ _ f ls Feedback.Garbled Hin) as [exc ->]
      end.
      * eexists. reflexivity.
      * cbn [bind]. eexists. reflexivity.
    + intros limit. unfold Feedback.get_recent_feedback. rewrite Hglued.
      destruct (mapM_raises _ _ Feedback.loads _ Feedback.Garbled Hin) as [exc ->].
      * eexists. reflexivity.
      * cbn [bind]. eexists. reflexivity.
Qed.

(** An instance: a third consultation logged onto the log of two, once
    ending with a newline and once without. *)
Lemma logged_query_can_be_rated_witness :
  readable_log two_logged
  /\ ends_in_newline Feedback.Newline two_logged
  /\ (exists rated e,
        Feedback.rate_synthesis
          (fst (Feedback.log_query (fun s => s) Feedback.Newline two_logged
                  "Which stack?" ["skill-stacker"]
                  "2025-01-07T09:00:00" "2025-01-07T09:00:01"))
          (snd (Feedback.log_query (fun s => s) Feedback.Newline two_logged
                  "Which stack?" ["skill-stacker"]
                  "2025-01-07T09:00:00" "2025-01-07T09:00:01"))
          true
        = Ok rated
        /\ Feedback.get_recent_feedback rated 1 = Ok [Feedback.JObject e]
        /\ Feedback.get e "synthesis_helpful" = Feedback.VBool true)
  /\ ~ ends_in_newline (Feedback.Open false) two_logged
  /\ exists exc,
       Feedback.rate_synthesis
         (fst (Feedback.log_query (fun s => s) (Feedback.Open false) two_logged
                 "Which stack?" ["skill-stacker"]
                 "2025-01-07T09:00:00" "2025-01-07T09:00:01"))
         (snd (Feedback.log_query (fun s => s) (Feedback.Open false) two_logged
                 "Which stack?" ["skill-stacker"]
                 "2025-01-07T09:00:00" "2025-01-07T09:00:01"))
         true
       = Raise exc.
Proof.
  assert (Hread : readable_log two_logged).
  { intros lines H. inversion H; subst. repeat constructor; eexists; reflexivity. }
  assert (Hends : ends_in_newline Feedback.Newline two_logged) by (now left).
  assert (Hopen : ~ ends_in_newline (Feedback.Open false) two_logged).
  { intros [H|[H|H]]; discriminate H. }
  split; [exact Hread|]. split; [exact Hends|]. split.
  - destruct (logged_query_can_be_rated (fun s => s) Feedback.Newline two_logged
                "Which stack?" ["skill-stacker"]
                "2025-01-07T09:00:00" "2025-01-07T09:00:01" true Hread)
      as (Hrate & _).
    destruct (Hrate Hends) as (rated & e & Hrated & Hrecent & _ & _ & _ & Hhelpful & _).
    exists rated, e. split; [exact Hrated|]. split; [exact Hrecent | exact Hhelpful].
  - split; [exact Hopen|].
    destruct (logged_query_can_be_rated (fun s => s) (Feedback.Open false) two_logged
                "Which stack?" ["skill-stacker"]
                "2025-01-07T09:00:00" "2025-01-07T09:00:01" true Hread)
      as (_ & Hraise).
    exact (proj1 (Hraise Hopen)).
Defined.

(** * Properties of the HTTP API *)

Lemma tuple_ltb_spec : forall a b,
  Server.tuple_ltb a b = true
  <-> fst a < fst b \/ (fst a = fst b /\ String.ltb (snd a) (snd b) = true).
Proof.
  intros [na sa] [nb sb]. unfold Server.tuple_ltb. cbn [fst snd].
  rewrite orb_true_iff, andb_true_iff, Nat.ltb_lt, Nat.eqb_eq. tauto.
Qed.

Lemma tuple_ltb_between : forall a b c,
  Server.tuple_ltb a c = true ->
  Server.tuple_ltb a b = true \/ Server.tuple_ltb b c = true.
Proof.
  intros a b c. rewrite !tuple_ltb_spec. intros [H|[H S]].
  - destruct (Nat.lt_ge_cases (fst a) (fst b)) as [Hab|Hab]; [now left; left|].
    right. left. lia.
  - destruct (Nat.lt_trichotomy (fst a) (fst b)) as [Hab|[Hab|Hab]].
    + left. now left.
    + destruct (String.ltb (snd a) (snd b)) eqn:S1; [left; right; now split|].
      right. right. split; [lia|].
      destruct (String.ltb (snd b) (snd a)) eqn:S2.
      * eapply string_ltb_trans; eassumption.
      * now rewrite <- (string_ltb_total _ _ S1 S2).
    + right. left. lia.
Qed.

Lemma tuple_ltb_irrefl : forall a, Server.tuple_ltb a a = false.
Proof.
  intros a. destruct (Server.tuple_ltb a a) eqn:E; [|reflexivity].
  apply tuple_ltb_spec in E. destruct E as [E|[_ E]]; [lia|].
  now rewrite string_ltb_irrefl in E.
Qed.

Lemma tuple_leb_total : forall x y,
  Server.tuple_leb x y = false -> Server.tuple_leb y x = true.
Proof.
  intros x y. unfold Server.tuple_leb. rewrite negb_false_iff, negb_true_iff.
  intros H. destruct (Server.tuple_ltb x y) eqn:E; [|reflexivity].
  apply tuple_ltb_spec in H, E. exfalso.
  destruct H as [H|[H S1]]; destruct E as [E|[E S2]]; try lia.
  pose proof (string_ltb_trans _ _ _ S1 S2) as S3.
  now rewrite string_ltb_irrefl in S3.
Qed.

Lemma tuple_leb_trans : forall x y z,
  Server.tuple_leb x y = true -> Server.tuple_leb y z = true ->
  Server.tuple_leb x z = true.
Proof.
  intros x y z. unfold Server.tuple_leb. rewrite !negb_true_iff. intros H1 H2.
  destruct (Server.tuple_ltb z x) eqn:E; [|reflexivity].
  destruct (tuple_ltb_between z y x E); congruence.
Qed.

Lemma tuple_leb_listed : forall a b,
  Server.tuple_leb (Server.sort_key a) (Server.sort_key b) = true -> listed_before a b.
Proof.
  intros a b. unfold Server.tuple_leb, listed_before, domain_rank.
  rewrite negb_true_iff. intros H.
  destruct (Nat.lt_trichotomy (fst (Server.sort_key a)) (fst (Server.sort_key b)))
    as [Hlt|[Heq|Hgt]].
  - now left.
  - right. split; [exact Heq|].
    destruct (String.ltb (Server.ModelResponse.model b) (Server.ModelResponse.model a))
      eqn:S; [|reflexivity].
    assert (Server.tuple_ltb (Server.sort_key b) (Server.sort_key a) = true).
    { apply tuple_ltb_spec. right. split; [now symmetry | exact S]. }
    congruence.
  - assert (Server.tuple_ltb (Server.sort_key b) (Server.sort_key a) = true).
    { apply tuple_ltb_spec. now left. }
    congruence.
Qed.

Lemma query_ollama_model_returns : forall run model_name prompt timeout,
  exists r,
    Server.query_ollama_model run model_name prompt timeout = Server.Returned r
    /\ Server.ModelResponse.model r = model_name
    /\ reports (run model_name prompt timeout) timeout r
    /\ Server.ModelResponse.domain r
       = Server.info_get (lookup model_name Server.MODELS) Server.Info.domain "unknown"
    /\ Server.ModelResponse.color r
       = Server.info_get (lookup model_name Server.MODELS) Server.Info.color "#64748b"
    /\ Server.ModelResponse.description r
       = Server.info_get (lookup model_name Server.MODELS) Server.Info.description
                         EmptyString.
Proof.
  intros run model_name prompt timeout. unfold Server.query_ollama_model, reports.
  destruct (Server.outcome_of (run model_name prompt timeout)) as [result|[|message]].
  - destruct (Server.returncode result =? 0)%Z.
    + eexists. split; [reflexivity|]. cbn. repeat split.
    + eexists. split; [reflexivity|]. cbn. repeat split.
      eexists. split; [reflexivity|].
      destruct (Py.strip (Server.stderr result)) eqn:E; cbn; discriminate.
  - eexists. split; [reflexivity|]. cbn. repeat split.
  - eexists. split; [reflexivity|]. cbn. repeat split.
Qed.

Lemma reports_well_formed : forall p timeout r, reports p timeout r -> well_formed r.
Proof.
  intros p timeout r [_ H]. unfold well_formed.
  destruct (Server.outcome_of p) as [result|[|message]].
  - destruct (Server.returncode result =? 0)%Z.
    + destruct H as (-> & -> & ->). split; [now left|].
      split; split; intros; [discriminate | reflexivity | reflexivity | reflexivity].
    + destruct H as (-> & -> & e & -> & _). split; [right; now left|].
      split; split; intros; congruence.
  - destruct H as (-> & -> & ->). split; [right; right; now left|].
    split; split; intros; congruence.
  - destruct H as (-> & -> & ->). split; [right; now left|].
    split; split; intros; congruence.
Qed.

Lemma known_registered : forall model_name,
  known model_name ->
  exists info, lookup model_name Server.MODELS = Some info
               /\ In (model_name, info) Server.MODELS.
Proof.
  intros model_name H.
  destruct (lookup model_name Server.MODELS) as [info|] eqn:E.
  - exists info. split; [reflexivity | now apply lookup_In].
  - apply lookup_None_iff in E. contradiction.
Qed.

Lemma registry_domains_ranked : forall name info,
  In (name, info) Server.MODELS ->
  exists n, lookup (Server.Info.domain info) Server.domain_order = Some n /\ n <= 5.
Proof.
  intros name info H.
  assert (Hall : forallb (fun kv : string * Server.Info.t =>
                   match lookup (Server.Info.domain (snd kv)) Server.domain_order with
                   | Some n => n <=? 5
                   | None => false
                   end) Server.MODELS = true) by (vm_compute; reflexivity).
  rewrite forallb_forall in Hall. specialize (Hall _ H). cbn [snd] in Hall.
  destruct (lookup (Server.Info.domain info) Server.domain_order) as [n|];
    [|discriminate].
  exists n. split; [reflexivity | now apply Nat.leb_le].
Qed.

Lemma models_to_query_nonempty : forall request,
  Server.models_to_query request <> [].
Proof.
  intros request. unfold Server.models_to_query.
  destruct (Server.QueryRequest.models request) as [[|m ms]|]; discriminate.
Qed.

Lemma unknown_names_spec : forall request m,
  In m (unknown_names request)
  <-> ~ known m
      /\ exists names, Server.QueryRequest.models request = Some names /\ In m names.
Proof.
  intros request m. unfold unknown_names, known. rewrite filter_In, negb_true_iff.
  assert (Hmem : Py.mem m (keys Server.MODELS) = false <-> ~ In m (keys Server.MODELS)).
  { rewrite <- mem_true_In. destruct (Py.mem m (keys Server.MODELS)); split;
      congruence. }
  rewrite Hmem. unfold Server.models_to_query.
  destruct (Server.QueryRequest.models request) as [[|n names]|].
  - split; [tauto|]. intros (_ & l & Hl & Hin). inversion Hl; subst. destruct Hin.
  - split.
    + intros [Hin Hun]. split; [exact Hun|]. now exists (n :: names).
    + intros (Hun & l & Hl & Hin). inversion Hl; subst. tauto.
  - split; [tauto|]. intros (_ & l & Hl & _). discriminate.
Qed.

(** X28: [query_models] refuses a request exactly when it names a model that
    the registry does not have: the request then ends by an [HTTPException]
    with status 400 whose detail lists the unregistered names, in the order
    of the request, whatever the processes would have done; no other failure
    is possible, and a request without names, or with an empty list of them,
    is never refused. *)
Theorem query_models_rejects_unknown_names :
  forall (env : nat -> Server.subprocess) (total_ms : Z)
         (request : Server.QueryRequest.t),
    (forall f,
       Server.query_models env total_ms request = Server.Fail f
       <-> unknown_names request <> []
           /\ f = Server.HTTPException 400
                    (Server.InvalidModelNames (unknown_names request)))
    /\ (forall m,
          In m (unknown_names request)
          <-> ~ known m
              /\ exists names,
                   Server.QueryRequest.models request = Some names /\ In m names).
Proof.
  intros env total_ms request. split; [|apply unknown_names_spec].
  intros f. unfold Server.query_models. fold (unknown_names request).
  destruct (unknown_names request) as [|m ms].
  - pose proof (models_to_query_nonempty request) as Hne.
    destruct (Server.models_to_query request) as [|q qs]; [congruence|].
    cbn [List.length]. destruct (Nat.min (S (List.length qs)) 8 <=? 0) eqn:E.
    + apply Nat.leb_le in E. lia.
    + split; [discriminate | intros [H _]; congruence].
  - split.
    + intros H. inversion H; subst. split; [discriminate | reflexivity].
    + intros [_ ->]. reflexivity.
Qed.

Lemma combine_seq_snd : forall (A : Type) (l : list A) (s : nat),
  map snd (combine (seq s (List.length l)) l) = l.
Proof.
  intros A l. induction l as [|a l IH]; intros s; cbn; [reflexivity|].
  now rewrite IH.
Qed.

Lemma combine_seq_In : forall (A : Type) (l : list A) (s i : nat) (a : A),
  In (i, a) (combine (seq s (List.length l)) l) ->
  s <= i /\ nth_error l (i - s) = Some a.
Proof.
  intros A l. induction l as [|x l IH]; intros s i a H; cbn in H; [destruct H|].
  destruct H as [H|H].
  - inversion H; subst. rewrite Nat.sub_diag. split; [lia | reflexivity].
  - apply IH in H. destruct H as [Hs Hn]. split; [lia|].
    replace (i - s) with (S (i - S s)) by lia. exact Hn.
Qed.

Lemma gather_spec : forall env request submitted,
  Forall2 (fun (im : nat * string) r =>
             Server.query_ollama_model (env (fst im)) (snd im)
               (Server.QueryRequest.prompt request)
               (Server.QueryRequest.timeout request)
             = Server.Returned r)
          submitted (Server.gather env request submitted).
Proof.
  intros env request submitted. induction submitted as [|[i m] submitted IH];
    cbn [Server.gather map]; constructor; [|exact IH].
  cbn [fst snd].
  destruct (query_ollama_model_returns (env i) m
              (Server.QueryRequest.prompt request)
              (Server.QueryRequest.timeout request)) as (r & -> & _).
  reflexivity.
Qed.

Lemma success_count_le : forall (rs : list Server.ModelResponse.t),
  List.length (filter (fun r => String.eqb (Server.ModelResponse.status r) "success") rs)
  <= List.length rs.
Proof.
  induction rs as [|r rs IH]; cbn; [lia|].
  destruct (String.eqb (Server.ModelResponse.status r) "success"); cbn; lia.
Qed.

Lemma answer_registered : forall run model_name prompt timeout r,
  known model_name ->
  Server.query_ollama_model run model_name prompt timeout = Server.Returned r ->
  Server.ModelResponse.model r = model_name
  /\ registered r /\ domain_rank r <= 5
  /\ reports (run model_name prompt timeout) timeout r.
Proof.
  intros run model_name prompt timeout r Hknown Hr.
  destruct (query_ollama_model_returns run model_name prompt timeout)
    as (r' & Hr' & Hmodel & Hrep & Hd & Hc & Hdesc).
  assert (r' = r) by congruence. subst r'.
  destruct (known_registered model_name Hknown) as (info & Hinfo & Hin).
  rewrite Hinfo in Hd, Hc, Hdesc. cbn [Server.info_get] in Hd, Hc, Hdesc.
  split; [exact Hmodel|]. split; [|split; [|exact Hrep]].
  - exists info. rewrite Hmodel. tauto.
  - destruct (registry_domains_ranked _ _ Hin) as (n & Hn & Hle).
    unfold domain_rank, Server.sort_key. cbn [fst]. rewrite Hd, Hn. exact Hle.
Qed.

(** X29: a request whose names are all registered is answered, and every
    requested model is in the answer.  [query_models] returns a response
    that echoes the prompt, counts the requested models (all 19 when the
    request names none), and holds one result for each requested name, each
    being what [query_ollama_model] returned for the process run for it, with
    the registry's domain, color and description; the results are ordered by
    the place of their domain and then by name; and [models_succeeded] is
    the number of results with status success, never above
    [models_queried]. *)
Theorem query_models_answers_every_model :
  forall (env : nat -> Server.subprocess) (total_ms : Z)
         (request : Server.QueryRequest.t),
    unknown_names request = [] ->
    exists answer,
      Server.query_models env total_ms request = Server.Respond answer
      /\ Server.QueryResponse.prompt answer = Server.QueryRequest.prompt request
      /\ Server.QueryResponse.models_queried answer
         = List.length (Server.models_to_query request)
      /\ ((Server.QueryRequest.models request = None
           \/ Server.QueryRequest.models request = Some []) ->
          Server.QueryResponse.models_queried answer = 19)
      /\ Permutation (map Server.ModelResponse.model
                          (Server.QueryResponse.responses answer))
                     (Server.models_to_query request)
      /\ StronglySorted listed_before (Server.QueryResponse.responses answer)
      /\ Forall (fun r =>
                   registered r /\ well_formed r /\ domain_rank r <= 5
                   /\ exists i,
                        nth_error (Server.models_to_query request) i
                        = Some (Server.ModelResponse.model r)
                        /\ Server.query_ollama_model (env i)
                             (Server.ModelResponse.model r)
                             (Server.QueryRequest.prompt request)
                             (Server.QueryRequest.timeout request)
                           = Server.Returned r
                        /\ reports (env i (Server.ModelResponse.model r)
                                      (Server.QueryRequest.prompt request)
                                      (Server.QueryRequest.timeout request))
                                   (Server.QueryRequest.timeout request) r)
                (Server.QueryResponse.responses answer)
      /\ Server.QueryResponse.models_succeeded answer
         = List.length
             (filter (fun r => String.eqb (Server.ModelResponse.status r) "success")
                     (Server.QueryResponse.responses answer))
      /\ Server.QueryResponse.models_succeeded answer
         <= Server.QueryResponse.models_queried answer.
Proof.
  intros env total_ms request Hvalid. unfold Server.query_models.
  fold (unknown_names request). rewrite Hvalid.
  pose proof (models_to_query_nonempty request) as Hne.
  assert (Hknown : forall m, In m (Server.models_to_query request) -> known m).
  { intros m Hm. unfold known.
    destruct (Py.mem m (keys Server.MODELS)) eqn:E; [now apply mem_true_In|].
    assert (Hin : In m (unknown_names request)).
    { apply filter_In. split; [exact Hm | now rewrite E]. }
    rewrite Hvalid in Hin. destruct Hin. }
  set (names := Server.models_to_query request) in *.
  set (submitted := combine (seq 0 (List.length names)) names).
  destruct (Nat.min (List.length names) 8 <=? 0) eqn:E.
  { apply Nat.leb_le in E. destruct names; [congruence | cbn in E; lia]. }
  pose proof (gather_spec env request submitted) as Hgather.
  set (found := Server.gather env request submitted) in *.
  set (listed := sort_by Server.sort_key Server.tuple_leb found).
  assert (Hperm : Permutation listed found) by apply sort_by_perm.
  assert (Hfound : Forall (fun r =>
            exists i, nth_error names i = Some (Server.ModelResponse.model r)
                      /\ Server.query_ollama_model (env i)
                           (Server.ModelResponse.model r)
                           (Server.QueryRequest.prompt request)
                           (Server.QueryRequest.timeout request)
                         = Server.Returned r) found).
  { eapply Forall_impl; [|apply (Forall2_right_In _ _ _ _ _ Hgather)].
    intros r ([i m] & Hin & Hr). cbn [fst snd] in Hr.
    apply combine_seq_In in Hin. destruct Hin as [_ Hnth].
    rewrite Nat.sub_0_r in Hnth.
    destruct (query_ollama_model_returns (env i) m
                (Server.QueryRequest.prompt request)
                (Server.QueryRequest.timeout request)) as (r' & Hr' & Hmodel & _).
    assert (r' = r) by congruence. subst r'. subst m.
    exists i. now split. }
  assert (Hnames : map Server.ModelResponse.model found = names).
  { rewrite <- (combine_seq_snd _ names 0). fold submitted.
    clear - Hgather. induction Hgather as [|[i m] r l rs Hr _ IH]; cbn [map];
      [reflexivity|].
    cbn [fst snd] in *. f_equal; [|exact IH].
    destruct (query_ollama_model_returns (env i) m
                (Server.QueryRequest.prompt request)
                (Server.QueryRequest.timeout request)) as (r' & Hr' & Hmodel & _).
    congruence. }
  eexists. split; [reflexivity|].
  cbn [Server.QueryResponse.prompt Server.QueryResponse.models_queried
       Server.QueryResponse.responses Server.QueryResponse.models_succeeded].
  fold listed.
  split; [reflexivity|]. split; [reflexivity|]. split.
  { intros Hnone. unfold names, Server.models_to_query.
    destruct Hnone as [-> | ->]; reflexivity. }
  split.
  { rewrite <- Hnames. apply Permutation_map, Hperm. }
  split.
  { eapply StronglySorted_impl; [apply tuple_leb_listed|].
    apply (sort_by_sorted Server.sort_key Server.tuple_leb
             tuple_leb_total tuple_leb_trans). }
  split.
  { apply sort_by_Forall. eapply Forall_impl; [|exact Hfound].
    intros r (i & Hnth & Hr).
    assert (Hk : known (Server.ModelResponse.model r)).
    { apply Hknown. eapply nth_error_In, Hnth. }
    destruct (answer_registered _ _ _ _ _ Hk Hr) as (_ & Hreg & Hrank & Hrep).
    split; [exact Hreg|]. split; [exact (reports_well_formed _ _ _ Hrep)|].
    split; [exact Hrank|]. exists i. tauto. }
  split; [reflexivity|].
  eapply Nat.le_trans; [apply success_count_le|].
  rewrite (Permutation_length Hperm),
    <- (length_map Server.ModelResponse.model found), Hnames.
  apply Nat.le_refl.
Qed.

Lemma query_models_answers_every_model_witness :
  unknown_names ask_all = []
  /\ exists answer,
       Server.query_models (fun _ => cut_off) 120500 ask_all = Server.Respond answer
       /\ Server.QueryResponse.models_queried answer = 19
       /\ Server.QueryResponse.models_succeeded answer = 0.
Proof.
  split; [reflexivity|].
  destruct (query_models_answers_every_model (fun _ => cut_off) 120500 ask_all
              eq_refl)
    as (answer & Hanswer & _ & Hn & _).
  exists answer. split; [exact Hanswer|]. split; [exact Hn|].
  vm_compute in Hanswer. inversion Hanswer. reflexivity.
Defined.

(** X30: [query_single_model] answers for a registered model and for no
    other.  For a name that the registry does not have it ends by an
    [HTTPException] with status 404 and no process is run; for a registered
    name it returns the result of that model with the registry's domain,
    color and description, whose status is success exactly when the process
    ended with return code 0 (with the output stripped as response and no
    error), timeout when it was cut off (error "Timeout after N seconds"),
    and error otherwise, with no response and an error text that is not
    empty after a return code other than 0. *)
Theorem query_single_model_answers_registered_models :
  forall (run : Server.subprocess) (model_name : string)
         (request : Server.QueryRequest.t),
    (~ known model_name ->
     Server.query_single_model run model_name request
     = Server.Fail (Server.HTTPException 404
                      (Server.ModelNotFound model_name (keys Server.MODELS))))
    /\ (known model_name ->
        exists r,
          Server.query_single_model run model_name request = Server.Respond r
          /\ Server.ModelResponse.model r = model_name
          /\ registered r
          /\ well_formed r
          /\ reports (run model_name (Server.QueryRequest.prompt request)
                          (Server.QueryRequest.timeout request))
                     (Server.QueryRequest.timeout request) r).
Proof.
  intros run model_name request. unfold Server.query_single_model. split.
  - intros Hun. destruct (Py.mem model_name (keys Server.MODELS)) eqn:E;
      [|reflexivity].
    apply mem_true_In in E. contradiction.
  - intros Hk. assert (E : Py.mem model_name (keys Server.MODELS) = true)
      by now apply mem_true_In.
    rewrite E. cbn [negb].
    destruct (query_ollama_model_returns run model_name
                (Server.QueryRequest.prompt request)
                (Server.QueryRequest.timeout request)) as (r & Hr & _).
    rewrite Hr. exists r. split; [reflexivity|].
    destruct (answer_registered _ _ _ _ _ Hk Hr) as (Hm & Hreg & _ & Hrep).
    pose proof (reports_well_formed _ _ _ Hrep) as Hwf. tauto.
Qed.
